(** * Math Mentor: the case memory (memory/store.py) and the solve pipeline (app.py)

    A shallow embedding of [MemoryStore] and of the solve-button block of the
    Streamlit script, with the properties of the specification that concern
    them.

    Conventions of the embedding.
    - Python values that reach the store are JSON-shaped; they are the
      inductive type [json].  A [dict] is an association list in insertion
      order, read with first-match lookup.
    - Python exceptions are the [Raise] results of the type [result].
    - The backing file, the console ([print]) and the two environment reads
      of [store_interaction] ([uuid.uuid4], [datetime.now]) are explicit:
      a [World] is threaded through every method.
    - A save can fail at two points: before the file is open (nothing
      changes), or while the text is written, after [open(path, 'w')] has
      emptied the file (the file keeps the beginning of the text).  The
      second is modelled by the [capacity] of the device.
    - [json.dump] and [json.load] belong to the Python library; they are the
      two fields of the class [JsonLib].  [MiniJson] is one instance, used to
      run the model on concrete files.
    - The similarity score is modelled as the exact rational
      [intersection / union].  Python computes the correctly rounded binary64
      quotient; rounding is monotone and the quotient 3/10 rounds to the
      literal [0.3], so the test [similarity > 0.3] and the order of two
      scores agree with the exact ones as long as the token sets have fewer
      than 2^26 elements; the agreement is checked by computation on small
      sizes ([threshold_test_agrees], [score_order_agrees]).
    - Text is ASCII: [lower] maps A-Z to a-z and [split] cuts at the ASCII
      white space of [str.isspace]. *)

From Stdlib Require Import ZArith QArith String Ascii List Bool Lia DecimalString.
From Stdlib Require Import Floats.SpecFloat.
From Stdlib Require Import Sorting.Sorted Sorting.Permutation.
From stdpp Require Import base gmap strings list.
Import ListNotations.

Set Warnings "-register-all".

Local Open Scope string_scope.
Local Open Scope list_scope.

(** ** Python values and exceptions *)

Inductive json : Type :=
| JNull
| JBool (b : bool)
| JInt (z : Z)
| JFloat (f : spec_float)
| JStr (s : string)
| JList (l : list json)
| JDict (d : list (string * json)).

Inductive exc_class : Type :=
| AttributeError
| TypeError
| ValueError
| KeyError
| JSONDecodeError
| OSError
| OtherError (name : string).

Record exn : Type := mkExn { exc_type : exc_class; exc_msg : string }.

Inductive result (A : Type) : Type :=
| Ok (a : A)
| Raise (e : exn).

Arguments Ok {A} a.
Arguments Raise {A} e.

(** Sequencing: an exception raised by the first computation skips the rest.
    The instances give the notation [x ← r; k]. *)
#[global] Instance result_ret : MRet result := fun A a => Ok a.
#[global] Instance result_bind : MBind result := fun A B k r =>
  match r with
  | Ok a => k a
  | Raise e => Raise e
  end.

(** [bool(v)]: the truth value of a Python object. *)
Definition truthy (v : json) : bool :=
  match v with
  | JNull => false
  | JBool b => b
  | JInt z => negb (z =? 0)%Z
  | JFloat f => match f with S754_zero _ => false | _ => true end
  | JStr s => negb (String.eqb s EmptyString)
  | JList l => match l with [] => false | _ => true end
  | JDict d => match d with [] => false | _ => true end
  end.

(** [d.get(k)] on a dict: first binding of [k], else [None]. *)
Fixpoint dict_lookup (k : string) (d : list (string * json)) : option json :=
  match d with
  | [] => None
  | (k', v) :: d' => if String.eqb k k' then Some v else dict_lookup k d'
  end.

Definition dict_get (d : list (string * json)) (k : string) (default : json) : json :=
  match dict_lookup k d with
  | Some v => v
  | None => default
  end.

(** [v.get(k, default)] on any object: only a dict has the method. *)
Definition py_get (v : json) (k : string) (default : json) : result json :=
  match v with
  | JDict d => Ok (dict_get d k default)
  | _ => Raise (mkExn AttributeError "get")
  end.

(** [isinstance(v, dict)] *)
Definition is_dict (v : json) : bool :=
  match v with
  | JDict _ => true
  | _ => false
  end.

(** [len(v)] *)
Definition py_len (v : json) : result nat :=
  match v with
  | JStr s => Ok (String.length s)
  | JList l => Ok (List.length l)
  | JDict d => Ok (List.length d)
  | _ => Raise (mkExn TypeError "len")
  end.

(** [for x in v]: the sequence a [for] loop walks through. *)
Definition py_iter (v : json) : result (list json) :=
  match v with
  | JList l => Ok l
  | JDict d => Ok (map (fun kv => JStr (fst kv)) d)
  | JStr s => Ok (map (fun c => JStr (String c EmptyString)) (list_ascii_of_string s))
  | _ => Raise (mkExn TypeError "iter")
  end.

(** ** Text: [str.lower] and [str.split] *)

Definition lower_ascii (c : ascii) : ascii :=
  let n := nat_of_ascii c in
  if (65 <=? n)%nat && (n <=? 90)%nat then ascii_of_nat (n + 32) else c.

Fixpoint lower (s : string) : string :=
  match s with
  | EmptyString => EmptyString
  | String c r => String (lower_ascii c) (lower r)
  end.

Definition isspace (c : ascii) : bool :=
  let n := nat_of_ascii c in
  ((9 <=? n)%nat && (n <=? 13)%nat) || ((28 <=? n)%nat && (n <=? 32)%nat).

(** [split_from cur s]: the words of [s], the first one prefixed with the
    characters [cur] already read. *)
Fixpoint split_from (cur : string) (s : string) : list string :=
  match s with
  | EmptyString => if String.eqb cur EmptyString then [] else [cur]
  | String c r =>
      if isspace c
      then (if String.eqb cur EmptyString
            then split_from EmptyString r
            else cur :: split_from EmptyString r)
      else split_from (cur ++ String c EmptyString) r
  end.

Definition split (s : string) : list string := split_from EmptyString s.

(** [set(text.lower().split())] *)
Definition tokens (text : string) : gset string := list_to_set (split (lower text)).


(** ** The environment of a store *)

(** What lies at [storage_path]: nothing, a regular file, or something that
    cannot be opened (a directory, a file without permissions). *)
Inductive backing : Type :=
| NoFile
| File (content : string)
| Blocked.

Record Disk : Type := mkDisk {
  node : backing;
  dir_ok : bool;          (* [os.makedirs] of the parent directory succeeds *)
  file_writable : bool;   (* [open(path, 'w')] succeeds *)
  capacity : option nat   (* the longest text the device takes; [None]: any *)
}.

(** One constructor per [print] of store.py. *)
Inductive message : Type :=
| MsgLoaded (n : nat) (path : string)
| MsgCorrupted
| MsgLoadError (e : exn)
| MsgNoFile (path : string)
| MsgSaved (n : nat) (path : string)
| MsgSaveError (e : exn)
| MsgStored (id : string)
| MsgStoreFailed
| MsgCleared.

Record World : Type := mkWorld {
  disk : Disk;
  console : list message;
  tick : nat              (* number of environment reads made so far *)
}.

Definition say (m : message) (w : World) : World :=
  mkWorld (disk w) (console w ++ [m]) (tick w).

Definition set_disk (d : Disk) (w : World) : World :=
  mkWorld d (console w) (tick w).

Definition advance (w : World) : World :=
  mkWorld (disk w) (console w) (S (tick w)).

(** [os.path.exists(path)] *)
Definition path_exists (d : Disk) : bool :=
  match node d with
  | NoFile => false
  | _ => true
  end.

(** [open(path, 'r').read()] *)
Definition read_file (d : Disk) : result string :=
  match node d with
  | File s => Ok s
  | NoFile => Raise (mkExn OSError "No such file or directory")
  | Blocked => Raise (mkExn OSError "cannot open")
  end.

(** [os.makedirs(dirname, exist_ok=True)] *)
Definition makedirs (d : Disk) : result unit :=
  if dir_ok d then Ok tt else Raise (mkExn OSError "makedirs").

(** [open(path, 'w')]: the file is emptied as soon as it is open. *)
Definition open_w (d : Disk) : result Disk :=
  match node d with
  | Blocked => Raise (mkExn OSError "cannot open")
  | _ =>
      if file_writable d
      then Ok (mkDisk (File EmptyString) (dir_ok d) (file_writable d) (capacity d))
      else Raise (mkExn OSError "Permission denied")
  end.

(** Writing [s] into the file just opened, and closing it.  When the device
    takes fewer characters than [s] has, the write raises and the file keeps
    the beginning of [s] that was taken. *)
Definition write_text (s : string) (d : Disk) : option exn * Disk :=
  match capacity d with
  | Some k =>
      if (k <? String.length s)%nat
      then (Some (mkExn OSError "No space left on device"),
            mkDisk (File (substring 0 k s)) (dir_ok d) (file_writable d) (capacity d))
      else (None, mkDisk (File s) (dir_ok d) (file_writable d) (capacity d))
  | None => (None, mkDisk (File s) (dir_ok d) (file_writable d) (capacity d))
  end.

(** The Python library's [json.dump(v, f, indent=2, ensure_ascii=False)] and
    [json.load(f)], as functions on the text of the file.  [json_load]
    raises [JSONDecodeError] on text that is not JSON. *)
Class JsonLib : Type := {
  json_dump : json -> string;
  json_load : string -> result json
}.

(** The results of the [n]-th call of [uuid.uuid4()] and of
    [datetime.now().isoformat()]. *)
Class Clock : Type := {
  uuid4 : nat -> string;
  now_isoformat : nat -> string
}.

(** ** memory/store.py *)

Record MemoryStore : Type := mkStore {
  storage_path : string;
  memories : json
}.

Section Store.
Context `{lib : JsonLib} `{clock : Clock}.

Definition load_memories (self : MemoryStore) (w : World) : json * World :=
  if path_exists (disk w) then
    match (text ← read_file (disk w);
           data ← json_load text;
           n ← py_len data;
           Ok (data, n)) with
    | Ok (data, n) => (data, say (MsgLoaded n (storage_path self)) w)
    | Raise e =>
        match exc_type e with
        | JSONDecodeError => (JList [], say MsgCorrupted w)
        | _ => (JList [], say (MsgLoadError e) w)
        end
    end
  else (JList [], say (MsgNoFile (storage_path self)) w).

(** [MemoryStore(storage_path)]: the [makedirs] of the constructor is not
    inside a [try]. *)
Definition MemoryStore_init (path : string) (w : World) : result (MemoryStore * World) :=
  _ ← makedirs (disk w);
  let '(data, w') := load_memories (mkStore path JNull) w in
  Ok (mkStore path data, w').

(** The values of the model are all ones that [json.dump] can write, so the
    write of the text is the step that can fail once the file is open. *)
Definition save_memories (self : MemoryStore) (w : World) : bool * World :=
  match makedirs (disk w) with
  | Raise e => (false, say (MsgSaveError e) w)
  | Ok _ =>
      match open_w (disk w) with
      | Raise e => (false, say (MsgSaveError e) w)
      | Ok opened =>
          match write_text (json_dump (memories self)) opened with
          | (Some e, d') => (false, say (MsgSaveError e) (set_disk d' w))
          | (None, d') =>
              let w' := set_disk d' w in
              match py_len (memories self) with
              | Raise e => (false, say (MsgSaveError e) w')
              | Ok n => (true, say (MsgSaved n (storage_path self)) w')
              end
          end
      end
  end.

(** [self.memories.append(memory)]: only a list has the method. *)
Definition py_append (v : json) (x : json) : result json :=
  match v with
  | JList l => Ok (JList (l ++ [x]))
  | _ => Raise (mkExn AttributeError "append")
  end.

(** The dict literal built at the start of [store_interaction]. *)
Definition make_memory (id timestamp : string) (data : json) : result json :=
  original_input ← py_get data "original_input" JNull;
  input_type ← py_get data "input_type" JNull;
  parsed_problem ← py_get data "parsed_problem" JNull;
  solution ← py_get data "solution" JNull;
  verification ← py_get data "verification" JNull;
  feedback ← py_get data "feedback" JNull;
  user_comment ← py_get data "user_comment" (JStr EmptyString);
  Ok (JDict [("id", JStr id);
             ("timestamp", JStr timestamp);
             ("original_input", original_input);
             ("input_type", input_type);
             ("parsed_problem", parsed_problem);
             ("solution", solution);
             ("verification", verification);
             ("feedback", feedback);
             ("user_comment", user_comment)]).

Definition store_interaction (self : MemoryStore) (data : json) (w : World)
  : result string * MemoryStore * World :=
  let id := uuid4 (tick w) in
  let timestamp := now_isoformat (tick w) in
  let w1 := advance w in
  match (memory ← make_memory id timestamp data;
         py_append (memories self) memory) with
  | Raise e => (Raise e, self, w1)
  | Ok mems =>
      let self' := mkStore (storage_path self) mems in
      let '(success, w2) := save_memories self' w1 in
      let w3 := if success then say (MsgStored id) w2 else say MsgStoreFailed w2 in
      (Ok id, self', w3)
  end.

(** [set(text.lower().split())]: only a [str] has [lower]. *)
Definition words_of (text : json) : result (gset string) :=
  match text with
  | JStr s => Ok (tokens s)
  | _ => Raise (mkExn AttributeError "lower")
  end.

Definition _simple_similarity (text1 text2 : json) : result Q :=
  if negb (truthy text1) || negb (truthy text2) then Ok 0%Q
  else
    words1 ← words_of text1;
    words2 ← words_of text2;
    if (size words1 =? 0)%nat || (size words2 =? 0)%nat then Ok 0%Q
    else
      let intersection := size (words1 ∩ words2) in
      let union := size (words1 ∪ words2) in
      Ok (if (0 <? union)%nat
          then (Z.of_nat intersection # Pos.of_nat union)%Q
          else 0%Q).

(** [a > b] on scores *)
Definition Qgt_bool (a b : Q) : bool := negb (Qle_bool a b).

(** The body of the [for] loop of [get_similar_problems]; [similar] is the
    list built so far. *)
Definition visit (problem_text : json) (similar : list (json * Q)) (memory : json)
  : result (list (json * Q)) :=
  parsed ← py_get memory "parsed_problem" JNull;
  if truthy parsed && is_dict parsed then
    stored_text ← py_get parsed "problem_text" (JStr EmptyString);
    if truthy stored_text then
      similarity ← _simple_similarity problem_text stored_text;
      if Qgt_bool similarity (3 # 10)
      then Ok (similar ++ [(memory, similarity)])
      else Ok similar
    else Ok similar
  else Ok similar.

Fixpoint scan (problem_text : json) (similar : list (json * Q)) (items : list json)
  : result (list (json * Q)) :=
  match items with
  | [] => Ok similar
  | memory :: rest =>
      similar' ← visit problem_text similar memory;
      scan problem_text similar' rest
  end.

(** [l.sort(key=key, reverse=True)]: Python's sort is stable, also with
    [reverse=True]; the greatest key comes first and elements with equal keys
    keep their order.  [insert_desc] puts [x] before the first element whose
    key is not greater. *)
Fixpoint insert_desc {A : Type} (key : A -> Q) (x : A) (l : list A) : list A :=
  match l with
  | [] => [x]
  | y :: r =>
      if Qle_bool (key y) (key x)
      then x :: y :: r
      else y :: insert_desc key x r
  end.

Definition sort_desc {A : Type} (key : A -> Q) (l : list A) : list A :=
  fold_right (insert_desc key) [] l.

(** [l[:limit]]: a negative [limit] counts from the end. *)
Definition slice_to {A : Type} (limit : Z) (l : list A) : list A :=
  if (0 <=? limit)%Z
  then firstn (Z.to_nat limit) l
  else firstn (List.length l - Z.to_nat (- limit)) l.

Definition get_similar_problems (self : MemoryStore) (problem_text : json) (limit : Z)
  : result (list json) :=
  if negb (truthy (memories self)) then Ok []
  else
    items ← py_iter (memories self);
    similar ← scan problem_text [] items;
    Ok (map fst (slice_to limit (sort_desc snd similar))).

Definition get_all_memories (self : MemoryStore) : json := memories self.

Definition clear_memories (self : MemoryStore) (w : World) : bool * MemoryStore * World :=
  let self' := mkStore (storage_path self) (JList []) in
  let '(success, w1) := save_memories self' w in
  let w2 := if success then say MsgCleared w1 else w1 in
  (success, self', w2).

End Store.

(** ** A small JSON codec

    An instance of [JsonLib] that can be run, for the examples only: it is
    not Python's [json].  [dumps] writes a value with the layout of
    [indent=2]; a finite float is written as its exact decimal expansion,
    not as its shortest representation, and characters are bytes.  [loads]
    reads JSON text whose numbers are integers or short decimal fractions; a
    number with an exponent, or too long for an exact conversion, raises
    [OtherError], not [JSONDecodeError]: the instance does not decide such
    text.  The theorems are stated for every [JsonLib]. *)
Module MiniJson.
Local Open Scope string_scope.

Definition dquote : ascii := ascii_of_nat 34.
Definition backslash : ascii := ascii_of_nat 92.

Definition is_char (n : nat) (c : ascii) : bool := (nat_of_ascii c =? n)%nat.

Definition hex_digit (n : nat) : ascii :=
  if (n <? 10)%nat then ascii_of_nat (48 + n) else ascii_of_nat (87 + n).

Definition escape_char (c : ascii) : string :=
  let n := nat_of_ascii c in
  if (n =? 34)%nat then String backslash (String dquote EmptyString)
  else if (n =? 92)%nat then String backslash (String backslash EmptyString)
  else if (n =? 10)%nat then String backslash "n"
  else if (n =? 13)%nat then String backslash "r"
  else if (n =? 9)%nat then String backslash "t"
  else if (n =? 8)%nat then String backslash "b"
  else if (n =? 12)%nat then String backslash "f"
  else if (n <? 32)%nat
       then String backslash
              ("u00" ++ String (hex_digit (n / 16))
                          (String (hex_digit (n mod 16)) EmptyString))
  else String c EmptyString.

Fixpoint escape (s : string) : string :=
  match s with
  | EmptyString => EmptyString
  | String c r => escape_char c ++ escape r
  end.

Definition quote (s : string) : string :=
  String dquote (escape s ++ String dquote EmptyString).

Definition string_of_Z (z : Z) : string := NilZero.string_of_int (Z.to_int z).

Fixpoint zeros (n : nat) : string :=
  match n with
  | O => EmptyString
  | S n' => String "0" (zeros n')
  end.

(** Drop the zeros at the end of a fraction, keeping one digit. *)
Fixpoint strip_zeros (s : string) : string :=
  match s with
  | EmptyString => EmptyString
  | String c r =>
      match strip_zeros r with
      | EmptyString => if is_char 48 c then EmptyString else String c EmptyString
      | r' => String c r'
      end
  end.

Definition fraction_digits (s : string) : string :=
  match strip_zeros s with
  | EmptyString => "0"
  | r => r
  end.

Definition string_of_float (f : spec_float) : string :=
  match f with
  | S754_nan => "NaN"
  | S754_infinity false => "Infinity"
  | S754_infinity true => "-Infinity"
  | S754_zero false => "0.0"
  | S754_zero true => "-0.0"
  | S754_finite s m e =>
      let sign := if s then "-" else EmptyString in
      match e with
      | Zneg k =>
          let k := Pos.to_nat k in
          let digits := string_of_Z (Z.pos m * 5 ^ Z.of_nat k) in
          let digits := zeros (S k - String.length digits) ++ digits in
          let n := String.length digits - k in
          sign ++ substring 0 n digits ++ "."
               ++ fraction_digits (substring n k digits)
      | _ => sign ++ string_of_Z (Z.pos m * 2 ^ e) ++ ".0"
      end
  end.

Definition newline : string := String (ascii_of_nat 10) EmptyString.

Fixpoint spaces (n : nat) : string :=
  match n with
  | O => EmptyString
  | S n' => String " " (spaces n')
  end.

Definition nl (level : nat) : string := newline ++ spaces (2 * level).

Fixpoint dumps_at (level : nat) (v : json) : string :=
  match v with
  | JNull => "null"
  | JBool true => "true"
  | JBool false => "false"
  | JInt z => string_of_Z z
  | JFloat f => string_of_float f
  | JStr s => quote s
  | JList l =>
      match l with
      | [] => "[]"
      | _ =>
          "[" ++ (fix items (first : bool) (l : list json) : string :=
                    match l with
                    | [] => EmptyString
                    | x :: l' =>
                        (if first then EmptyString else ",") ++ nl (S level)
                          ++ dumps_at (S level) x ++ items false l'
                    end) true l
              ++ nl level ++ "]"
      end
  | JDict d =>
      match d with
      | [] => "{}"
      | _ =>
          "{" ++ (fix members (first : bool) (d : list (string * json)) : string :=
                    match d with
                    | [] => EmptyString
                    | (k, x) :: d' =>
                        (if first then EmptyString else ",") ++ nl (S level)
                          ++ quote k ++ ": " ++ dumps_at (S level) x ++ members false d'
                    end) true d
              ++ nl level ++ "}"
      end
  end.

Definition dumps (v : json) : string := dumps_at 0 v.

(** *** Reading *)

Definition decode_error : exn := mkExn JSONDecodeError "Expecting value".
Definition undecided : exn := mkExn (OtherError "Unsupported") "number outside the fragment".

Definition is_ws (c : ascii) : bool :=
  is_char 32 c || is_char 9 c || is_char 10 c || is_char 13 c.

Fixpoint skip_ws (s : string) : string :=
  match s with
  | String c r => if is_ws c then skip_ws r else s
  | EmptyString => EmptyString
  end.

Definition is_digit (c : ascii) : bool :=
  let n := nat_of_ascii c in (48 <=? n)%nat && (n <=? 57)%nat.

Definition digit_val (c : ascii) : Z := Z.of_nat (nat_of_ascii c - 48).

(** Reads a run of digits: its value, its length and the rest. *)
Fixpoint read_digits (acc : Z) (len : nat) (s : string) : Z * nat * string :=
  match s with
  | String c r =>
      if is_digit c then read_digits (acc * 10 + digit_val c) (S len) r
      else (acc, len, s)
  | EmptyString => (acc, len, s)
  end.

Definition hex_val (c : ascii) : option nat :=
  let n := nat_of_ascii c in
  if (48 <=? n)%nat && (n <=? 57)%nat then Some (n - 48)
  else if (97 <=? n)%nat && (n <=? 102)%nat then Some (n - 87)
  else if (65 <=? n)%nat && (n <=? 70)%nat then Some (n - 55)
  else None.

(** The characters of a string literal after its opening quote. *)
Fixpoint read_string (s : string) : result (string * string) :=
  match s with
  | EmptyString => Raise decode_error
  | String c r =>
      if is_char 34 c then Ok (EmptyString, r)
      else if is_char 92 c then
        match r with
        | String e r' =>
            let plain (x : nat) :=
              '(t, rest) ← read_string r'; Ok (String (ascii_of_nat x) t, rest) in
            if is_char 34 e then plain 34
            else if is_char 92 e then plain 92
            else if is_char 47 e then plain 47
            else if is_char 110 e then plain 10
            else if is_char 114 e then plain 13
            else if is_char 116 e then plain 9
            else if is_char 98 e then plain 8
            else if is_char 102 e then plain 12
            else if is_char 117 e then
              match r' with
              | String a (String b (String c1 (String d after))) =>
                  match hex_val a, hex_val b, hex_val c1, hex_val d with
                  | Some 0, Some 0, Some h, Some l =>
                      '(t, rest) ← read_string after;
                      Ok (String (ascii_of_nat (16 * h + l)) t, rest)
                  | Some _, Some _, Some _, Some _ => Raise undecided
                  | _, _, _, _ => Raise decode_error
                  end
              | _ => Raise decode_error
              end
            else Raise decode_error
        | EmptyString => Raise decode_error
        end
      else if (nat_of_ascii c <? 32)%nat then Raise decode_error
      else '(t, rest) ← read_string r; Ok (String c t, rest)
  end.

Fixpoint drop_prefix (p s : string) : option string :=
  match p, s with
  | EmptyString, _ => Some s
  | String a p', String b s' => if Ascii.eqb a b then drop_prefix p' s' else None
  | String _ _, EmptyString => None
  end.

(** [d[k] = v] *)
Fixpoint dict_set (k : string) (v : json) (d : list (string * json)) : list (string * json) :=
  match d with
  | [] => [(k, v)]
  | (k', v') :: d' =>
      if String.eqb k k' then (k', v) :: d' else (k', v') :: dict_set k v d'
  end.

(** An exponent part [e], [e+] or [e-] followed by a digit. *)
Definition has_exponent (s : string) : bool :=
  match s with
  | String c r =>
      if is_char 101 c || is_char 69 c then
        match r with
        | String c1 r1 =>
            if is_digit c1 then true
            else if is_char 43 c1 || is_char 45 c1 then
              match r1 with
              | String c2 _ => is_digit c2
              | EmptyString => false
              end
            else false
        | EmptyString => false
        end
      else false
  | EmptyString => false
  end.

Definition float_of_decimal (neg : bool) (n : Z) (k : nat) : spec_float :=
  SFdiv 53 1024
    (binary_normalize 53 1024 (if neg then - n else n) 0 neg)
    (binary_normalize 53 1024 (10 ^ Z.of_nat k) 0 false).

(** A number whose first character (a digit, or the minus sign before one)
    is the head of [s]. *)
Definition read_number (s : string) : result (json * string) :=
  let '(neg, s1) :=
    match s with
    | String c r => if is_char 45 c then (true, r) else (false, s)
    | EmptyString => (false, s)
    end in
  match s1 with
  | String c r =>
      if is_digit c then
        let '(ip, _, s2) :=
          if is_char 48 c then (0%Z, 1%nat, r) else read_digits 0 0 s1 in
        let '(fp, k, s3) :=
          match s2 with
          | String c2 r2 => if is_char 46 c2 then read_digits 0 0 r2 else (0%Z, 0%nat, s2)
          | EmptyString => (0%Z, 0%nat, s2)
          end in
        match k with
        | O =>
            if has_exponent s2 then Raise undecided
            else Ok (JInt (if neg then - ip else ip), s2)
        | S _ =>
            let n := (ip * 10 ^ Z.of_nat k + fp)%Z in
            if has_exponent s3 then Raise undecided
            else if (n <? 2 ^ 53)%Z && (k <=? 15)%nat
                 then Ok (JFloat (float_of_decimal neg n k), s3)
                 else Raise undecided
        end
      else Raise decode_error
  | EmptyString => Raise decode_error
  end.

Definition read_literal (s : string) : result (json * string) :=
  match drop_prefix "null" s with
  | Some r => Ok (JNull, r)
  | None =>
  match drop_prefix "true" s with
  | Some r => Ok (JBool true, r)
  | None =>
  match drop_prefix "false" s with
  | Some r => Ok (JBool false, r)
  | None =>
  match drop_prefix "NaN" s with
  | Some r => Ok (JFloat S754_nan, r)
  | None =>
  match drop_prefix "Infinity" s with
  | Some r => Ok (JFloat (S754_infinity false), r)
  | None =>
  match drop_prefix "-Infinity" s with
  | Some r => Ok (JFloat (S754_infinity true), r)
  | None => read_number s
  end end end end end end.

Definition out_of_fuel : exn := mkExn (OtherError "RecursionError") "fuel".

Fixpoint read_value (fuel : nat) (s : string) : result (json * string) :=
  match fuel with
  | O => Raise out_of_fuel
  | S fuel' =>
      match s with
      | EmptyString => Raise decode_error
      | String c r =>
          if is_char 34 c then
            '(t, rest) ← read_string r; Ok (JStr t, rest)
          else if is_char 91 c then
            match skip_ws r with
            | String c2 r2 =>
                if is_char 93 c2 then Ok (JList [], r2)
                else read_items fuel' [] (skip_ws r)
            | EmptyString => Raise decode_error
            end
          else if is_char 123 c then
            match skip_ws r with
            | String c2 r2 =>
                if is_char 125 c2 then Ok (JDict [], r2)
                else read_members fuel' [] (skip_ws r)
            | EmptyString => Raise decode_error
            end
          else read_literal s
      end
  end

with read_items (fuel : nat) (acc : list json) (s : string) : result (json * string) :=
  match fuel with
  | O => Raise out_of_fuel
  | S fuel' =>
      '(v, rest) ← read_value fuel' s;
      match skip_ws rest with
      | String c r =>
          if is_char 44 c then read_items fuel' (acc ++ [v])%list (skip_ws r)
          else if is_char 93 c then Ok (JList (acc ++ [v])%list, r)
          else Raise decode_error
      | EmptyString => Raise decode_error
      end
  end

with read_members (fuel : nat) (acc : list (string * json)) (s : string)
  : result (json * string) :=
  match fuel with
  | O => Raise out_of_fuel
  | S fuel' =>
      match s with
      | String q r =>
          if is_char 34 q then
            '(k, rest) ← read_string r;
            match skip_ws rest with
            | String c r1 =>
                if is_char 58 c then
                  '(v, rest1) ← read_value fuel' (skip_ws r1);
                  match skip_ws rest1 with
                  | String c2 r2 =>
                      if is_char 44 c2 then read_members fuel' (dict_set k v acc) (skip_ws r2)
                      else if is_char 125 c2 then Ok (JDict (dict_set k v acc), r2)
                      else Raise decode_error
                  | EmptyString => Raise decode_error
                  end
                else Raise decode_error
            | EmptyString => Raise decode_error
            end
          else Raise decode_error
      | EmptyString => Raise decode_error
      end
  end.

Definition loads (s : string) : result json :=
  '(v, rest) ← read_value (2 * String.length s + 2) (skip_ws s);
  match skip_ws rest with
  | EmptyString => Ok v
  | String _ _ => Raise (mkExn JSONDecodeError "Extra data")
  end.

End MiniJson.

#[global] Instance mini_json : JsonLib :=
  {| json_dump := MiniJson.dumps; json_load := MiniJson.loads |}.

(** ** app.py: the solve button *)

Inductive stage : Type := Parse | Solve | Verify | Explain.

(** The four agents of [components].  Each is called at most once in a run
    of the script, so a function from its arguments to its result or
    exception describes it. *)
Class Agents : Type := {
  parse : string -> result json;
  solve : json -> result json;
  verify : json -> json -> result json;
  explain : json -> json -> result json
}.

(** Where an exception was raised: the head of its traceback. *)
Inductive frame : Type :=
| InStage (s : stage)
| InMemory
| InScript.

(** The parts of an f-string; the emoji of the literals are left out. *)
Inductive piece : Type :=
| Lit (s : string)
| Str (v : json)                  (* {v} *)
| Title (s : string)              (* {s.title()} *)
| Count (n : nat)                 (* {i+1} *)
| Fixed3 (v : json)               (* {v:.3f} *)
| Percent (v : json)              (* {v*100:.0f} *)
| Prefix (n : nat) (s : string)   (* {s[:n]} *)
| ExnText (e : exn).              (* {str(e)} *)

(** One constructor per Streamlit call of the block; the layout containers
    ([columns], [spinner]) are left out. *)
Inductive ui_event : Type :=
| St_write (text : list piece)
| St_json (v : json)
| St_info (text : list piece)
| St_warning (text : list piece)
| St_success (text : list piece)
| St_error (text : list piece)
| St_exception (origin : frame) (e : exn)
| St_metric (label : string) (value : list piece)
| St_markdown (text : list piece)
| St_text (v : json)
| St_code (text : list piece)
| St_divider
| St_expander (label : string)
| St_button (label key : string)
| St_text_input (label : string).

(** The widget values of one run of the script. *)
Record Widgets : Type := mkWidgets {
  solve_clicked : bool;
  correct_clicked : bool;
  incorrect_clicked : bool;
  submit_clicked : bool;
  comment_text : string
}.

Record App : Type := mkApp {
  memory : MemoryStore;            (* components["memory"] *)
  world : World;
  screen : list ui_event;
  show_feedback_form : bool;       (* st.session_state["show_feedback_form"] *)
  invoked : list stage             (* the agent calls made so far *)
}.

Inductive outcome (A : Type) : Type :=
| Return (a : A)
| Throw (origin : frame) (e : exn).

Arguments Return {A} a.
Arguments Throw {A} origin e.

(** A piece of the script: it runs on the state of the application and
    returns or throws; the state changes made before a throw remain. *)
Definition M (A : Type) : Type := App -> outcome A * App.

#[global] Instance M_ret : MRet M := fun A x a => (Return x, a).
#[global] Instance M_bind : MBind M := fun A B k m a =>
  match m a with
  | (Return x, a') => k x a'
  | (Throw f e, a') => (Throw f e, a')
  end.

Definition header (s : stage) : ui_event :=
  match s with
  | Parse => St_write [Lit "### Step 1: Parsing Problem"]
  | Solve => St_write [Lit "### Step 2: Solving"]
  | Verify => St_write [Lit "### Step 3: Verification"]
  | Explain => St_write [Lit "### Step 4: Explanation"]
  end.

(** [v[k]] *)
Definition py_item (v : json) (k : string) : result json :=
  match v with
  | JDict d =>
      match dict_lookup k d with
      | Some x => Ok x
      | None => Raise (mkExn KeyError k)
      end
  | _ => Raise (mkExn TypeError "subscript")
  end.

(** What the format code [f] accepts: a number. *)
Definition check_float_format (v : json) : result unit :=
  match v with
  | JInt _ | JFloat _ | JBool _ => Ok tt
  | JStr _ => Raise (mkExn ValueError "Unknown format code 'f'")
  | _ => Raise (mkExn TypeError "unsupported format string")
  end.

(** [topic.title()]: only a [str] has the method. *)
Definition title_of (v : json) : result piece :=
  match v with
  | JStr s => Ok (Title s)
  | _ => Raise (mkExn AttributeError "title")
  end.

Section App.
Context `{lib : JsonLib} `{clock : Clock} `{agents : Agents}.

Definition emit (ev : ui_event) : M unit := fun a =>
  (Return tt, mkApp (memory a) (world a) (screen a ++ [ev]) (show_feedback_form a) (invoked a)).

(** A computation of the script itself. *)
Definition script {A : Type} (r : result A) : M A := fun a =>
  (match r with Ok x => Return x | Raise e => Throw InScript e end, a).

(** The call of an agent, with its result. *)
Definition call (s : stage) (r : result json) : M json := fun a =>
  (match r with Ok x => Return x | Raise e => Throw (InStage s) e end,
   mkApp (memory a) (world a) (screen a) (show_feedback_form a) (invoked a ++ [s])).

(** [components["memory"].get_similar_problems(query)], with the default limit *)
Definition recall (query : json) : M (list json) := fun a =>
  (match get_similar_problems (memory a) query 3 with
   | Ok l => Return l
   | Raise e => Throw InMemory e
   end, a).

(** [components["memory"].store_interaction(data)] *)
Definition remember (data : json) : M string := fun a =>
  let '(r, self', w') := store_interaction (memory a) data (world a) in
  (match r with Ok id => Return id | Raise e => Throw InMemory e end,
   mkApp self' w' (screen a) (show_feedback_form a) (invoked a)).

Definition set_form (b : bool) : M unit := fun a =>
  (Return tt, mkApp (memory a) (world a) (screen a) b (invoked a)).

Definition get_form : M bool := fun a => (Return (show_feedback_form a), a).

Definition when (b : bool) (m : M unit) : M unit := if b then m else mret tt.

(** [for i, x in enumerate(l)], counting from [i] *)
Fixpoint for_each {A : Type} (i : nat) (l : list A) (body : nat -> A -> M unit) : M unit :=
  match l with
  | [] => mret tt
  | x :: r => _ ← body i x; for_each (S i) r body
  end.

Definition show_parsed (parsed : json) : M unit :=
  _ ← emit (St_json parsed);
  topic ← script (py_get parsed "topic" (JStr "algebra"));
  shown ← script (if truthy topic then title_of topic else Ok (Lit "Unknown"));
  _ ← emit (St_info [Lit "**Topic**: "; shown]);
  unclear ← script (py_get parsed "needs_clarification" JNull);
  when (truthy unclear)
    (reason ← script (py_get parsed "clarification_reason" (JStr "Clarification needed"));
     emit (St_warning [Str reason])).

Definition show_similar (raw_input : string) (parsed : json) : M unit :=
  query ← script (py_get parsed "problem_text" (JStr raw_input));
  similar_problems ← recall query;
  when (truthy (JList similar_problems))
    (_ ← emit (St_expander "Similar Problems Found in Memory");
     for_each 0 similar_problems (fun _ sp =>
       pp ← script (py_get sp "parsed_problem" (JDict []));
       problem_text ← script (py_get pp "problem_text" (JStr "Unknown problem"));
       emit (St_write [Lit "- "; Str problem_text]))).

Definition show_context (solution : json) : M unit :=
  _ ← emit (St_expander "Retrieved Knowledge");
  context ← script (py_get solution "retrieved_context" JNull);
  if truthy context then
    items ← script (py_iter context);
    for_each 0 items (fun i ctx =>
      score ← script (py_get ctx "score" (JInt 0));
      _ ← script (check_float_format score);
      _ ← emit (St_markdown [Lit "**Source "; Count (i + 1); Lit "** (Score: ";
                             Fixed3 score; Lit ")"]);
      content ← script (py_get ctx "content" (JStr "No content"));
      _ ← emit (St_text content);
      emit St_divider)
  else emit (St_info [Lit "No relevant context retrieved"]).

Definition show_verification (verification : json) : M unit :=
  is_correct ← script (py_get verification "is_correct" JNull);
  _ ← emit (if truthy is_correct
            then St_success [Lit "Solution Verified"]
            else St_error [Lit "Issues Found"]);
  confidence ← script (py_get verification "confidence" (JInt 0));
  _ ← script (check_float_format confidence);
  _ ← emit (St_metric "Confidence" [Percent confidence; Lit "%"]);
  issues ← script (py_get verification "issues" JNull);
  when (truthy issues)
    (items ← script (py_iter issues);
     for_each 0 items (fun _ issue => emit (St_warning [Str issue]))).

Definition show_explanation (solution explanation : json) : M unit :=
  _ ← emit (St_markdown [Str explanation]);
  sympy_result ← script (py_get solution "sympy_result" (JDict []));
  success ← script (py_get sympy_result "success" JNull);
  when (truthy success)
    (sr ← script (py_item solution "sympy_result");
     sol ← script (py_item sr "solution");
     emit (St_code [Lit "SymPy Solution: "; Str sol])).

(** The dict literals passed to [store_interaction]. *)
Definition feedback_data (raw_input input_type : string) (parsed llm_solution verification : json)
    (feedback : string) (comment : option string) : json :=
  JDict ([("original_input", JStr raw_input);
          ("input_type", JStr input_type);
          ("parsed_problem", parsed);
          ("solution", llm_solution);
          ("verification", verification);
          ("feedback", JStr feedback)]
         ++ match comment with
            | Some c => [("user_comment", JStr c)]
            | None => []
            end).

Definition feedback_section (raw_input input_type : string) (wd : Widgets)
    (parsed solution verification : json) : M unit :=
  _ ← emit (St_write [Lit "### Feedback"]);
  _ ← emit (St_button "Correct" "correct_btn");
  _ ← when (correct_clicked wd)
        (llm_solution ← script (py_get solution "llm_solution" JNull);
         memory_id ← remember (feedback_data raw_input input_type parsed llm_solution
                                  verification "correct" None);
         emit (St_success [Lit "Feedback saved! (ID: "; Prefix 8 memory_id; Lit ")"]));
  _ ← emit (St_button "Incorrect" "incorrect_btn");
  _ ← when (incorrect_clicked wd) (set_form true);
  form ← get_form;
  when form
    (_ ← emit (St_text_input "What's wrong? (optional)");
     _ ← emit (St_button "Submit Feedback" "submit_feedback_btn");
     when (submit_clicked wd)
       (llm_solution ← script (py_get solution "llm_solution" JNull);
        memory_id ← remember (feedback_data raw_input input_type parsed llm_solution
                                 verification "incorrect" (Some (comment_text wd)));
        _ ← emit (St_success [Lit "Feedback saved! (ID: "; Prefix 8 memory_id; Lit ")"]);
        set_form false)).

(** The body of the [try]. *)
Definition pipeline (raw_input input_type : string) (wd : Widgets) : M unit :=
  _ ← emit (header Parse);
  parsed ← call Parse (parse raw_input);
  _ ← show_parsed parsed;
  _ ← show_similar raw_input parsed;
  _ ← emit (header Solve);
  solution ← call Solve (solve parsed);
  _ ← show_context solution;
  _ ← emit (header Verify);
  problem_text ← script (py_get parsed "problem_text" (JStr raw_input));
  llm_solution ← script (py_get solution "llm_solution" (JStr "No solution generated"));
  verification ← call Verify (verify problem_text llm_solution);
  _ ← show_verification verification;
  _ ← emit (header Explain);
  problem_text ← script (py_get parsed "problem_text" (JStr raw_input));
  llm_solution ← script (py_get solution "llm_solution" (JStr "No solution available"));
  explanation ← call Explain (explain problem_text llm_solution);
  _ ← show_explanation solution explanation;
  feedback_section raw_input input_type wd parsed solution verification.

(** [try: ... except Exception as e: st.error(...); st.exception(e)] *)
Definition solve_pressed (raw_input input_type : string) (wd : Widgets) (a : App) : App :=
  match pipeline raw_input input_type wd a with
  | (Return _, a') => a'
  | (Throw f e, a') =>
      snd ((_ ← emit (St_error [Lit "An error occurred: "; ExnText e]);
            emit (St_exception f e)) a')
  end.

(** [if raw_input: st.divider(); if st.button("Solve Problem"): ...] *)
Definition solve_section (raw_input input_type : string) (wd : Widgets) (a : App) : App :=
  if truthy (JStr raw_input) then
    let a1 := snd ((_ ← emit St_divider; emit (St_button "Solve Problem" EmptyString)) a) in
    if solve_clicked wd then solve_pressed raw_input input_type wd a1 else a1
  else a.

End App.

(** ** Notions used by the statements *)

(** [record["parsed_problem"]["problem_text"]] when it is there and is text *)
Definition problem_text_of (record : json) : option string :=
  match record with
  | JDict d =>
      match dict_lookup "parsed_problem" d with
      | Some (JDict p) =>
          match dict_lookup "problem_text" p with
          | Some (JStr t) => Some t
          | _ => None
          end
      | _ => None
      end
  | _ => None
  end.

(** The Jaccard index of the specification: the size of the intersection of
    the two token sets over the size of their union, and 0 when one of the
    sets is empty. *)
Definition jaccard (a b : string) : Q :=
  if decide (tokens a = ∅ ∨ tokens b = ∅) then 0%Q
  else (inject_Z (Z.of_nat (size (tokens a ∩ tokens b)))
        / inject_Z (Z.of_nat (size (tokens a ∪ tokens b))))%Q.

(** The score of a stored record against a query *)
Definition score (query : string) (record : json) : Q :=
  match problem_text_of record with
  | Some t => jaccard query t
  | None => 0%Q
  end.

(** [x] is listed before [y] in [l] *)
Definition before {A : Type} (x y : A) (l : list A) : Prop := [x; y] `sublist_of` l.

(** Greatest key first *)
Definition descending {A : Type} (key : A -> Q) (l : list A) : Prop :=
  StronglySorted (fun x y => (key y <= key x)%Q) l.

(** What the loop of [get_similar_problems] requires of a record to append
    it with the score [s]. *)
Definition accepted (query record : json) (s : Q) : Prop :=
  exists d p stored,
    record = JDict d /\
    dict_get d "parsed_problem" JNull = JDict p /\
    dict_get p "problem_text" (JStr EmptyString) = stored /\
    truthy stored = true /\
    _simple_similarity query stored = Ok s /\
    Qgt_bool s (3 # 10) = true.

(** A record on which the loop cannot raise: a dict whose [problem_text],
    when the loop reads it and it is not falsy, is text. *)
Definition readable (record : json) : Prop :=
  exists d, record = JDict d /\
    forall p, dict_get d "parsed_problem" JNull = JDict p ->
      truthy (dict_get p "problem_text" (JStr EmptyString)) = true ->
      exists t, dict_get p "problem_text" (JStr EmptyString) = JStr t.

(** The malformed records of the specification: [parsed_problem] missing or
    not a dict, or its [problem_text] absent or empty. *)
Definition malformed (record : json) : Prop :=
  exists d, record = JDict d /\
    (dict_lookup "parsed_problem" d = None \/
     (exists v, dict_lookup "parsed_problem" d = Some v /\ is_dict v = false) \/
     (exists p, dict_lookup "parsed_problem" d = Some (JDict p) /\
        (dict_lookup "problem_text" p = None \/
         dict_lookup "problem_text" p = Some (JStr EmptyString)))).

(** ** The score in binary64

    What Python computes for [intersection / union] and for the literal
    [0.3], with the IEEE 754 operations of the standard library; used to
    check the rational model of the score on small sizes. *)

Definition binary64_of_nat (n : nat) : spec_float :=
  binary_normalize 53 1024 (Z.of_nat n) 0 false.

Definition score_binary64 (intersection union : nat) : spec_float :=
  SFdiv 53 1024 (binary64_of_nat intersection) (binary64_of_nat union).

(** The double nearest to 3/10: 0x3FD3333333333333 *)
Definition threshold_binary64 : spec_float := S754_finite false 5404319552844595 (-54).

Definition score_rational (intersection union : nat) : Q :=
  (Z.of_nat intersection # Pos.of_nat union)%Q.

(** The sizes [(intersection, union)] with [0 <= intersection <= union <= n]
    and [1 <= union] *)
Definition sizes (n : nat) : list (nat * nat) :=
  flat_map (fun u => map (fun i => (i, u)) (seq 0 (S u))) (seq 1 n).

(** ** Sample data *)

Definition case_record (id text : string) : json :=
  JDict [("id", JStr id);
         ("timestamp", JStr "2026-01-15T10:30:00");
         ("original_input", JStr text);
         ("input_type", JStr "text");
         ("parsed_problem", JDict [("problem_text", JStr text); ("topic", JStr "algebra")]);
         ("solution", JStr "x = 2");
         ("verification", JDict [("is_correct", JBool true); ("issues", JList [])]);
         ("feedback", JStr "correct");
         ("user_comment", JStr EmptyString)].

Definition quadratic : string := "solve x squared minus 4x plus 4".

Definition sample_store : MemoryStore :=
  mkStore "memory/storage.json"
    (JList [case_record "r1" quadratic;
            case_record "r2" "Solve  x squared";
            case_record "r3" "integrate cosine";
            case_record "r4" quadratic]).

(** A record without [parsed_problem] *)
Definition bare_record : json := JDict [("id", JStr "r0"); ("feedback", JStr "correct")].

(** A clock whose [n]-th identifier is [uuid-n]. *)
#[global] Instance sample_clock : Clock :=
  {| uuid4 := fun n => String.append "uuid-" (MiniJson.string_of_Z (Z.of_nat n));
     now_isoformat := fun n =>
       String.append "2026-01-15T10:30:0" (MiniJson.string_of_Z (Z.of_nat n)) |}.

(** No file yet, everything writable *)
Definition fresh_world : World := mkWorld (mkDisk NoFile true true None) [] 0.

(** A file that can be read and not written *)
Definition readonly_world (text : string) : World :=
  mkWorld (mkDisk (File text) true false None) [] 0.

(** What the "Correct" button passes to [store_interaction] *)
Definition sample_data (feedback : string) : json :=
  JDict [("original_input", JStr quadratic);
         ("input_type", JStr "text");
         ("parsed_problem", JDict [("problem_text", JStr quadratic); ("topic", JStr "algebra")]);
         ("solution", JStr "x = 2");
         ("verification", JDict [("is_correct", JBool true); ("issues", JList [])]);
         ("feedback", JStr feedback)].

(** The record [store_interaction] builds from a data dict *)
Definition record_from (id timestamp : string) (d : list (string * json)) : json :=
  JDict [("id", JStr id);
         ("timestamp", JStr timestamp);
         ("original_input", dict_get d "original_input" JNull);
         ("input_type", dict_get d "input_type" JNull);
         ("parsed_problem", dict_get d "parsed_problem" JNull);
         ("solution", dict_get d "solution" JNull);
         ("verification", dict_get d "verification" JNull);
         ("feedback", dict_get d "feedback" JNull);
         ("user_comment", dict_get d "user_comment" (JStr EmptyString))].





(** The [makedirs] and the [open(path, 'w')] of [save_memories] succeed. *)
Definition can_open (d : Disk) : bool :=
  dir_ok d && file_writable d && match node d with Blocked => false | _ => true end.

(** The device takes the text [s]. *)
Definition takes (s : string) (d : Disk) : bool :=
  match capacity d with
  | Some k => (String.length s <=? k)%nat
  | None => true
  end.

(** Every step of [save_memories] that touches the disk succeeds for the
    text [s]. *)
Definition can_save (s : string) (d : Disk) : bool := can_open d && takes s d.

(** Every step of [save_memories] that touches the disk succeeds, whatever
    the text. *)
Definition can_persist (d : Disk) : bool :=
  can_open d && match capacity d with None => true | Some _ => false end.

(** A file that can be written, on a device that takes [k] characters *)
Definition small_world (text : string) (k : nat) : World :=
  mkWorld (mkDisk (File text) true true (Some k)) [] 0.

(** The values [len] accepts *)
Definition has_len (v : json) : bool :=
  match v with
  | JStr _ | JList _ | JDict _ => true
  | _ => false
  end.




(** From [a] to [a']: the store and the world are the same, the agents
    [stages] were called and the events [evs] were displayed. *)
Definition advanced (a a' : App) (stages : list stage) (evs : list ui_event) : Prop :=
  memory a' = memory a /\
  world a' = world a /\
  invoked a' = invoked a ++ stages /\
  screen a' = screen a ++ evs.


(** A piece of script that calls no agent and leaves the store alone *)
Definition quiet {A : Type} (m : M A) : Prop :=
  forall a o a', m a = (o, a') ->
    (exists evs, advanced a a' [] evs) /\ forall s e, o <> Throw (InStage s) e.

(** A piece of script that calls no agent *)
Definition offstage {A : Type} (m : M A) : Prop :=
  forall a o a', m a = (o, a') ->
    invoked a' = invoked a /\ forall s e, o <> Throw (InStage s) e.

(** Agents that answer *)
Definition answering_agents : Agents :=
  {| parse := fun raw =>
       Ok (JDict [("problem_text", JStr raw); ("topic", JStr "algebra")]);
     solve := fun parsed =>
       Ok (JDict [("llm_solution", JStr "x = 2"); ("retrieved_context", JList [])]);
     verify := fun text sol =>
       Ok (JDict [("is_correct", JBool true); ("confidence", JInt 1); ("issues", JList [])]);
     explain := fun text sol => Ok (JStr "Factor the square.") |}.

(** The same agents with a verifier that raises *)
Definition failing_verifier : Agents :=
  {| parse := @parse answering_agents;
     solve := @solve answering_agents;
     verify := fun text sol => Raise (mkExn ValueError "empty solution");
     explain := @explain answering_agents |}.

Definition sample_app : App := mkApp sample_store fresh_world [] false [].

Definition all_clicked : Widgets := mkWidgets true true true true "wrong sign".

(** Both feedback buttons pressed, no comment typed *)
Definition both_feedback : Widgets := mkWidgets true true true true EmptyString.

(** ** The statements of the specification that the code does not meet *)

(** "never returns more than [limit] records", for every [limit] *)
Definition at_most_limit (self : MemoryStore) (query : string) (limit : Z) : Prop :=
  forall res, get_similar_problems self (JStr query) limit = Ok res ->
    (Z.of_nat (List.length res) <= limit)%Z.

(** "the most recently inserted record wins the tie" *)
Definition newest_wins_ties (self : MemoryStore) (query : string) (limit : Z) : Prop :=
  forall l res i j older newer,
    memories self = JList l ->
    l !! i = Some older -> l !! j = Some newer -> (i < j)%nat ->
    (score query older == score query newer)%Q ->
    get_similar_problems self (JStr query) limit = Ok res ->
    older ∈ res -> newer ∈ res ->
    before newer older res.

(** "persistence failure (storage unwritable) is reported to the caller as a
    failure" *)
Definition append_reports_failure `{lib : JsonLib} `{clock : Clock}
    (self : MemoryStore) (data : json) (w : World) : Prop :=
  forall r self' w',
    store_interaction self data w = (r, self', w') ->
    can_open (disk w) = false ->
    exists e, r = Raise e.


(** "any backing file that parses as JSON is returned unchanged" *)
Definition load_returns_parsed `{lib : JsonLib} (self : MemoryStore) (w : World) : Prop :=
  forall text v,
    node (disk w) = File text -> json_load text = Ok v ->
    fst (load_memories self w) = v.

(** ** Further notions on the store *)

(** [isinstance(v, list)] *)
Definition is_list (v : json) : bool :=
  match v with
  | JList _ => true
  | _ => false
  end.

(** The score as a function of the two sets of words *)
Definition score_of_words (words1 words2 : gset string) : Q :=
  if decide (words1 = ∅ \/ words2 = ∅) then 0%Q
  else (Z.of_nat (size (words1 ∩ words2)) # Pos.of_nat (size (words1 ∪ words2)))%Q.

(** ** app.py: the sidebar *)

(** One constructor per Streamlit call of the sidebar blocks below *)
Inductive side_event : Type :=
| Sb_header (text : string)
| Sb_metric (label : string) (value : nat)
| Sb_caption (text : list piece)
| Sb_button (label key : string)
| Sb_success (text : string)
| Sb_error (text : list piece).

Section Sidebar.
Context `{lib : JsonLib}.

(** The "System Stats" block: the count is the [len] of a fresh
    [load_memories()], not of [components["memory"].memories]. *)
Definition sidebar_stats (self : MemoryStore) (w : World) : list side_event * World :=
  let '(data, w') := load_memories self w in
  match py_len data with
  | Ok current_count =>
      ([Sb_header "System Stats"; Sb_metric "Total Problems Solved" current_count], w')
  | Raise e =>
      ([Sb_header "System Stats"; Sb_metric "Total Problems Solved" 0;
        Sb_caption [Lit "Error loading memory: "; ExnText e]], w')
  end.

(** The "Reset Memory" button.  The value returned by [clear_memories] is
    not looked at; [st.rerun()] ends the run (its signal is not an
    [Exception], so the [except] does not see it): the last component says
    whether it was called. *)
Definition sidebar_reset (clicked : bool) (self : MemoryStore) (w : World)
  : list side_event * MemoryStore * World * bool :=
  if clicked then
    let '(_, self', w') := clear_memories self w in
    ([Sb_button "Reset Memory" "reset_memory_btn";
      Sb_success "Memory cleared successfully!"], self', w', true)
  else ([Sb_button "Reset Memory" "reset_memory_btn"], self, w, false).

End Sidebar.

(** ** Further notions on the pipeline *)

Definition all_stages : list stage := [Parse; Solve; Verify; Explain].

(** A piece of script that leaves the store and the world alone *)
Definition readonly {A : Type} (m : M A) : Prop :=
  forall a o a', m a = (o, a') -> memory a' = memory a /\ world a' = world a.

(** A topic that [show_parsed] can display: nothing, or text *)
Definition displayable_topic (d : list (string * json)) : Prop :=
  truthy (dict_get d "topic" (JStr "algebra")) = false \/
  exists s, dict_get d "topic" (JStr "algebra") = JStr s.

(** A store with a record whose [problem_text] is a number *)
Definition odd_store : MemoryStore :=
  mkStore "memory/storage.json"
    (JList [JDict [("parsed_problem", JDict [("problem_text", JInt 7)])]]).

Definition odd_app : App := mkApp odd_store fresh_world [] false [].

(** Only the solve button pressed *)
Definition solve_only : Widgets := mkWidgets true false false false EmptyString.

(** ** app.py: the input section *)

(** The three values of the "Choose Input Mode:" radio, and the two of the
    radio of the Audio mode *)
Inductive input_mode : Type := TextMode | ImageMode | AudioMode.

Inductive audio_method : Type := RecordAudio | UploadAudioFile.

(** The keys of [st.session_state] that the section uses.  The script sets
    the first three to [None], [False], [None] when they are not there;
    [last_input_mode] is not there ([None]) until the Audio mode sets it. *)
Record Session : Type := mkSession {
  transcribed_text : option string;
  audio_processed : bool;
  current_audio_file : option string;
  last_input_mode : option input_mode
}.

(** The components behind the section, and whether the recorder widget
    could be imported. *)
Class Media : Type := {
  AUDIO_RECORDER_AVAILABLE : bool;
  image_open : string -> result string;                    (* Image.open(uploaded_file) *)
  process_image : string -> result (string * spec_float);  (* components["ocr"] *)
  process_audio : string -> result string                  (* components["audio"] *)
}.

(** What the widgets of the section return in one run. *)
Record Inputs : Type := mkInputs {
  input_mode_chosen : input_mode;
  text_typed : string;                    (* the text area that the run shows *)
  uploaded_file : option string;          (* the image uploader *)
  audio_option : audio_method;
  audio_bytes : option string;            (* audio_recorder(...) *)
  audio_file : option (string * string);  (* the audio uploader: name, content *)
  clear_clicked : bool                    (* "Clear & Upload New" *)
}.

(** One constructor per Streamlit call of the section. *)
Inductive input_event : Type :=
| In_title
| In_markdown
| In_radio (label : string)
| In_text_area (label : string) (value : option string)
| In_file_uploader (label : string)
| In_image
| In_metric (label : string) (confidence : spec_float)   (* {confidence*100:.1f}% *)
| In_warning (text : string)
| In_info (text : string)
| In_write (text : string)
| In_audio_recorder
| In_audio
| In_success (text : string)
| In_error (text : list piece)
| In_exception (e : exn)
| In_button (label : string).

(** How the section ends: the script goes on with [raw_input] and
    [input_type], [st.rerun()] ends the run, or an exception that nothing
    catches does. *)
Inductive flow : Type :=
| Continues (raw_input input_type : option string)
| Reruns
| Crashes (e : exn).

Record InputRun : Type := mkInputRun {
  ended : flow;
  session : Session;
  shown : list input_event;
  transcribed : list string       (* the arguments of the calls of [process_audio] *)
}.

(** The literal [0.7] *)
Definition seven_tenths : spec_float := S754_finite false 6305039478318694 (-53).

(** [if s:] on a value that is [None] or a [str] (or [bytes]) *)
Definition nonempty (s : option string) : bool :=
  match s with
  | Some t => negb (String.eqb t EmptyString)
  | None => false
  end.

Definition cleared (s : Session) : Session :=
  mkSession None false None (last_input_mode s).

Section Input.
Context `{media : Media}.

Definition heading : list input_event :=
  [In_title; In_markdown; In_radio "Choose Input Mode:"].

Definition text_input (wi : Inputs) (s : Session) : InputRun :=
  mkInputRun (Continues (Some (text_typed wi)) (Some "text")) s
    [In_text_area "Enter your math problem:" None] [].

Definition image_input (wi : Inputs) (s : Session) : InputRun :=
  let uploader := In_file_uploader "Upload image of math problem" in
  match uploaded_file wi with
  | Some file =>
      match image_open file with
      | Ok image =>
          match process_image image with
          | Ok (text, confidence) =>
              mkInputRun (Continues (Some (text_typed wi)) (Some "image")) s
                ([uploader; In_image; In_metric "OCR Confidence" confidence]
                 ++ (if SFltb confidence seven_tenths
                     then [In_warning "Low confidence! Please verify extracted text."]
                     else [])
                 ++ [In_text_area "Extracted Text (editable):" (Some text)]) []
          | Raise e => mkInputRun (Crashes e) s [uploader; In_image] []
          end
      | Raise e => mkInputRun (Crashes e) s [uploader] []
      end
  | None => mkInputRun (Continues None None) s [uploader] []
  end.

(** "Reset audio state when switching modes" *)
Definition enter_audio (s : Session) : Session :=
  let s1 := match last_input_mode s with
            | Some AudioMode => s
            | _ => cleared s
            end in
  mkSession (transcribed_text s1) (audio_processed s1) (current_audio_file s1)
            (Some AudioMode).

(** The widgets of the Audio mode: what is shown, and [audio_data] with
    [audio_file_name] when the run has a recording or a file. *)
Definition audio_source (wi : Inputs) : list input_event * option (string * string) :=
  let notice :=
    if AUDIO_RECORDER_AVAILABLE
    then [In_write "**Choose audio input method:**"; In_radio "Select option:"]
    else [In_warning "**Audio recording is not available in this deployment.**";
          In_info "Please use the **Upload Audio File** option below.";
          In_write "**Upload your audio file:**"] in
  let option := if AUDIO_RECORDER_AVAILABLE then audio_option wi else UploadAudioFile in
  match option with
  | RecordAudio =>
      if AUDIO_RECORDER_AVAILABLE then
        let recorder :=
          [In_info "**Click the button below to start recording, click again to stop**";
           In_audio_recorder] in
        match audio_bytes wi with
        | Some bytes =>
            if negb (String.eqb bytes EmptyString) then
              (notice ++ recorder ++ [In_audio; In_success "Audio recorded successfully!"],
               Some (bytes, "recorded_audio.wav"))
            else (notice ++ recorder, None)
        | None => (notice ++ recorder, None)
        end
      else (notice, None)
  | UploadAudioFile =>
      match audio_file wi with
      | Some (name, content) =>
          (notice ++ [In_file_uploader "Upload audio recording"; In_audio;
                      In_success "Audio file uploaded!"], Some (content, name))
      | None => (notice ++ [In_file_uploader "Upload audio recording"], None)
      end
  end.

(** "Process audio if it's new" *)
Definition transcribe (audio : option (string * string)) (s : Session)
  : Session * list input_event * list string :=
  match audio with
  | Some (audio_data, audio_file_name) =>
      if negb (String.eqb audio_file_name EmptyString) then
        if negb (bool_decide (current_audio_file s = Some audio_file_name))
           || negb (audio_processed s)
        then
          match process_audio audio_data with
          | Ok text =>
              (mkSession (Some text) true (Some audio_file_name) (last_input_mode s),
               [In_success "Transcription complete!"], [audio_data])
          | Raise e =>
              (mkSession None (audio_processed s) (Some audio_file_name) (last_input_mode s),
               [In_error [Lit "Transcription failed: "; ExnText e]; In_exception e],
               [audio_data])
          end
        else (s, [], [])
      else (s, [], [])
  | None => (s, [], [])
  end.

(** "Show editable text area if transcription exists" *)
Definition edit_transcription (wi : Inputs) (s : Session) : flow * Session * list input_event :=
  if nonempty (transcribed_text s) then
    let area := In_text_area "Transcribed Text (editable):" (transcribed_text s) in
    let button := In_button "Clear & Upload New" in
    if clear_clicked wi then (Reruns, cleared s, [area; button])
    else (Continues (Some (text_typed wi)) (Some "audio"),
          mkSession (Some (text_typed wi)) (audio_processed s) (current_audio_file s)
                    (last_input_mode s),
          [area; button])
  else (Continues None None, s, []).

Definition audio_input (wi : Inputs) (s : Session) : InputRun :=
  let s1 := enter_audio s in
  let '(widgets, audio) := audio_source wi in
  let '(s2, messages, calls) := transcribe audio s1 in
  let '(end_, s3, editor) := edit_transcription wi s2 in
  mkInputRun end_ s3 (widgets ++ messages ++ editor) calls.

(** Lines 130-296 of the script. *)
Definition input_section (wi : Inputs) (s : Session) : InputRun :=
  let r := match input_mode_chosen wi with
           | TextMode => text_input wi s
           | ImageMode => image_input wi s
           | AudioMode => audio_input wi s
           end in
  mkInputRun (ended r) (session r) (heading ++ shown r) (transcribed r).

(** The session after a sequence of runs, each with its own widget values *)
Definition input_runs (runs : list Inputs) (s : Session) : Session :=
  fold_left (fun s wi => session (input_section wi s)) runs s.

End Input.

(** The value of [input_type] that goes with a mode *)
Definition type_of_mode (m : input_mode) : string :=
  match m with
  | TextMode => "text"
  | ImageMode => "image"
  | AudioMode => "audio"
  end.

(** A session in which no run has been made *)
Definition new_session : Session := mkSession None false None None.


(** The sessions that runs of the section lead to *)
Definition reachable `{media : Media} (s : Session) : Prop :=
  exists runs, s = input_runs runs new_session.

(** Components for the examples: every image opens and is read as its own
    content with confidence 0.5, every audio but "noise" is heard as its own
    content. *)
Definition sample_media : Media := {|
  AUDIO_RECORDER_AVAILABLE := true;
  image_open := Ok;
  process_image := fun image => Ok (image, S754_finite false 4503599627370496 (-53));
  process_audio := fun audio =>
    if String.eqb audio "noise" then Raise (mkExn ValueError "no speech") else Ok audio
|}.

Definition record_run (bytes typed : string) : Inputs :=
  mkInputs AudioMode typed None RecordAudio (Some bytes) None false.

Definition upload_run (name content typed : string) : Inputs :=
  mkInputs AudioMode typed None UploadAudioFile None (Some (name, content)) false.

Definition text_run (typed : string) : Inputs :=
  mkInputs TextMode typed None RecordAudio None None false.
(** A transcription is kept only with the flag and the name of its file. *)
Definition settled (s : Session) : Prop :=
  transcribed_text s <> None ->
  audio_processed s = true /\ current_audio_file s <> None.

(** ** The files and processes around the scripts *)

Inductive entry : Type :=
| Dir
| Reg (content : string).

(** The paths that exist, and whether new entries can be made. *)
Record Files : Type := mkFiles {
  tree : gmap string entry;
  can_write : bool
}.

(** [os.path.exists(p)] *)
Definition os_path_exists (fs : Files) (p : string) : bool :=
  match tree fs !! p with
  | Some _ => true
  | None => false
  end.

(** The prefixes of a path that end before a "/", then the path itself:
    [seen] holds the characters already read. *)
Fixpoint ancestors_from (seen rest : string) : list string :=
  match rest with
  | EmptyString => [seen]
  | String c r =>
      if Ascii.eqb c "/"
      then (if String.eqb seen EmptyString then [] else [seen])
           ++ ancestors_from (seen ++ "/")%string r
      else ancestors_from (seen ++ String c EmptyString)%string r
  end.

(** [os.makedirs(p, exist_ok=True)]: the directories on the way are made
    one after the other; a regular file in the way, or a directory that
    cannot be made, raises, and what has been made stays. *)
Fixpoint make_each (ps : list string) (fs : Files) : option exn * Files :=
  match ps with
  | [] => (None, fs)
  | p :: rest =>
      match tree fs !! p with
      | Some Dir => make_each rest fs
      | Some (Reg _) => (Some (mkExn OSError p), fs)
      | None =>
          if can_write fs
          then make_each rest (mkFiles (<[p := Dir]> (tree fs)) (can_write fs))
          else (Some (mkExn OSError p), fs)
      end
  end.

Definition os_makedirs (p : string) (fs : Files) : option exn * Files :=
  make_each (ancestors_from EmptyString p) fs.

(** How the server started by [subprocess.run(["streamlit", "run",
    "app.py"], check=True)] ends. *)
Inductive launch : Type :=
| Served
| Interrupted                (* KeyboardInterrupt *)
| Failed (e : exn).          (* any [Exception] *)

(** What the scripts call outside of the repository. *)
Class Platform : Type := {
  import_module : string -> result unit;                          (* __import__(name) *)
  (* a command: its return code, output and error output, and the files it
     leaves; [Raise] when it cannot be started *)
  run_process : string -> Files -> result (Z * string * string * Files);
  streamlit_run : launch;
  (* RAGPipeline().build_vectorstore(): the exception if it raises, and the
     files it leaves *)
  rag_build_vectorstore : Files -> option exn * Files
}.

(** ** app.py: [auto_setup] *)

Inductive setup_event : Type :=
| Su_info (text : string)
| Su_progress (percent : nat)
| Su_status (text : string)
| Su_success (text : string)
| Su_warning (text : string)
| Su_error (text : list piece)
| Su_exception (e : exn).

(** How [auto_setup] ends: it returns, [st.rerun()] or [st.stop()] ends the
    run, or an exception leaves it. *)
Inductive setup_flow : Type :=
| Proceeds
| SetupReruns
| SetupStops
| SetupCrashes (e : exn).

Section AutoSetup.
Context `{platform : Platform}.

(** The body of the [try]: the events, the files, and the exception if one
    was raised. *)
Definition first_time_setup (fs : Files) : list setup_event * Files * option exn :=
  let begin := [Su_status "Creating knowledge base..."; Su_progress 25] in
  let build (shown : list setup_event) (fs1 : Files) :=
    let shown1 := shown ++ [Su_progress 50; Su_status "Building vector store...";
                            Su_progress 75] in
    match rag_build_vectorstore fs1 with
    | (None, fs2) =>
        (shown1 ++ [Su_progress 100; Su_status "Setup complete!";
                    Su_success "Vector store built successfully!";
                    Su_info "Reloading application..."], fs2, None)
    | (Some e, fs2) => (shown1, fs2, Some e)
    end in
  if os_path_exists fs "create_knowledge_base.py" then
    match run_process "python create_knowledge_base.py" fs with
    | Ok (returncode, _, _, fs1) =>
        build (begin ++ [if (returncode =? 0)%Z
                         then Su_success "Knowledge base created!"
                         else Su_warning "Knowledge base creation skipped"]) fs1
    | Raise e => (begin, fs, Some e)
    end
  else build begin fs.

Definition auto_setup (fs : Files) : setup_flow * list setup_event * Files :=
  match os_makedirs "memory" fs with
  | (Some e, fs1) => (SetupCrashes e, [], fs1)
  | (None, fs1) =>
  match os_makedirs "rag/knowledge_base" fs1 with
  | (Some e, fs2) => (SetupCrashes e, [], fs2)
  | (None, fs2) =>
  match os_makedirs "rag/vectorstore" fs2 with
  | (Some e, fs3) => (SetupCrashes e, [], fs3)
  | (None, fs3) =>
      if negb (os_path_exists fs3 "rag/vectorstore/index.faiss") then
        let notice :=
          [Su_info "First time setup... Building knowledge base and vector store...";
           Su_progress 0] in
        match first_time_setup fs3 with
        | (shown, fs4, None) => (SetupReruns, notice ++ shown, fs4)
        | (shown, fs4, Some e) =>
            (SetupStops,
             notice ++ shown ++
             [Su_error [Lit "Setup failed: "; ExnText e]; Su_exception e;
              Su_warning "Please check your configuration and try again."], fs4)
        end
      else (Proceeds, [], fs3)
  end end end.

End AutoSetup.

(** ** setup_and_run.py *)

(** The emoji that begins a printed line *)
Inductive mark : Type :=
| Plain | Rocket | Play | Tick | Cross | Warn | Note | Globe | Memo.

(** What the script prints; the blank lines around the texts are left
    out. *)
Inductive line : Type :=
| Rule                                 (* "=" * 60 *)
| Banner                               (* the row of abacus signs *)
| Line (m : mark) (text : string)
| Prompt (text : string).              (* the prompt of [input] *)

Record Host : Type := mkHost {
  files : Files;
  stdin : list string;       (* the lines that [input] will read *)
  stdout : list line;
  launched : bool            (* the start of the server has been asked for *)
}.

(** How a piece of the script ends: it returns, [sys.exit] or an exception
    that nothing catches ends the script. *)
Inductive ending (A : Type) : Type :=
| Done (a : A)
| Exit (status : Z)
| Crash (e : exn).

Arguments Done {A} a.
Arguments Exit {A} status.
Arguments Crash {A} e.

Definition Script (A : Type) : Type := Host -> ending A * Host.

#[global] Instance Script_ret : MRet Script := fun A x h => (Done x, h).
#[global] Instance Script_bind : MBind Script := fun A B k m h =>
  match m h with
  | (Done x, h') => k x h'
  | (Exit status, h') => (Exit status, h')
  | (Crash e, h') => (Crash e, h')
  end.

Definition print (l : line) : Script unit :=
  fun h => (Done tt, mkHost (files h) (stdin h) (stdout h ++ [l]) (launched h)).

Definition eof_error : exn := mkExn (OtherError "EOFError") "EOF when reading a line".

(** [input(prompt)] *)
Definition input (prompt : string) : Script string :=
  fun h =>
    match stdin h with
    | l :: rest => (Done l, mkHost (files h) rest (stdout h ++ [Prompt prompt]) (launched h))
    | [] => (Crash eof_error, mkHost (files h) [] (stdout h ++ [Prompt prompt]) (launched h))
    end.

Definition sys_exit {A : Type} (status : Z) : Script A := fun h => (Exit status, h).

(** An exception that nothing catches *)
Definition uncaught {A : Type} (e : exn) : Script A := fun h => (Crash e, h).

Definition exists_ (p : string) : Script bool :=
  fun h => (Done (os_path_exists (files h) p), h).

Definition set_files (fs : Files) (h : Host) : Host :=
  mkHost fs (stdin h) (stdout h) (launched h).

(** [s.replace(old, new)] for one-character [old] and [new] *)
Fixpoint replace_char (old new : ascii) (s : string) : string :=
  match s with
  | EmptyString => EmptyString
  | String c r => String (if Ascii.eqb c old then new else c) (replace_char old new r)
  end.

(** [s.strip()] *)
Fixpoint lstrip (s : string) : string :=
  match s with
  | String c r => if isspace c then lstrip r else s
  | EmptyString => EmptyString
  end.

Fixpoint rstrip (s : string) : string :=
  match s with
  | String c r =>
      match rstrip r with
      | EmptyString => if isspace c then EmptyString else String c EmptyString
      | r' => String c r'
      end
  | EmptyString => EmptyString
  end.

Definition strip (s : string) : string := rstrip (lstrip s).

Definition line_feed : string := String (ascii_of_nat 10) EmptyString.

(** [except ImportError]: the class or its subclass *)
Definition is_import_error (e : exn) : bool :=
  match exc_type e with
  | OtherError name => String.eqb name "ImportError" || String.eqb name "ModuleNotFoundError"
  | _ => false
  end.

Section Setup.
Context `{platform : Platform}.

Definition print_step (message : string) : Script unit :=
  _ ← print Rule;
  _ ← print (Line Rocket message);
  print Rule.

(** [subprocess.run(command, shell=True, ...)]: the return code, the output
    and the error output *)
Definition subprocess_run (command : string) : Script (Z * string * string) :=
  fun h =>
    match run_process command (files h) with
    | Ok (returncode, out, err, fs) => (Done (returncode, out, err), set_files fs h)
    | Raise e => (Crash e, h)
    end.

(** [check=True]: a return code other than 0 raises [CalledProcessError],
    the one exception that is caught. *)
Definition run_command (command description : string) : Script bool :=
  _ ← print (Line Play (description ++ "...")%string);
  result ← subprocess_run command;
  let '(returncode, out, err) := result in
  if (returncode =? 0)%Z then
    _ ← print (Line Plain out);
    _ ← print (Line Tick (description ++ " completed successfully!")%string);
    mret true
  else
    _ ← print (Line Cross ("Error in " ++ description ++ ":")%string);
    _ ← print (Line Plain err);
    mret false.

Definition required_packages : list string :=
  ["streamlit"; "langchain"; "openai"; "whisper"; "easyocr"; "faiss-cpu"; "sympy"].

(** The loop of [check_dependencies]: [missing] is the list so far. *)
Fixpoint check_each (packages missing : list string) : Script (list string) :=
  match packages with
  | [] => mret missing
  | package :: rest =>
      match import_module (replace_char "-" "_" package) with
      | Ok _ =>
          _ ← print (Line Tick package);
          check_each rest missing
      | Raise e =>
          if is_import_error e then
            _ ← print (Line Cross (package ++ " not found")%string);
            check_each rest (missing ++ [package])
          else uncaught e
      end
  end.

Definition check_dependencies : Script bool :=
  _ ← print_step "Checking Dependencies";
  missing ← check_each required_packages [];
  match missing with
  | _ :: _ =>
      _ ← print (Line Warn ("Missing packages: " ++ String.concat ", " missing)%string);
      _ ← print (Line Plain "Please install them with: pip install -r requirements.txt");
      mret false
  | [] => mret true
  end.

Definition directories : list string :=
  ["rag/knowledge_base"; "rag/vectorstore"; "memory"; "agents"; "multimodal"; "utils"].

Definition make_directory (directory : string) : Script unit :=
  fun h =>
    match os_makedirs directory (files h) with
    | (None, fs) => (Done tt, set_files fs h)
    | (Some e, fs) => (Crash e, set_files fs h)
    end.

Fixpoint create_each (ds : list string) : Script unit :=
  match ds with
  | [] => mret tt
  | directory :: rest =>
      _ ← make_directory directory;
      _ ← print (Line Tick ("Created: " ++ directory)%string);
      create_each rest
  end.

Definition create_directories : Script bool :=
  _ ← print_step "Creating Required Directories";
  _ ← create_each directories;
  mret true.

Definition setup_knowledge_base : Script bool :=
  _ ← print_step "Setting Up Knowledge Base";
  found ← exists_ "create_knowledge_base.py";
  if (found : bool) then run_command "python create_knowledge_base.py" "Knowledge base creation"
  else
    _ ← print (Line Warn "create_knowledge_base.py not found, skipping...");
    mret true.

(** The second half of [build_vectorstore] *)
Definition run_vectorstore_script : Script bool :=
  found ← exists_ "rag/vectorstore/vectorstore.py";
  if (found : bool) then run_command "python rag/vectorstore/vectorstore.py" "Vector store creation"
  else
    _ ← print (Line Warn "vectorstore.py not found, skipping...");
    mret true.

Definition build_vectorstore : Script bool :=
  _ ← print_step "Building Vector Store";
  found ← exists_ "rag/vectorstore/index.faiss";
  if (found : bool) then
    _ ← print (Line Note "Vector store already exists");
    answer ← input "Do you want to rebuild it? (y/N): ";
    if negb (String.eqb (lower answer) "y") then
      _ ← print (Line Tick "Using existing vector store");
      mret true
    else run_vectorstore_script
  else run_vectorstore_script.

(** [with open(".env", "w") as f: f.write(text)] *)
Definition write_env (text : string) : Script unit :=
  fun h =>
    match tree (files h) !! ".env" with
    | Some Dir => (Crash (mkExn OSError ".env"), h)
    | Some (Reg _) =>
        (Done tt, set_files (mkFiles (<[".env" := Reg text]> (tree (files h)))
                                     (can_write (files h))) h)
    | None =>
        if can_write (files h)
        then (Done tt, set_files (mkFiles (<[".env" := Reg text]> (tree (files h)))
                                          (can_write (files h))) h)
        else (Crash (mkExn OSError ".env"), h)
    end.

Definition check_env_file : Script bool :=
  _ ← print_step "Checking Environment Variables";
  found ← exists_ ".env";
  if negb (found : bool) then
    _ ← print (Line Warn ".env file not found!");
    _ ← print (Line Plain "Please create a .env file with your API keys:");
    _ ← print (Line Plain "OPENAI_API_KEY=your_key_here");
    create_env ← input "Create .env file now? (y/N): ";
    if String.eqb (lower create_env) "y" then
      api_key ← input "Enter your OpenAI API key: ";
      _ ← write_env ("OPENAI_API_KEY=" ++ strip api_key ++ line_feed)%string;
      _ ← print (Line Tick ".env file created!");
      mret true
    else mret false
  else
    _ ← print (Line Tick ".env file exists");
    mret true.

(** [subprocess.run(["streamlit", "run", "app.py"], check=True)] *)
Definition subprocess_streamlit : Script launch :=
  fun h => (Done streamlit_run, mkHost (files h) (stdin h) (stdout h) true).

Definition start_streamlit : Script unit :=
  _ ← print_step "Starting Streamlit App";
  _ ← print (Line Globe "Launching Math Mentor...");
  _ ← print (Line Memo "The app will open in your browser");
  _ ← print (Line Warn "Press Ctrl+C to stop the server");
  ended ← subprocess_streamlit;
  match ended with
  | Served => mret tt
  | Interrupted => print (Line Tick "Math Mentor stopped successfully!")
  | Failed e => print (Line Cross ("Error starting Streamlit: " ++ exc_msg e)%string)
  end.

(** Steps 4 to 6 of [main]: what the two setup functions return is not
    looked at. *)
Definition finish_setup : Script unit :=
  _ ← setup_knowledge_base;
  _ ← build_vectorstore;
  _ ← print_step "Setup Complete!";
  _ ← print (Line Tick "All setup steps completed successfully!");
  start ← input "Start Math Mentor now? (Y/n): ";
  if negb (String.eqb (lower start) "n") then start_streamlit
  else print (Line Tick "Setup complete! Run 'streamlit run app.py' to start the app.").

Definition main : Script unit :=
  _ ← print Banner;
  _ ← print (Line Plain "   MATH MENTOR - Setup & Launch Script");
  _ ← print Banner;
  deps ← check_dependencies;
  if negb (deps : bool) then
    _ ← print (Line Warn "Please install dependencies first: pip install -r requirements.txt");
    sys_exit 1
  else
  dirs ← create_directories;
  if negb (dirs : bool) then
    _ ← print (Line Cross "Failed to create directories");
    sys_exit 1
  else
  env ← check_env_file;
  if negb (env : bool) then
    _ ← print (Line Warn "Please set up your .env file before continuing");
    sys_exit 1
  else finish_setup.

End Setup.

(** ** Notions used by the statements on the scripts *)

(** The module names that [check_dependencies] imports *)
Definition required_modules : list string :=
  ["streamlit"; "langchain"; "openai"; "whisper"; "easyocr"; "faiss_cpu"; "sympy"].

(** A piece of the script that never calls [sys.exit] *)
Definition never_exits {A : Type} (m : Script A) : Prop :=
  forall h status h', m h <> (Exit status, h').

(** A piece of the script that leaves the part [f] of the host as it is *)
Definition preserves {A X : Type} (f : Host -> X) (m : Script A) : Prop :=
  forall h o h', m h = (o, h') -> f h' = f h.

(** A piece of the script that never calls [sys.exit] and does not start
    the server *)
Definition calm {A : Type} (m : Script A) : Prop :=
  forall h o h', m h = (o, h') -> launched h' = launched h /\ forall status, o <> Exit status.

(** The part of the host that printing does not touch *)
Definition surroundings (h : Host) : Files * list string * bool :=
  (files h, stdin h, launched h).

Definition index_path : string := "rag/vectorstore/index.faiss".

(** A platform for the examples: [faiss_cpu] is not a module, the
    knowledge-base script fails, the other commands succeed and leave the
    files alone; the server is stopped from the keyboard. *)
Definition sample_platform : Platform := {|
  import_module := fun name =>
    if String.eqb name "faiss_cpu"
    then Raise (mkExn (OtherError "ModuleNotFoundError") "No module named 'faiss_cpu'")
    else Ok tt;
  run_process := fun command fs =>
    if String.eqb command "python create_knowledge_base.py"
    then Ok (1%Z, EmptyString, "no documents", fs)
    else Ok (0%Z, "done", EmptyString, fs);
  streamlit_run := Interrupted;
  rag_build_vectorstore := fun fs =>
    (None,
     mkFiles (<["rag/vectorstore/index.faiss" := Reg "index"]> (tree fs)) (can_write fs))
|}.

(** The same platform with every module installed *)
Definition complete_platform : Platform := {|
  import_module := fun _ => Ok tt;
  run_process := run_process (Platform := sample_platform);
  streamlit_run := Interrupted;
  rag_build_vectorstore := rag_build_vectorstore (Platform := sample_platform)
|}.

Definition empty_files : Files := mkFiles ∅ true.

Definition project_files : Files :=
  mkFiles (<[".env" := Reg "OPENAI_API_KEY=k"]>
           (<["create_knowledge_base.py" := Reg "script"]> ∅)) true.

Definition fresh_host (fs : Files) (answers : list string) : Host :=
  mkHost fs answers [] false.

(** * Properties *)

(** ** The sort *)

Section SortDesc.
Context {A : Type} (key : A -> Q).

Lemma before_lookup (l : list A) (i j : nat) (x y : A) :
  l !! i = Some x -> l !! j = Some y -> (i < j)%nat -> before x y l.
Proof.
  unfold before. revert i j. induction l as [|a l IH]; intros i j Hi Hj Hlt.
  - destruct i; discriminate.
  - destruct i as [|i]; simpl in Hi.
    + injection Hi as ->. destruct j as [|j]; [lia|]. simpl in Hj.
      apply sublist_skip. apply sublist_cons_l.
      apply list_elem_of_lookup_2 in Hj. apply list_elem_of_split in Hj as (l1 & l2 & ->).
      exists l1, l2. split; [done|]. apply sublist_nil_l.
    + destruct j as [|j]; [lia|]. simpl in Hj.
      apply sublist_cons. apply (IH i j); [done|done|lia].
Qed.

Lemma lookup_before (l : list A) (x y : A) :
  before x y l -> exists i j, (i < j)%nat /\ l !! i = Some x /\ l !! j = Some y.
Proof.
  unfold before. induction l as [|a l IH]; intros Hs.
  - apply sublist_nil_r in Hs. discriminate.
  - apply sublist_cons_r in Hs as [Hs|(l' & Heq & Hs)].
    + destruct (IH Hs) as (i & j & Hlt & Hi & Hj).
      exists (S i), (S j). repeat split; [lia|done|done].
    + injection Heq as <- <-.
      apply sublist_cons_l in Hs as (k1 & k2 & -> & _).
      exists 0%nat, (S (List.length k1)). repeat split; [lia|].
      simpl. rewrite lookup_app_r by lia. by rewrite Nat.sub_diag.
Qed.

Lemma elem_of_insert_desc (a x : A) (l : list A) :
  x ∈ insert_desc key a l <-> x = a \/ x ∈ l.
Proof.
  induction l as [|b l IH]; simpl.
  - rewrite list_elem_of_singleton. split; [auto|]. intros [?|Hx]; [done|]. inversion Hx.
  - destruct (Qle_bool (key b) (key a)).
    + by rewrite elem_of_cons.
    + rewrite !elem_of_cons, IH. tauto.
Qed.

Lemma elem_of_sort_desc (x : A) (l : list A) : x ∈ sort_desc key l <-> x ∈ l.
Proof.
  induction l as [|a l IH]; simpl; [done|].
  rewrite elem_of_insert_desc, elem_of_cons, IH. tauto.
Qed.

Lemma insert_desc_permutation (a : A) (l : list A) : insert_desc key a l ≡ₚ a :: l.
Proof.
  induction l as [|b l IH]; simpl; [done|].
  destruct (Qle_bool (key b) (key a)); [done|].
  rewrite IH. apply Permutation_swap.
Qed.

(** The sort keeps the elements, with their multiplicity. *)
Lemma sort_desc_permutation (l : list A) : sort_desc key l ≡ₚ l.
Proof.
  induction l as [|a l IH]; simpl; [done|].
  by rewrite insert_desc_permutation, IH.
Qed.

Lemma insert_desc_descending (a : A) (l : list A) :
  descending key l -> descending key (insert_desc key a l).
Proof.
  unfold descending. induction l as [|b l IH]; intros Hl; simpl.
  - constructor; [constructor|constructor].
  - inversion Hl as [|? ? Hl' Hb]; subst.
    destruct (Qle_bool (key b) (key a)) eqn:E.
    + apply Qle_bool_iff in E. constructor; [done|].
      constructor; [done|].
      eapply Forall_impl; [exact Hb|]. intros y Hy. simpl in Hy.
      by apply Qle_trans with (key b).
    + assert (key a < key b)%Q as Hlt.
      { apply Qnot_le_lt. intros Hle. apply Qle_bool_iff in Hle. congruence. }
      constructor; [by apply IH|].
      apply Forall_forall. intros y Hy.
      apply elem_of_insert_desc in Hy as [->|Hy].
      * by apply Qlt_le_weak.
      * rewrite Forall_forall in Hb. by apply Hb.
Qed.

Lemma sort_desc_descending (l : list A) : descending key (sort_desc key l).
Proof.
  induction l as [|a l IH]; simpl; [constructor|]. by apply insert_desc_descending.
Qed.

Lemma descending_take (n : nat) (l : list A) : descending key l -> descending key (firstn n l).
Proof.
  unfold descending. revert n. induction l as [|a l IH]; intros [|n] Hl; simpl;
    try constructor.
  - inversion Hl; subst. by apply IH.
  - inversion Hl as [|? ? ? Ha]; subst.
    rewrite Forall_forall in *. intros y Hy. apply Ha.
    by apply (sublist_subseteq _ _ (sublist_take l n)).
Qed.

(** Where a pair of elements of [insert_desc key a l] comes from *)
Lemma before_insert_desc (a x y : A) (l : list A) :
  before x y (insert_desc key a l) ->
  before x y l \/ (x = a /\ y ∈ l) \/ (y = a /\ x ∈ l /\ (key a < key x)%Q).
Proof.
  unfold before. induction l as [|b l IH]; simpl; intros Hs.
  - apply sublist_cons_r in Hs as [Hs|(l' & Heq & Hs)].
    + apply sublist_nil_r in Hs. discriminate.
    + injection Heq as <- <-. apply sublist_nil_r in Hs. discriminate.
  - destruct (Qle_bool (key b) (key a)) eqn:E.
    + apply sublist_cons_r in Hs as [Hs|(l' & Heq & Hs)]; [by left|].
      injection Heq as <- <-. right; left. split; [done|].
      apply sublist_cons_l in Hs as (k1 & k2 & -> & _).
      apply elem_of_app. right. by left.
    + assert (key a < key b)%Q as Hlt.
      { apply Qnot_le_lt. intros Hle. apply Qle_bool_iff in Hle. congruence. }
      apply sublist_cons_r in Hs as [Hs|(l' & Heq & Hs)].
      * destruct (IH Hs) as [H1|[[-> H2]|(-> & H2 & H3)]].
        -- left. by apply sublist_cons.
        -- right; left. split; [done|]. by right.
        -- right; right. repeat split; [by right|done].
      * injection Heq as <- <-.
        assert (y ∈ insert_desc key a l) as Hy.
        { apply sublist_cons_l in Hs as (k1 & k2 & -> & _).
          apply elem_of_app. right. by left. }
        apply elem_of_insert_desc in Hy as [->|Hy].
        -- right; right. repeat split; [by left|done].
        -- left. apply sublist_skip. apply sublist_cons_l.
           apply list_elem_of_split in Hy as (l1 & l2 & ->).
           exists l1, l2. split; [done|]. apply sublist_nil_l.
Qed.

(** The sort is stable: two elements with equal keys stay in the order of
    the list that was sorted. *)
Lemma sort_desc_stable (x y : A) (l : list A) :
  before x y (sort_desc key l) -> (key x == key y)%Q -> before x y l.
Proof.
  unfold before. induction l as [|a l IH]; simpl; intros Hs Heq; [done|].
  apply before_insert_desc in Hs as [Hs|[[-> Hy]|(-> & Hx & Hlt)]].
  - apply sublist_cons. by apply IH.
  - apply (proj1 (elem_of_sort_desc _ _)) in Hy. apply sublist_skip. apply sublist_cons_l.
    apply list_elem_of_split in Hy as (l1 & l2 & ->).
    exists l1, l2. split; [done|]. apply sublist_nil_l.
  - rewrite Heq in Hlt. by apply Qlt_irrefl in Hlt.
Qed.

End SortDesc.

(** ** The similarity score *)

Lemma tokens_empty_text : tokens EmptyString = ∅.
Proof. reflexivity. Qed.

Lemma size_zero_empty (X : gset string) : (size X =? 0)%nat = true <-> X = ∅.
Proof.
  rewrite Nat.eqb_eq. split.
  - intros Hs. apply leibniz_equiv. by apply size_empty_iff.
  - intros ->. apply size_empty.
Qed.

Lemma Zpos_of_nat (n : nat) : (0 < n)%nat -> Z.pos (Pos.of_nat n) = Z.of_nat n.
Proof.
  intros Hn. destruct n as [|n]; [lia|].
  rewrite <- Pos.of_nat_succ. lia.
Qed.

(** On two texts [_simple_similarity] returns the Jaccard index. *)
Lemma simple_similarity_jaccard (a b : string) :
  exists s, _simple_similarity (JStr a) (JStr b) = Ok s /\ (s == jaccard a b)%Q.
Proof.
  unfold _simple_similarity, jaccard. simpl truthy.
  destruct (String.eqb a EmptyString) eqn:Ea; simpl.
  { apply String.eqb_eq in Ea as ->. exists 0%Q. split; [done|].
    rewrite decide_True; [done|]. left. apply tokens_empty_text. }
  destruct (String.eqb b EmptyString) eqn:Eb; simpl.
  { apply String.eqb_eq in Eb as ->. exists 0%Q. split; [done|].
    rewrite decide_True; [done|]. right. apply tokens_empty_text. }
  destruct (size (tokens a) =? 0)%nat eqn:Sa; simpl.
  { apply size_zero_empty in Sa. exists 0%Q. split; [done|].
    rewrite decide_True; [done|]. by left. }
  destruct (size (tokens b) =? 0)%nat eqn:Sb; simpl.
  { apply size_zero_empty in Sb. exists 0%Q. split; [done|].
    rewrite decide_True; [done|]. by right. }
  assert (tokens a <> ∅) as Na.
  { intros Hx. apply size_zero_empty in Hx. congruence. }
  assert (tokens b <> ∅) as Nb.
  { intros Hx. apply size_zero_empty in Hx. congruence. }
  assert (0 < size (tokens a ∪ tokens b))%nat as Hu.
  { destruct (size (tokens a ∪ tokens b)) eqn:E; [|lia].
    exfalso. apply Na. apply leibniz_equiv.
    apply size_empty_iff in E. set_solver. }
  rewrite decide_False by tauto.
  apply Nat.ltb_lt in Hu as Hu'. rewrite Hu'.
  eexists. split; [reflexivity|].
  rewrite Qmake_Qdiv. by rewrite Zpos_of_nat.
Qed.

Lemma simple_similarity_empty (a b : string) :
  tokens a = ∅ \/ tokens b = ∅ -> _simple_similarity (JStr a) (JStr b) = Ok 0%Q.
Proof.
  intros He. unfold _simple_similarity. simpl truthy.
  destruct (String.eqb a EmptyString); simpl; [done|].
  destruct (String.eqb b EmptyString); simpl; [done|].
  destruct He as [He|He]; rewrite He, size_empty; simpl; [done|].
  by rewrite orb_true_r.
Qed.

Lemma Qgt_bool_lt (a b : Q) : Qgt_bool a b = true <-> (b < a)%Q.
Proof.
  unfold Qgt_bool. rewrite negb_true_iff. split.
  - intros Hf. apply Qnot_le_lt. intros Hle. apply Qle_bool_iff in Hle. congruence.
  - intros Hlt. destruct (Qle_bool a b) eqn:E; [|done].
    apply Qle_bool_iff in E. exfalso. by apply (Qlt_not_le b a).
Qed.

(** The rational model against binary64, for token sets of up to 48 words:
    the test against the threshold has the same outcome. *)
Example threshold_test_agrees :
  forallb (fun iu => Bool.eqb (SFltb threshold_binary64 (score_binary64 iu.1 iu.2))
                              (Qgt_bool (score_rational iu.1 iu.2) (3 # 10)))
          (sizes 48) = true.
Proof. vm_compute. reflexivity. Qed.

(** And two scores, for token sets of up to 12 words, compare the same way. *)
Example score_order_agrees :
  forallb (fun a =>
     forallb (fun b => Bool.eqb (SFleb (score_binary64 a.1 a.2) (score_binary64 b.1 b.2))
                                (Qle_bool (score_rational a.1 a.2) (score_rational b.1 b.2)))
             (sizes 12))
          (sizes 12) = true.
Proof. vm_compute. reflexivity. Qed.

Example three_tenths_is_not_above :
  score_binary64 3 10 = threshold_binary64 /\
  SFltb threshold_binary64 (score_binary64 3 10) = false /\
  Qgt_bool (score_rational 3 10) (3 # 10) = false.
Proof. vm_compute. done. Qed.

(** A record accepted for a text query has a stored text, and its score is
    the Jaccard index, above the threshold. *)
Lemma accepted_text (q : string) (m : json) (s : Q) :
  accepted (JStr q) m s ->
  exists t, problem_text_of m = Some t /\ (s == jaccard q t)%Q /\ (3 # 10 < s)%Q.
Proof.
  intros (d & p & stored & -> & Hp & Hst & Htr & Hsim & Hgt).
  apply Qgt_bool_lt in Hgt.
  assert (exists t, stored = JStr t) as [t ->].
  { unfold _simple_similarity in Hsim. rewrite Htr in Hsim.
    destruct (truthy (JStr q)) eqn:Hq; simpl in Hsim.
    - destruct stored; simpl in Hsim; try discriminate. eauto.
    - injection Hsim as <-. exfalso. revert Hgt. apply Qle_not_lt.
      unfold Qle. simpl. lia. }
  exists t. split.
  - unfold problem_text_of. unfold dict_get in Hp, Hst.
    destruct (dict_lookup "parsed_problem" d) as [v|]; [|discriminate]. subst v.
    destruct (dict_lookup "problem_text" p) as [v|].
    + by subst v.
    + injection Hst as <-. discriminate.
  - destruct (simple_similarity_jaccard q t) as (s' & Hs' & Hj).
    rewrite Hsim in Hs'. injection Hs' as <-. done.
Qed.

Lemma accepted_score (q : string) (m : json) (s : Q) :
  accepted (JStr q) m s -> (s == score q m)%Q.
Proof.
  intros Ha. destruct (accepted_text q m s Ha) as (t & Ht & Hs & _).
  unfold score. by rewrite Ht.
Qed.

(** ** The loop of [get_similar_problems] *)

Lemma visit_inv (q : json) (acc : list (json * Q)) (m : json) (res : list (json * Q)) :
  visit q acc m = Ok res ->
  res = acc \/ exists s, res = acc ++ [(m, s)] /\ accepted q m s.
Proof.
  unfold visit. destruct m as [| | | | |l|d]; simpl; try discriminate.
  destruct (dict_get d "parsed_problem" JNull) as [| | | | | |p] eqn:Ep;
    unfold is_dict; rewrite ?andb_false_r; simpl;
    try (intros [= <-]; by left).
  destruct p as [|kv p']; simpl; [intros [= <-]; by left|].
  set (p := kv :: p') in *.
  destruct (truthy (dict_get p "problem_text" (JStr EmptyString))) eqn:Et; simpl;
    [|intros [= <-]; by left].
  destruct (_simple_similarity q (dict_get p "problem_text" (JStr EmptyString))) as [s|e] eqn:Es;
    simpl; [|discriminate].
  destruct (Qgt_bool s (3 # 10)) eqn:Eg; intros [= <-]; [|by left].
  right. exists s. split; [done|].
  exists d, p, (dict_get p "problem_text" (JStr EmptyString)). done.
Qed.

Lemma scan_inv (q : json) (items : list json) (acc res : list (json * Q)) :
  scan q acc items = Ok res ->
  exists extra, res = acc ++ extra /\
    map fst extra `sublist_of` items /\
    Forall (fun ms => accepted q ms.1 ms.2) extra.
Proof.
  revert acc. induction items as [|m items IH]; intros acc; simpl.
  - intros [= <-]. exists []. rewrite app_nil_r. repeat split; constructor.
  - destruct (visit q acc m) as [acc'|e] eqn:Ev; simpl; [|discriminate].
    intros Hs. destruct (IH _ Hs) as (extra & -> & Hsub & Hall).
    apply visit_inv in Ev as [->|(s & -> & Hacc)].
    + exists extra. repeat split; [by apply sublist_cons|done].
    + exists ((m, s) :: extra). rewrite <- app_assoc. repeat split.
      * simpl. by apply sublist_skip.
      * by constructor.
Qed.

Lemma visit_readable (q : string) (acc : list (json * Q)) (m : json) :
  readable m -> exists res, visit (JStr q) acc m = Ok res.
Proof.
  intros (d & -> & Hr). unfold visit. simpl.
  destruct (dict_get d "parsed_problem" JNull) as [| | | | | |p] eqn:Ep;
    unfold is_dict; rewrite ?andb_false_r; simpl; eauto.
  destruct p as [|kv p']; simpl; eauto.
  set (p := kv :: p') in *.
  destruct (truthy (dict_get p "problem_text" (JStr EmptyString))) eqn:Et; simpl; eauto.
  destruct (Hr p eq_refl Et) as [t ->].
  destruct (simple_similarity_jaccard q t) as (s & -> & _). simpl.
  destruct (Qgt_bool s (3 # 10)); eauto.
Qed.

Lemma scan_readable (q : string) (items : list json) (acc : list (json * Q)) :
  Forall readable items -> exists res, scan (JStr q) acc items = Ok res.
Proof.
  intros Hall. revert acc. induction Hall as [|m items Hm _ IH]; intros acc; simpl.
  - eauto.
  - destruct (visit_readable q acc m Hm) as [acc' ->]. simpl. apply IH.
Qed.

(** ** [get_similar_problems] *)

Lemma slice_to_take {A : Type} (limit : Z) (l : list A) :
  exists n, slice_to limit l = firstn n l /\ ((0 <= limit)%Z -> n = Z.to_nat limit).
Proof.
  unfold slice_to. destruct (0 <=? limit)%Z eqn:E.
  - eauto.
  - eexists. split; [reflexivity|]. lia.
Qed.

Lemma get_similar_problems_inv (self : MemoryStore) (q : json) (limit : Z) (res : list json) :
  get_similar_problems self q limit = Ok res ->
  res = [] \/
  exists items similar,
    py_iter (memories self) = Ok items /\
    scan q [] items = Ok similar /\
    res = map fst (slice_to limit (sort_desc snd similar)).
Proof.
  unfold get_similar_problems.
  destruct (truthy (memories self)); simpl; [|intros [= <-]; by left].
  destruct (py_iter (memories self)) as [items|e]; simpl; [|discriminate].
  destruct (scan q [] items) as [similar|e] eqn:Es; simpl; [|discriminate].
  intros [= <-]. right. by exists items, similar.
Qed.

Lemma descending_scores (q : string) (l : list (json * Q)) :
  Forall (fun ms => accepted (JStr q) ms.1 ms.2) l ->
  descending snd l -> descending (score q) (map fst l).
Proof.
  unfold descending. intros Hall Hs.
  induction Hs as [|[m s] l Hs IH Hm]; simpl; [constructor|].
  inversion Hall as [|? ? Ha Hall']; subst. simpl in Ha.
  constructor; [by apply IH|].
  apply Forall_forall. intros r Hr.
  apply list_elem_of_fmap in Hr as ([m' s'] & -> & Hin). simpl.
  rewrite Forall_forall in Hm, Hall'.
  specialize (Hm _ Hin). specialize (Hall' _ Hin). simpl in Hm, Hall'.
  rewrite <- (accepted_score q m s Ha), <- (accepted_score q m' s' Hall'). done.
Qed.

Lemma Forall_take {A : Type} (P : A -> Prop) (n : nat) (l : list A) :
  Forall P l -> Forall P (firstn n l).
Proof.
  intros Hl. apply Forall_forall. intros x Hx.
  rewrite Forall_forall in Hl. apply Hl.
  by apply (sublist_subseteq _ _ (sublist_take l n)).
Qed.

Lemma sort_desc_accepted (q : json) (l : list (json * Q)) :
  Forall (fun ms => accepted q ms.1 ms.2) l ->
  Forall (fun ms => accepted q ms.1 ms.2) (sort_desc snd l).
Proof.
  rewrite !Forall_forall. intros Hl x Hx. apply Hl. by apply elem_of_sort_desc in Hx.
Qed.

Example similar_to_quadratic :
  get_similar_problems sample_store (JStr quadratic) 3
  = Ok [case_record "r1" quadratic; case_record "r4" quadratic;
        case_record "r2" "Solve  x squared"].
Proof. vm_compute. reflexivity. Qed.

Example quadratic_scores :
  _simple_similarity (JStr quadratic) (JStr quadratic) = Ok (7 # 7)%Q /\
  _simple_similarity (JStr quadratic) (JStr "Solve  x squared") = Ok (3 # 7)%Q /\
  _simple_similarity (JStr "solve quadratic") (JStr "integrate cosine") = Ok (0 # 4)%Q.
Proof. vm_compute. done. Qed.

(** C1, as amended.  For every query text and every limit that is not
    negative, [get_similar_problems] returns at most [limit] records; every
    returned record has a stored [parsed_problem.problem_text] whose Jaccard
    index with the query is strictly greater than 3/10; the results are in
    descending order of that score; the score [_simple_similarity] computes on
    two texts is the Jaccard index of their sets of lowercase
    whitespace-delimited tokens, and it is 0 when one of the sets is empty.
    The call returns whenever the store is a list of readable records. *)
Theorem get_similar_problems_spec (self : MemoryStore) (q : string) (limit : Z) :
  (0 <= limit)%Z ->
  (forall l, memories self = JList l -> Forall readable l ->
     exists res, get_similar_problems self (JStr q) limit = Ok res) /\
  (forall res, get_similar_problems self (JStr q) limit = Ok res ->
     (List.length res <= Z.to_nat limit)%nat /\
     Forall (fun r => exists t, problem_text_of r = Some t /\ (3 # 10 < jaccard q t)%Q) res /\
     descending (score q) res) /\
  (forall a b, exists s,
     _simple_similarity (JStr a) (JStr b) = Ok s /\ (s == jaccard a b)%Q) /\
  (forall a b, tokens a = ∅ \/ tokens b = ∅ ->
     _simple_similarity (JStr a) (JStr b) = Ok 0%Q).
Proof.
  intros Hlimit. split; [|split; [|split]].
  - intros l Hl Hr. unfold get_similar_problems. rewrite Hl.
    destruct (truthy (JList l)); simpl; [|eauto].
    destruct (scan_readable q l [] Hr) as [similar ->]. simpl. eauto.
  - intros res Hres.
    apply get_similar_problems_inv in Hres as [->|(items & similar & _ & Hscan & ->)].
    { repeat split; [simpl; lia|constructor|constructor]. }
    apply scan_inv in Hscan as (extra & Heq & _ & Hacc). simpl in Heq. subst extra.
    destruct (slice_to_take limit (sort_desc snd similar)) as (n & -> & Hn).
    rewrite (Hn Hlimit). clear Hn.
    assert (Forall (fun ms => accepted (JStr q) ms.1 ms.2)
              (firstn (Z.to_nat limit) (sort_desc snd similar))) as Hall.
    { by apply Forall_take, sort_desc_accepted. }
    repeat split.
    + rewrite length_map, length_take. lia.
    + apply Forall_forall. intros r Hr.
      apply list_elem_of_fmap in Hr as ([m s] & -> & Hin).
      rewrite Forall_forall in Hall. specialize (Hall _ Hin). simpl in Hall.
      destruct (accepted_text q m s Hall) as (t & Ht & Hs & Hgt).
      exists t. split; [done|]. by rewrite <- Hs.
    + apply descending_scores; [done|].
      apply descending_take, sort_desc_descending.
  - apply simple_similarity_jaccard.
  - apply simple_similarity_empty.
Qed.

Lemma get_similar_problems_spec_witness :
  (List.length [case_record "r1" quadratic; case_record "r4" quadratic] <= Z.to_nat 2)%nat /\
  Forall (fun r => exists t, problem_text_of r = Some t /\ (3 # 10 < jaccard quadratic t)%Q)
    [case_record "r1" quadratic; case_record "r4" quadratic] /\
  descending (score quadratic) [case_record "r1" quadratic; case_record "r4" quadratic].
Proof.
  apply (proj1 (proj2 (get_similar_problems_spec sample_store quadratic 2 ltac:(lia)))).
  vm_compute. reflexivity.
Defined.

(** C1 as stated fails for a negative limit: [similar[:-1]] drops the last
    match only, so two of the three matches are returned. *)
Lemma negative_limit_counterexample :
  get_similar_problems sample_store (JStr quadratic) (-1)
  = Ok [case_record "r1" quadratic; case_record "r4" quadratic] /\
  ~ at_most_limit sample_store quadratic (-1).
Proof.
  assert (get_similar_problems sample_store (JStr quadratic) (-1)
          = Ok [case_record "r1" quadratic; case_record "r4" quadratic]) as Hrun.
  { vm_compute. reflexivity. }
  split; [exact Hrun|].
  intros Hclaim. specialize (Hclaim _ Hrun). simpl in Hclaim. lia.
Qed.

Lemma before_fmap {A B : Type} (f : A -> B) (x y : A) (l : list A) :
  before x y l -> before (f x) (f y) (map f l).
Proof.
  unfold before. intros Hs.
  change [f x; f y] with (map f [x; y]).
  induction Hs; simpl; by constructor.
Qed.

Lemma lookup_map_fst {A B : Type} (l : list (A * B)) (i : nat) (x : A) :
  map fst l !! i = Some x -> exists y, l !! i = Some (x, y).
Proof.
  revert i. induction l as [|[a b] l IH]; intros [|i]; simpl; try discriminate.
  - intros [= <-]. eauto.
  - apply IH.
Qed.

(** C3, as amended.  Among the returned records whose scores with the query
    are equal, the one inserted earlier comes first: a record listed before
    another one of the same score in the results is also before it in the
    stored sequence.  The loop walks the store in stored order and the sort
    is stable. *)
Theorem ties_keep_insertion_order (self : MemoryStore) (l : list json) (q : string)
    (limit : Z) (res : list json) (i j : nat) (ri rj : json) :
  memories self = JList l ->
  get_similar_problems self (JStr q) limit = Ok res ->
  res !! i = Some ri -> res !! j = Some rj -> (i < j)%nat ->
  (score q ri == score q rj)%Q ->
  exists i' j', (i' < j')%nat /\ l !! i' = Some ri /\ l !! j' = Some rj.
Proof.
  intros Hl Hres Hi Hj Hlt Heq.
  apply lookup_before.
  apply get_similar_problems_inv in Hres as [->|(items & similar & Hit & Hscan & ->)].
  { destruct i; discriminate. }
  rewrite Hl in Hit. simpl in Hit. injection Hit as <-.
  apply scan_inv in Hscan as (extra & Hx & Hsub & Hacc). simpl in Hx. subst extra.
  destruct (slice_to_take limit (sort_desc snd similar)) as (n & Hn & _).
  rewrite Hn in Hi, Hj. clear Hn.
  apply lookup_map_fst in Hi as [si Hi]. apply lookup_map_fst in Hj as [sj Hj].
  assert (before (ri, si) (rj, sj) (sort_desc snd similar)) as Hb.
  { unfold before. etrans; [|apply (sublist_take _ n)].
    by apply (before_lookup _ i j). }
  assert (accepted (JStr q) ri si /\ accepted (JStr q) rj sj) as [Hai Haj].
  { rewrite Forall_forall in Hacc. split.
    - apply (Hacc (ri, si)). apply (elem_of_sort_desc snd).
      apply list_elem_of_lookup_2 in Hi.
      by apply (sublist_subseteq _ _ (sublist_take _ n)).
    - apply (Hacc (rj, sj)). apply (elem_of_sort_desc snd).
      apply list_elem_of_lookup_2 in Hj.
      by apply (sublist_subseteq _ _ (sublist_take _ n)). }
  apply sort_desc_stable in Hb.
  - unfold before in *. etrans; [|exact Hsub].
    by apply (before_fmap fst) in Hb.
  - simpl. by rewrite (accepted_score q ri si Hai), (accepted_score q rj sj Haj).
Qed.

Lemma ties_keep_insertion_order_witness :
  exists i' j', (i' < j')%nat /\
    [case_record "r1" quadratic; case_record "r2" "Solve  x squared";
     case_record "r3" "integrate cosine"; case_record "r4" quadratic] !! i'
    = Some (case_record "r1" quadratic) /\
    [case_record "r1" quadratic; case_record "r2" "Solve  x squared";
     case_record "r3" "integrate cosine"; case_record "r4" quadratic] !! j'
    = Some (case_record "r4" quadratic).
Proof.
  apply (ties_keep_insertion_order sample_store _ quadratic 3
           [case_record "r1" quadratic; case_record "r4" quadratic;
            case_record "r2" "Solve  x squared"] 0 1).
  - reflexivity.
  - vm_compute. reflexivity.
  - reflexivity.
  - reflexivity.
  - lia.
  - vm_compute. reflexivity.
Defined.

(** C3 as stated fails: of the two stored copies of the query, [r1] was
    inserted first and [r4] last; they tie, and [r1] is returned first. *)
Lemma newest_wins_ties_counterexample : ~ newest_wins_ties sample_store quadratic 3.
Proof.
  intros Hclaim.
  assert (before (case_record "r4" quadratic) (case_record "r1" quadratic)
            [case_record "r1" quadratic; case_record "r4" quadratic;
             case_record "r2" "Solve  x squared"]) as Hb.
  { eapply (Hclaim _ _ 0%nat 3%nat).
    - reflexivity.
    - reflexivity.
    - reflexivity.
    - lia.
    - vm_compute. reflexivity.
    - exact similar_to_quadratic.
    - set_solver.
    - set_solver. }
  unfold before in Hb.
  apply sublist_cons_r in Hb as [Hb|(? & [=] & _)].
  apply sublist_cons_r in Hb as [Hb|(l' & [= <-] & Hb)].
  - apply sublist_cons_r in Hb as [Hb|(? & [=] & _)].
    apply sublist_nil_r in Hb. discriminate.
  - apply sublist_cons_r in Hb as [Hb|(? & [=] & _)].
    apply sublist_nil_r in Hb. discriminate.
Qed.

Lemma visit_malformed (q : json) (acc : list (json * Q)) (r : json) :
  malformed r -> visit q acc r = Ok acc.
Proof.
  intros (d & -> & Hm). unfold visit, py_get, dict_get. cbn -[dict_lookup].
  destruct Hm as [Hm|[(v & Hv & Hd)|(p & Hp & Hm)]].
  - by rewrite Hm.
  - rewrite Hv. cbn -[dict_lookup]. rewrite Hd. by rewrite andb_false_r.
  - rewrite Hp. cbn -[dict_lookup]. destruct p as [|kv p']; [done|].
    destruct Hm as [Hm|Hm]; cbn -[dict_lookup]; by rewrite Hm.
Qed.

Lemma accepted_not_malformed (q r : json) (s : Q) : accepted q r s -> ~ malformed r.
Proof.
  intros (d & p & stored & -> & Hp & Hst & Htr & _) (d' & [= <-] & Hm).
  unfold dict_get in Hp, Hst.
  destruct Hm as [Hm|[(v & Hv & Hd)|(p' & Hp' & Hm)]].
  - rewrite Hm in Hp. discriminate.
  - rewrite Hv in Hp. subst v. discriminate.
  - rewrite Hp' in Hp. injection Hp as ->.
    destruct Hm as [Hm|Hm]; rewrite Hm in Hst; subst stored; discriminate.
Qed.

Lemma scan_app (q : json) (l1 l2 : list json) (acc : list (json * Q)) :
  scan q acc (l1 ++ l2) = (acc' ← scan q acc l1; scan q acc' l2).
Proof.
  revert acc. induction l1 as [|m l1 IH]; intros acc; simpl; [done|].
  destruct (visit q acc m) as [acc'|e]; simpl; [apply IH|done].
Qed.

Lemma scan_skip (q : json) (l1 l2 : list json) (r : json) (acc : list (json * Q)) :
  malformed r -> scan q acc (l1 ++ r :: l2) = scan q acc (l1 ++ l2).
Proof.
  intros Hm. rewrite !scan_app.
  destruct (scan q acc l1) as [acc'|e]; simpl; [|done].
  by rewrite (visit_malformed q acc' r Hm).
Qed.

Lemma scan_all_malformed (q : json) (l : list json) (acc : list (json * Q)) :
  Forall malformed l -> scan q acc l = Ok acc.
Proof.
  induction 1 as [|r l Hr _ IH]; simpl; [done|].
  by rewrite (visit_malformed q acc r Hr).
Qed.

(** C10.  For every query (text or not) and every limit, a stored record
    whose [parsed_problem] is missing or not a dict, or whose [problem_text]
    is absent or empty, is skipped without an exception: the call gives
    exactly what it gives on the store without that record (the same result,
    or the same exception raised by another record), the record is not among
    the results, and on a store made of such records only the call returns
    the empty list. *)
Theorem malformed_records_are_skipped (path : string) (l1 l2 : list json) (r : json)
    (q : json) (limit : Z) :
  malformed r ->
  get_similar_problems (mkStore path (JList (l1 ++ r :: l2))) q limit
  = get_similar_problems (mkStore path (JList (l1 ++ l2))) q limit /\
  (forall res, get_similar_problems (mkStore path (JList (l1 ++ r :: l2))) q limit = Ok res ->
     r ∉ res) /\
  (forall l, Forall malformed l ->
     get_similar_problems (mkStore path (JList l)) q limit = Ok []).
Proof.
  intros Hm. split; [|split].
  - unfold get_similar_problems. simpl memories.
    replace (truthy (JList (l1 ++ r :: l2))) with true by (by destruct l1).
    simpl. rewrite (scan_skip q l1 l2 r [] Hm).
    destruct (l1 ++ l2) as [|m l]; simpl; [|done].
    unfold slice_to. simpl. by destruct (0 <=? limit)%Z; rewrite ?firstn_nil.
  - intros res Hres Hin.
    apply get_similar_problems_inv in Hres as [->|(items & similar & _ & Hscan & ->)].
    { by apply not_elem_of_nil in Hin. }
    apply scan_inv in Hscan as (extra & Hx & _ & Hacc). simpl in Hx. subst extra.
    apply list_elem_of_fmap in Hin as ([m s] & -> & Hin).
    destruct (slice_to_take limit (sort_desc snd similar)) as (n & Hn & _).
    rewrite Hn in Hin.
    apply (sublist_subseteq _ _ (sublist_take _ n)) in Hin.
    apply elem_of_sort_desc in Hin.
    rewrite Forall_forall in Hacc. specialize (Hacc _ Hin).
    by apply accepted_not_malformed in Hacc.
  - intros l Hl. unfold get_similar_problems. simpl memories.
    destruct (truthy (JList l)); simpl; [|done].
    rewrite (scan_all_malformed q l [] Hl). simpl.
    unfold slice_to. simpl. by destruct (0 <=? limit)%Z; rewrite ?firstn_nil.
Qed.

Lemma malformed_records_are_skipped_witness :
  get_similar_problems
    (mkStore "memory/storage.json"
       (JList ([case_record "r1" quadratic] ++ bare_record :: [case_record "r4" quadratic])))
    (JStr quadratic) 3
  = get_similar_problems
      (mkStore "memory/storage.json"
         (JList ([case_record "r1" quadratic] ++ [case_record "r4" quadratic])))
      (JStr quadratic) 3.
Proof.
  apply (malformed_records_are_skipped "memory/storage.json"
           [case_record "r1" quadratic] [case_record "r4" quadratic] bare_record
           (JStr quadratic) 3).
  exists [("id", JStr "r0"); ("feedback", JStr "correct")]. split; [reflexivity|].
  left. reflexivity.
Defined.

(** ** Saving and loading *)

Section Persistence.
Context `{lib : JsonLib}.

Lemma can_persist_can_save (s : string) (d : Disk) :
  can_persist d = true -> can_save s d = true /\ capacity d = None.
Proof.
  unfold can_persist, can_save, takes.
  destruct (can_open d); [|discriminate]. by destruct (capacity d).
Qed.

(** The file cannot be opened: nothing is written. *)
Lemma save_memories_closed (self : MemoryStore) (w : World) :
  can_open (disk w) = false ->
  exists e, save_memories self w = (false, say (MsgSaveError e) w).
Proof.
  unfold can_open, save_memories, makedirs, open_w.
  destruct (dir_ok (disk w)); simpl; [|eauto].
  destruct (node (disk w)), (file_writable (disk w)); simpl; intros; try discriminate; eauto.
Qed.

(** The file opens and the device does not take the text: the file keeps
    the beginning of the text. *)
Lemma save_memories_full (self : MemoryStore) (w : World) :
  can_open (disk w) = true ->
  takes (json_dump (memories self)) (disk w) = false ->
  exists e k,
    capacity (disk w) = Some k /\
    save_memories self w
    = (false, say (MsgSaveError e)
                (set_disk (mkDisk (File (substring 0 k (json_dump (memories self))))
                             true true (Some k)) w)).
Proof.
  unfold can_open, takes, save_memories, makedirs, open_w, write_text.
  destruct (dir_ok (disk w)); simpl; [|discriminate].
  destruct (file_writable (disk w)); simpl; [|discriminate].
  intros Hn. destruct (capacity (disk w)) as [k|] eqn:Hc; [|discriminate].
  intros Hk. apply Nat.leb_gt in Hk. apply Nat.ltb_lt in Hk.
  destruct (node (disk w)); simpl in *; try discriminate;
    rewrite Hk; eauto.
Qed.

Lemma save_memories_fail (self : MemoryStore) (w : World) :
  can_save (json_dump (memories self)) (disk w) = false ->
  exists e w1,
    save_memories self w = (false, say (MsgSaveError e) w1) /\
    console w1 = console w /\ tick w1 = tick w.
Proof.
  unfold can_save. intros Hs.
  destruct (can_open (disk w)) eqn:Ho.
  - destruct (save_memories_full self w Ho Hs) as (e & k & _ & ->). by eexists _, _.
  - destruct (save_memories_closed self w Ho) as [e ->]. by eexists _, _.
Qed.


Lemma save_memories_list (self : MemoryStore) (l : list json) (w : World) :
  memories self = JList l -> can_save (json_dump (JList l)) (disk w) = true ->
  save_memories self w
  = (true, say (MsgSaved (List.length l) (storage_path self))
             (set_disk (mkDisk (File (json_dump (JList l))) true true (capacity (disk w))) w)).
Proof.
  intros Hl. unfold can_save, can_open, takes, save_memories, makedirs, open_w, write_text.
  rewrite Hl.
  destruct (dir_ok (disk w)); simpl; [|discriminate].
  destruct (file_writable (disk w)); simpl; [|discriminate].
  destruct (capacity (disk w)) as [k|] eqn:Hc; simpl.
  - intros Hk.
    assert ((k <? String.length (json_dump (JList l)))%nat = false) as Hlt.
    { apply Nat.ltb_ge. apply Nat.leb_le. by destruct (node (disk w)). }
    destruct (node (disk w)); simpl in *; try discriminate; by rewrite Hlt.
  - destruct (node (disk w)); simpl; done.
Qed.

Lemma save_memories_persist (self : MemoryStore) (l : list json) (w : World) :
  memories self = JList l -> can_persist (disk w) = true ->
  save_memories self w
  = (true, say (MsgSaved (List.length l) (storage_path self))
             (set_disk (mkDisk (File (json_dump (JList l))) true true None) w)).
Proof.
  intros Hl Hp.
  destruct (can_persist_can_save (json_dump (JList l)) (disk w) Hp) as [Hs Hc].
  by rewrite (save_memories_list self l w Hl Hs), Hc.
Qed.

Lemma load_memories_file (self : MemoryStore) (w : World) (text : string) :
  node (disk w) = File text ->
  fst (load_memories self w)
  = match json_load text with
    | Ok v => if has_len v then v else JList []
    | Raise _ => JList []
    end.
Proof.
  intros Hn. unfold load_memories, path_exists, read_file. rewrite Hn. simpl.
  destruct (json_load text) as [v|e]; simpl.
  - destruct v; simpl; done.
  - destruct (exc_type e); done.
Qed.

Lemma load_memories_reader (self reader : MemoryStore) (w : World) :
  fst (load_memories reader w) = fst (load_memories self w).
Proof.
  unfold load_memories.
  destruct (path_exists (disk w)); [|done].
  destruct (_ ≫= _) as [[data n]|e]; [done|]. by destruct (exc_type e).
Qed.


(** C6.  [load_memories] returns the empty list, without an exception, when
    there is no backing file; when the file exists and its text is not JSON
    ([json.load] raises [JSONDecodeError]) it prints the "corrupted" message
    and returns the empty list.  The file itself is left as it is. *)
Theorem load_memories_missing_or_corrupt (self : MemoryStore) (w : World) :
  (node (disk w) = NoFile ->
   load_memories self w = (JList [], say (MsgNoFile (storage_path self)) w)) /\
  (forall text e,
     node (disk w) = File text ->
     json_load text = Raise e -> exc_type e = JSONDecodeError ->
     load_memories self w = (JList [], say MsgCorrupted w)).
Proof.
  split.
  - intros Hn. unfold load_memories, path_exists. by rewrite Hn.
  - intros text e Hn Hload He.
    unfold load_memories, path_exists, read_file. rewrite Hn. simpl.
    rewrite Hload. simpl. by rewrite He.
Qed.

(** C9, as amended.  [load_memories] validates nothing beyond what [len]
    needs: when the text of the backing file parses, the value is returned
    unchanged if it is a list, an object or a string, and the empty list is
    returned if it is a number, a boolean or [null] (the [len(data)] of the
    "Loaded" message raises [TypeError] inside the [try]).  A parse failure,
    or a file that cannot be read, gives the empty list. *)
Theorem load_memories_parsed (self : MemoryStore) (w : World) :
  (forall text v, node (disk w) = File text -> json_load text = Ok v ->
     fst (load_memories self w) = if has_len v then v else JList []) /\
  (forall text e, node (disk w) = File text -> json_load text = Raise e ->
     fst (load_memories self w) = JList []) /\
  (node (disk w) = Blocked -> fst (load_memories self w) = JList []).
Proof.
  split; [|split].
  - intros text v Hn Hv. by rewrite (load_memories_file self w text Hn), Hv.
  - intros text e Hn He. by rewrite (load_memories_file self w text Hn), He.
  - intros Hn. unfold load_memories, path_exists, read_file. by rewrite Hn.
Qed.

End Persistence.


Lemma load_memories_missing_or_corrupt_witness :
  load_memories sample_store fresh_world
  = (JList [], say (MsgNoFile "memory/storage.json") fresh_world) /\
  load_memories sample_store (readonly_world "[{ not json")
  = (JList [], say MsgCorrupted (readonly_world "[{ not json")).
Proof.
  split.
  - apply (proj1 (load_memories_missing_or_corrupt (lib := mini_json)
                    sample_store fresh_world)).
    reflexivity.
  - apply (proj2 (load_memories_missing_or_corrupt (lib := mini_json)
                    sample_store (readonly_world "[{ not json"))
             "[{ not json" MiniJson.decode_error).
    + reflexivity.
    + vm_compute. reflexivity.
    + reflexivity.
Defined.

Lemma load_memories_parsed_witness :
  fst (load_memories sample_store
         (readonly_world (MiniJson.dumps (JDict [("version", JInt 2)]))))
  = JDict [("version", JInt 2)].
Proof.
  apply (proj1 (load_memories_parsed (lib := mini_json) sample_store
                  (readonly_world (MiniJson.dumps (JDict [("version", JInt 2)]))))
           (MiniJson.dumps (JDict [("version", JInt 2)])) (JDict [("version", JInt 2)])).
  - reflexivity.
  - vm_compute. reflexivity.
Defined.

(** C9 as stated fails on a file that holds a JSON number: the text [42]
    parses, and [load_memories] returns the empty list, not 42. *)
Lemma load_returns_parsed_counterexample :
  json_load "42" = Ok (JInt 42) /\
  fst (load_memories sample_store (readonly_world "42")) = JList [] /\
  ~ load_returns_parsed sample_store (readonly_world "42").
Proof.
  split; [vm_compute; reflexivity|]. split; [vm_compute; reflexivity|].
  intros Hclaim.
  specialize (Hclaim "42" (JInt 42) eq_refl ltac:(vm_compute; reflexivity)).
  vm_compute in Hclaim. discriminate.
Qed.

(** ** Appending *)

Section Append.
Context `{lib : JsonLib} `{clock : Clock}.

Lemma make_memory_dict (id timestamp : string) (d : list (string * json)) :
  make_memory id timestamp (JDict d) = Ok (record_from id timestamp d).
Proof. reflexivity. Qed.

Lemma can_persist_advance (w : World) : can_persist (disk (advance w)) = can_persist (disk w).
Proof. reflexivity. Qed.


(** [store_interaction] on a store that holds a list and a data dict *)
Lemma store_interaction_list (self : MemoryStore) (l : list json)
    (d : list (string * json)) (w : World) :
  memories self = JList l ->
  store_interaction self (JDict d) w
  = let id := uuid4 (tick w) in
    let self' := mkStore (storage_path self)
                   (JList (l ++ [record_from id (now_isoformat (tick w)) d])) in
    (Ok id, self',
     if fst (save_memories self' (advance w))
     then say (MsgStored id) (snd (save_memories self' (advance w)))
     else say MsgStoreFailed (snd (save_memories self' (advance w)))).
Proof.
  intros Hl. unfold store_interaction.
  rewrite make_memory_dict. simpl mbind. rewrite Hl. simpl py_append. cbv beta iota zeta.
  by destruct (save_memories _ (advance w)) as [success w2].
Qed.

(** C2, as amended.  On a store that holds a list, [store_interaction]
    appends exactly one record, built from the data, at the end of the
    in-memory sequence, writes the whole sequence to the backing file and
    returns the identifier it assigned to the record.  When the save fails
    (the file cannot be opened, or the write fails once it is open) the
    caller gets the same identifier and no exception: the failure is only
    printed ("Failed to store memory"), and the in-memory sequence still has
    the new record. *)
Theorem store_interaction_appends (self : MemoryStore) (l : list json)
    (d : list (string * json)) (w : World) :
  memories self = JList l ->
  exists memory self' w',
    store_interaction self (JDict d) w = (Ok (uuid4 (tick w)), self', w') /\
    make_memory (uuid4 (tick w)) (now_isoformat (tick w)) (JDict d) = Ok memory /\
    py_item memory "id" = Ok (JStr (uuid4 (tick w))) /\
    memories self' = JList (l ++ [memory]) /\
    storage_path self' = storage_path self /\
    (can_save (json_dump (JList (l ++ [memory]))) (disk w) = true ->
       node (disk w') = File (json_dump (JList (l ++ [memory]))) /\
       console w' = console w ++ [MsgSaved (S (List.length l)) (storage_path self);
                                  MsgStored (uuid4 (tick w))]) /\
    (can_save (json_dump (JList (l ++ [memory]))) (disk w) = false ->
       exists e, console w' = console w ++ [MsgSaveError e; MsgStoreFailed]).
Proof.
  intros Hl. rewrite (store_interaction_list self l d w Hl). cbv zeta.
  set (memory := record_from _ _ d).
  set (self' := mkStore (storage_path self) (JList (l ++ [memory]))).
  exists memory, self'. eexists. split; [reflexivity|].
  split; [apply make_memory_dict|]. split; [reflexivity|]. split; [reflexivity|].
  split; [reflexivity|]. split.
  - intros Hp. change (disk w) with (disk (advance w)) in Hp.
    rewrite (save_memories_list self' (l ++ [memory]) (advance w) eq_refl Hp). simpl.
    split; [done|].
    rewrite length_app. simpl. rewrite Nat.add_1_r. by rewrite <- app_assoc.
  - intros Hp. change (disk w) with (disk (advance w)) in Hp.
    destruct (save_memories_fail self' (advance w) Hp) as (e & w1 & -> & Hc & _). simpl.
    exists e. rewrite Hc. simpl. by rewrite <- app_assoc.
Qed.



End Append.

Lemma store_interaction_appends_witness :
  exists memory self' w',
    store_interaction sample_store (sample_data "correct") (readonly_world "[]")
    = (Ok "uuid-0", self', w') /\
    memories self' = JList ([case_record "r1" quadratic; case_record "r2" "Solve  x squared";
                             case_record "r3" "integrate cosine"; case_record "r4" quadratic]
                            ++ [memory]) /\
    exists e, console w' = [MsgSaveError e; MsgStoreFailed].
Proof.
  destruct (store_interaction_appends (lib := mini_json) (clock := sample_clock)
              sample_store _
              [("original_input", JStr quadratic);
               ("input_type", JStr "text");
               ("parsed_problem",
                JDict [("problem_text", JStr quadratic); ("topic", JStr "algebra")]);
               ("solution", JStr "x = 2");
               ("verification", JDict [("is_correct", JBool true); ("issues", JList [])]);
               ("feedback", JStr "correct")]
              (readonly_world "[]") eq_refl)
    as (memory & self' & w' & Hrun & _ & _ & Hmem & _ & _ & Hfail).
  exists memory, self', w'. split; [exact Hrun|]. split; [exact Hmem|].
  apply Hfail. reflexivity.
Defined.

(** C2 as stated fails: on storage that cannot be written the caller gets
    the identifier back, as after a successful write, and no exception. *)
Lemma append_reports_failure_counterexample :
  can_open (disk (readonly_world "[]")) = false /\
  fst (fst (store_interaction sample_store (sample_data "correct") (readonly_world "[]")))
  = Ok "uuid-0" /\
  fst (fst (store_interaction sample_store (sample_data "correct") fresh_world))
  = Ok "uuid-0" /\
  ~ append_reports_failure sample_store (sample_data "correct") (readonly_world "[]").
Proof.
  split; [reflexivity|]. split; [vm_compute; reflexivity|]. split; [vm_compute; reflexivity|].
  intros Hclaim.
  destruct (store_interaction sample_store (sample_data "correct") (readonly_world "[]"))
    as [[r self'] w'] eqn:Hrun.
  destruct (Hclaim r self' w' Hrun eq_refl) as [e ->].
  vm_compute in Hrun. discriminate.
Qed.


(** ** Reset *)

Section Reset.
Context `{lib : JsonLib} `{clock : Clock}.


End Reset.



(** ** The solve pipeline *)

Section Pipeline.
Context `{lib : JsonLib} `{clock : Clock} `{agents : Agents}.

Lemma bind_run {A B : Type} (m : M A) (k : A -> M B) (a : App) :
  (m ≫= k) a
  = match m a with
    | (Return x, a') => k x a'
    | (Throw f e, a') => (Throw f e, a')
    end.
Proof. reflexivity. Qed.

Lemma advanced_refl (a : App) : advanced a a [] [].
Proof. unfold advanced. by rewrite !app_nil_r. Qed.

Lemma advanced_trans (a a1 a2 : App) (st1 st2 : list stage) (ev1 ev2 : list ui_event) :
  advanced a a1 st1 ev1 -> advanced a1 a2 st2 ev2 ->
  advanced a a2 (st1 ++ st2) (ev1 ++ ev2).
Proof.
  intros (Hm1 & Hw1 & Hi1 & Hs1) (Hm2 & Hw2 & Hi2 & Hs2). unfold advanced.
  rewrite Hm2, Hw2, Hi2, Hs2, Hm1, Hw1, Hi1, Hs1, !app_assoc. done.
Qed.

Lemma quiet_ret {A : Type} (x : A) : quiet (mret x).
Proof.
  intros a o a' [= <- <-]. split; [|done]. exists []. apply advanced_refl.
Qed.

Lemma quiet_emit (ev : ui_event) : quiet (emit ev).
Proof.
  intros a o a' [= <- <-]. split; [|done]. exists [ev]. unfold advanced. simpl.
  by rewrite app_nil_r.
Qed.

Lemma quiet_script {A : Type} (r : result A) : quiet (script r).
Proof.
  intros a o a' [= <- <-]. split; [exists []; apply advanced_refl|].
  destruct r; done.
Qed.

Lemma quiet_recall (q : json) : quiet (recall q).
Proof.
  intros a o a' [= <- <-]. split; [exists []; apply advanced_refl|].
  destruct (get_similar_problems _ _ _); done.
Qed.

Lemma quiet_bind {A B : Type} (m : M A) (k : A -> M B) :
  quiet m -> (forall x, quiet (k x)) -> quiet (m ≫= k).
Proof.
  intros Hm Hk a o a'. rewrite bind_run.
  destruct (m a) as [[x|f e] a1] eqn:E.
  - intros Hrun. destruct (Hm _ _ _ E) as [[ev1 H1] _].
    destruct (Hk x _ _ _ Hrun) as [[ev2 H2] Hno]. split; [|done].
    exists (ev1 ++ ev2). apply (advanced_trans a a1 a' [] [] ev1 ev2 H1 H2).
  - intros [= <- <-]. destruct (Hm _ _ _ E) as [Hadv Hno]. split; [done|].
    intros s e0 [= -> ->]. by apply (Hno s e0).
Qed.

Lemma quiet_when (b : bool) (m : M unit) : quiet m -> quiet (when b m).
Proof. destruct b; [done|]. intros _. apply quiet_ret. Qed.

Lemma quiet_if {A : Type} (b : bool) (m1 m2 : M A) :
  quiet m1 -> quiet m2 -> quiet (if b then m1 else m2).
Proof. by destruct b. Qed.

Lemma quiet_for_each {A : Type} (l : list A) (body : nat -> A -> M unit) (i : nat) :
  (forall i x, quiet (body i x)) -> quiet (for_each i l body).
Proof.
  intros Hb. revert i. induction l as [|x l IH]; intros i; simpl.
  - apply quiet_ret.
  - apply quiet_bind; [apply Hb|]. intros _. apply IH.
Qed.

Ltac quiet_steps :=
  repeat first
    [ apply quiet_emit | apply quiet_script | apply quiet_recall | apply quiet_ret
    | apply quiet_when | apply quiet_if | apply quiet_for_each; intros
    | apply quiet_bind; [|intros] ].

Lemma quiet_show_parsed (parsed : json) : quiet (show_parsed parsed).
Proof. unfold show_parsed. quiet_steps. Qed.

Lemma quiet_show_similar (raw_input : string) (parsed : json) :
  quiet (show_similar raw_input parsed).
Proof. unfold show_similar. quiet_steps. Qed.

Lemma quiet_show_context (solution : json) : quiet (show_context solution).
Proof. unfold show_context. quiet_steps. Qed.

Lemma quiet_show_verification (verification : json) :
  quiet (show_verification verification).
Proof. unfold show_verification. quiet_steps. Qed.

Lemma quiet_show_explanation (solution explanation : json) :
  quiet (show_explanation solution explanation).
Proof. unfold show_explanation. quiet_steps. Qed.

Lemma quiet_offstage {A : Type} (m : M A) : quiet m -> offstage m.
Proof.
  intros Hq a o a' Hrun. destruct (Hq _ _ _ Hrun) as [[evs (_ & _ & Hi & _)] Hno].
  split; [|done]. by rewrite Hi, app_nil_r.
Qed.

Lemma offstage_bind {A B : Type} (m : M A) (k : A -> M B) :
  offstage m -> (forall x, offstage (k x)) -> offstage (m ≫= k).
Proof.
  intros Hm Hk a o a'. rewrite bind_run.
  destruct (m a) as [[x|f e] a1] eqn:E.
  - intros Hrun. destruct (Hm _ _ _ E) as [H1 _].
    destruct (Hk x _ _ _ Hrun) as [H2 Hno]. split; [congruence|done].
  - intros [= <- <-]. destruct (Hm _ _ _ E) as [Hinv Hno]. split; [done|].
    intros s e0 [= -> ->]. by apply (Hno s e0).
Qed.

Lemma offstage_remember (data : json) : offstage (remember data).
Proof.
  intros a o a'. unfold remember.
  destruct (store_interaction _ _ _) as [[r self'] w']. intros [= <- <-].
  split; [done|]. destruct r; done.
Qed.

Lemma offstage_set_form (b : bool) : offstage (set_form b).
Proof. intros a o a' [= <- <-]. done. Qed.

Lemma offstage_get_form : offstage get_form.
Proof. intros a o a' [= <- <-]. done. Qed.

Lemma offstage_when (b : bool) (m : M unit) : offstage m -> offstage (when b m).
Proof. destruct b; [done|]. intros _. apply quiet_offstage, quiet_ret. Qed.

Ltac offstage_steps :=
  repeat first
    [ apply offstage_remember | apply offstage_set_form | apply offstage_get_form
    | apply quiet_offstage; quiet_steps; fail
    | apply offstage_when
    | apply offstage_bind; [|intros] ].

Lemma offstage_feedback_section (raw_input input_type : string) (wd : Widgets)
    (parsed solution verification : json) :
  offstage (feedback_section raw_input input_type wd parsed solution verification).
Proof. unfold feedback_section. offstage_steps. Qed.

(** *** Running the pipeline up to the agent that raises *)

Lemma peel_emit {B : Type} (ev : ui_event) (k : unit -> M B) (a a1 : App)
    (st : list stage) (evs : list ui_event) (res : outcome B * App) :
  (emit ev ≫= k) a1 = res -> advanced a a1 st evs ->
  exists a2, advanced a a2 st (evs ++ [ev]) /\ k tt a2 = res.
Proof.
  rewrite bind_run. simpl. intros Hrun (Hm & Hw & Hi & Hs).
  eexists. split; [|exact Hrun]. unfold advanced. simpl.
  by rewrite Hm, Hw, Hi, Hs, app_assoc.
Qed.

Lemma peel_script {A B : Type} (r : result A) (k : A -> M B) (a1 a' : App)
    (s : stage) (e : exn) :
  (script r ≫= k) a1 = (Throw (InStage s) e, a') ->
  exists x, k x a1 = (Throw (InStage s) e, a').
Proof.
  rewrite bind_run. unfold script. destruct r as [x|e']; [eauto|discriminate].
Qed.

Lemma peel_quiet {A B : Type} (m : M A) (k : A -> M B) (a a1 a' : App)
    (st : list stage) (evs : list ui_event) (s : stage) (e : exn) :
  quiet m ->
  (m ≫= k) a1 = (Throw (InStage s) e, a') -> advanced a a1 st evs ->
  exists x a2 evs', advanced a a2 st (evs ++ evs') /\ k x a2 = (Throw (InStage s) e, a').
Proof.
  intros Hq. rewrite bind_run. destruct (m a1) as [[x|f e'] a2] eqn:E.
  - intros Hrun Hadv. destruct (Hq _ _ _ E) as [[evs' H2] _].
    exists x, a2, evs'. split; [|done].
    rewrite <- (app_nil_r st). by apply (advanced_trans a a1 a2).
  - intros [= -> -> ->]. destruct (Hq _ _ _ E) as [_ Hno]. by destruct (Hno s e).
Qed.

Lemma peel_call {B : Type} (s' : stage) (r : result json) (k : json -> M B) (a a1 a' : App)
    (st : list stage) (evs : list ui_event) (s : stage) (e : exn) :
  (call s' r ≫= k) a1 = (Throw (InStage s) e, a') -> advanced a a1 st evs ->
  (r = Raise e /\ s = s' /\ advanced a a' (st ++ [s']) evs) \/
  (exists x a2, r = Ok x /\ advanced a a2 (st ++ [s']) evs /\
                k x a2 = (Throw (InStage s) e, a')).
Proof.
  rewrite bind_run. unfold call. intros Hrun (Hm & Hw & Hi & Hs).
  destruct r as [x|e'].
  - right. eexists x, _. split; [done|]. split; [|exact Hrun]. unfold advanced. simpl.
    by rewrite Hm, Hw, Hi, Hs, app_assoc.
  - left. injection Hrun as <- <- <-. repeat split; simpl; try done.
    by rewrite Hi, app_assoc.
Qed.

(** *** Running the pipeline from the results of the agents *)









End Pipeline.


Example verifier_failure_screen :
  screen (solve_section (lib := mini_json) (clock := sample_clock)
            (agents := failing_verifier) quadratic "text" all_clicked sample_app)
  = [St_divider; St_button "Solve Problem" EmptyString;
     header Parse;
     St_json (JDict [("problem_text", JStr quadratic); ("topic", JStr "algebra")]);
     St_info [Lit "**Topic**: "; Title "algebra"];
     St_expander "Similar Problems Found in Memory";
     St_write [Lit "- "; Str (JStr quadratic)];
     St_write [Lit "- "; Str (JStr quadratic)];
     St_write [Lit "- "; Str (JStr "Solve  x squared")];
     header Solve;
     St_expander "Retrieved Knowledge";
     St_info [Lit "No relevant context retrieved"];
     header Verify;
     St_error [Lit "An error occurred: "; ExnText (mkExn ValueError "empty solution")];
     St_exception (InStage Verify) (mkExn ValueError "empty solution")].
Proof. vm_compute. reflexivity. Qed.

Example full_run_records_feedback :
  py_len (memories (memory (solve_section (lib := mini_json) (clock := sample_clock)
                              (agents := answering_agents) quadratic "text" all_clicked
                              sample_app)))
  = Ok 6%nat /\
  invoked (solve_section (lib := mini_json) (clock := sample_clock)
             (agents := answering_agents) quadratic "text" all_clicked sample_app)
  = [Parse; Solve; Verify; Explain].
Proof. vm_compute. done. Qed.

(** Both feedback buttons pressed in one run: two records for the one trace,
    after the four that were stored. *)
Example both_buttons_two_records :
  memories (memory (solve_section (lib := mini_json) (clock := sample_clock)
                      (agents := answering_agents) quadratic "text" both_feedback
                      sample_app))
  = JList [case_record "r1" quadratic; case_record "r2" "Solve  x squared";
           case_record "r3" "integrate cosine"; case_record "r4" quadratic;
           record_from "uuid-0" "2026-01-15T10:30:00"
             [("original_input", JStr quadratic); ("input_type", JStr "text");
              ("parsed_problem",
               JDict [("problem_text", JStr quadratic); ("topic", JStr "algebra")]);
              ("solution", JStr "x = 2");
              ("verification",
               JDict [("is_correct", JBool true); ("confidence", JInt 1);
                      ("issues", JList [])]);
              ("feedback", JStr "correct")];
           record_from "uuid-1" "2026-01-15T10:30:01"
             [("original_input", JStr quadratic); ("input_type", JStr "text");
              ("parsed_problem",
               JDict [("problem_text", JStr quadratic); ("topic", JStr "algebra")]);
              ("solution", JStr "x = 2");
              ("verification",
               JDict [("is_correct", JBool true); ("confidence", JInt 1);
                      ("issues", JList [])]);
              ("feedback", JStr "incorrect")]].
Proof. vm_compute. reflexivity. Qed.

(** * Further properties of the store *)

(** ** The score *)

Lemma union_size_positive (X Y : gset string) : X <> ∅ -> (0 < size (X ∪ Y))%nat.
Proof.
  intros HX. destruct (size (X ∪ Y)) eqn:E; [|lia].
  exfalso. apply HX. apply leibniz_equiv. apply size_empty_iff in E. set_solver.
Qed.

Lemma simple_similarity_words (a b : string) :
  _simple_similarity (JStr a) (JStr b) = Ok (score_of_words (tokens a) (tokens b)).
Proof.
  unfold _simple_similarity, score_of_words. simpl truthy.
  destruct (String.eqb a EmptyString) eqn:Ea; simpl.
  { apply String.eqb_eq in Ea as ->. rewrite decide_True; [done|]. by left. }
  destruct (String.eqb b EmptyString) eqn:Eb; simpl.
  { apply String.eqb_eq in Eb as ->. rewrite decide_True; [done|]. by right. }
  destruct (size (tokens a) =? 0)%nat eqn:Sa; simpl.
  { apply size_zero_empty in Sa. rewrite decide_True; [done|]. by left. }
  destruct (size (tokens b) =? 0)%nat eqn:Sb; simpl.
  { apply size_zero_empty in Sb. rewrite decide_True; [done|]. by right. }
  assert (tokens a <> ∅) as Na.
  { intros Hx. apply size_zero_empty in Hx. congruence. }
  assert (tokens b <> ∅) as Nb.
  { intros Hx. apply size_zero_empty in Hx. congruence. }
  rewrite decide_False by tauto.
  pose proof (union_size_positive (tokens a) (tokens b) Na) as Hu.
  apply Nat.ltb_lt in Hu. by rewrite Hu.
Qed.

(** X1.  The score of two texts depends on them only through their sets of
    lowercase words: letter case, the amount and kind of white space, the
    order of the words and their repetition do not change it. *)
Theorem similarity_depends_on_words (a a' b b' : string) :
  tokens a = tokens a' -> tokens b = tokens b' ->
  _simple_similarity (JStr a) (JStr b) = _simple_similarity (JStr a') (JStr b').
Proof. intros Ha Hb. by rewrite !simple_similarity_words, Ha, Hb. Qed.

Lemma similarity_depends_on_words_witness :
  _simple_similarity (JStr "Solve  X squared") (JStr quadratic)
  = _simple_similarity (JStr "x squared solve x") (JStr quadratic).
Proof.
  apply (similarity_depends_on_words "Solve  X squared" "x squared solve x"
           quadratic quadratic).
  - vm_compute. reflexivity.
  - reflexivity.
Defined.

(** X2.  The score is symmetric in the two texts. *)
Theorem similarity_symmetric (a b : string) :
  _simple_similarity (JStr a) (JStr b) = _simple_similarity (JStr b) (JStr a).
Proof.
  rewrite !simple_similarity_words. unfold score_of_words.
  rewrite (comm_L (∩) (tokens a) (tokens b)), (comm_L (∪) (tokens a) (tokens b)).
  destruct (decide (tokens a = ∅ \/ tokens b = ∅)) as [H1|H1];
    destruct (decide (tokens b = ∅ \/ tokens a = ∅)) as [H2|H2]; try done; tauto.
Qed.

(** X3.  The score of two texts is a rational between 0 and 1. *)
Theorem similarity_between_0_and_1 (a b : string) :
  exists s, _simple_similarity (JStr a) (JStr b) = Ok s /\ (0 <= s)%Q /\ (s <= 1)%Q.
Proof.
  rewrite simple_similarity_words. eexists. split; [reflexivity|].
  unfold score_of_words. destruct (decide _) as [He|Hne].
  - split; unfold Qle; simpl; lia.
  - assert (tokens a <> ∅) as Na by tauto.
    pose proof (union_size_positive (tokens a) (tokens b) Na) as Hu.
    assert (size (tokens a ∩ tokens b) <= size (tokens a ∪ tokens b))%nat as Hle.
    { apply subseteq_size. etrans; [apply intersection_subseteq_l|apply union_subseteq_l]. }
    split; unfold Qle; simpl.
    + lia.
    + rewrite Zpos_of_nat by done. lia.
Qed.

(** X4.  Two texts with the same words, and at least one word, score 1: a
    stored problem that repeats the query up to case, spacing and word order
    is a full match. *)
Theorem same_words_score_one (a b : string) :
  tokens a = tokens b -> tokens a <> ∅ ->
  exists s, _simple_similarity (JStr a) (JStr b) = Ok s /\ (s == 1)%Q.
Proof.
  intros Heq Hne. rewrite simple_similarity_words. eexists. split; [reflexivity|].
  unfold score_of_words. rewrite <- Heq. rewrite decide_False by tauto.
  pose proof (union_size_positive (tokens a) (tokens a) Hne) as Hu.
  rewrite (idemp_L (∩) (tokens a)). rewrite (idemp_L (∪) (tokens a)) in Hu |- *.
  unfold Qeq. simpl. rewrite Zpos_of_nat by done. lia.
Qed.

Lemma same_words_score_one_witness :
  exists s, _simple_similarity (JStr "Solve X squared") (JStr "squared  x solve") = Ok s
            /\ (s == 1)%Q.
Proof.
  apply (same_words_score_one "Solve X squared" "squared  x solve").
  - vm_compute. reflexivity.
  - vm_compute. discriminate.
Defined.

(** X5.  Two texts without a common word score 0. *)
Theorem disjoint_words_score_zero (a b : string) :
  tokens a ∩ tokens b = ∅ ->
  exists s, _simple_similarity (JStr a) (JStr b) = Ok s /\ (s == 0)%Q.
Proof.
  intros Hd. rewrite simple_similarity_words. eexists. split; [reflexivity|].
  unfold score_of_words. destruct (decide _); [done|].
  rewrite Hd, size_empty. unfold Qeq. simpl. lia.
Qed.

Lemma disjoint_words_score_zero_witness :
  exists s, _simple_similarity (JStr "solve quadratic") (JStr "integrate cosine") = Ok s
            /\ (s == 0)%Q.
Proof.
  apply (disjoint_words_score_zero "solve quadratic" "integrate cosine").
  vm_compute. reflexivity.
Defined.

(** ** Retrieval *)

Lemma scan_inv_list (q : json) (l : list json) (res : list (json * Q)) :
  scan q [] l = Ok res -> map fst res `sublist_of` l.
Proof. intros Hs. by apply scan_inv in Hs as (extra & -> & Hsub & _). Qed.

Lemma fmap_fst_sort_desc (similar : list (json * Q)) :
  map fst (sort_desc snd similar) ≡ₚ map fst similar.
Proof. apply Permutation_map, sort_desc_permutation. Qed.

(** X6.  Whatever the query and the limit, what [get_similar_problems]
    returns on a store that holds a list is made of stored records, each
    returned at most as many times as it is stored: the result is a
    sub-multiset of the stored sequence, so it is never longer than it. *)
Theorem results_are_stored_records (self : MemoryStore) (l : list json) (q : json)
    (limit : Z) (res : list json) :
  memories self = JList l ->
  get_similar_problems self q limit = Ok res ->
  res ⊆+ l /\ (forall r, r ∈ res -> r ∈ l) /\ (List.length res <= List.length l)%nat.
Proof.
  intros Hl Hres.
  assert (res ⊆+ l) as Hsub.
  { apply get_similar_problems_inv in Hres as [->|(items & similar & Hit & Hscan & ->)].
    { apply submseteq_nil_l. }
    rewrite Hl in Hit. injection Hit as <-.
    destruct (slice_to_take limit (sort_desc snd similar)) as (n & -> & _).
    etrans; [|apply sublist_submseteq, (scan_inv_list _ _ _ Hscan)].
    etrans; [|apply Permutation_submseteq, fmap_fst_sort_desc].
    apply sublist_submseteq. rewrite <- firstn_map. apply sublist_take. }
  split; [done|]. split.
  - intros r Hr. by apply (elem_of_submseteq res l r).
  - by apply submseteq_length.
Qed.

Lemma results_are_stored_records_witness :
  [case_record "r1" quadratic; case_record "r4" quadratic]
  ⊆+ [case_record "r1" quadratic; case_record "r2" "Solve  x squared";
      case_record "r3" "integrate cosine"; case_record "r4" quadratic].
Proof.
  apply (results_are_stored_records sample_store _ (JStr quadratic) 2
           [case_record "r1" quadratic; case_record "r4" quadratic]).
  - reflexivity.
  - vm_compute. reflexivity.
Defined.

Lemma visit_falsy_query (q : json) (acc : list (json * Q)) (d : list (string * json)) :
  truthy q = false -> visit q acc (JDict d) = Ok acc.
Proof.
  intros Hq. unfold visit. simpl.
  destruct (truthy (dict_get d "parsed_problem" JNull) && is_dict _) eqn:E; [|done].
  destruct (dict_get d "parsed_problem" JNull) as [| | | | | |p]; try by rewrite andb_false_r in E.
  simpl. destruct (truthy (dict_get p "problem_text" (JStr EmptyString))) eqn:Et; [|done].
  unfold _simple_similarity. rewrite Hq. simpl. done.
Qed.

(** X7.  A query that is empty or [None] matches nothing: on a store that
    holds a list of dicts the call returns the empty list, without reading
    the stored texts (so it does not raise even where a stored
    [problem_text] is not text). *)
Theorem empty_query_matches_nothing (self : MemoryStore) (l : list json) (q : json)
    (limit : Z) :
  memories self = JList l ->
  Forall (fun r => is_dict r = true) l ->
  truthy q = false ->
  get_similar_problems self q limit = Ok [].
Proof.
  intros Hl Hd Hq. unfold get_similar_problems. rewrite Hl.
  destruct (truthy (JList l)); simpl; [|done].
  assert (forall acc, scan q acc l = Ok acc) as ->.
  { clear Hl. induction Hd as [|r l Hr _ IH]; intros acc; simpl; [done|].
    destruct r; try discriminate. rewrite visit_falsy_query by done. apply IH. }
  simpl. unfold slice_to. simpl. by destruct (0 <=? limit)%Z; rewrite ?firstn_nil.
Qed.

Lemma empty_query_matches_nothing_witness :
  get_similar_problems sample_store (JStr EmptyString) 3 = Ok [] /\
  get_similar_problems
    (mkStore "memory/storage.json"
       (JList [JDict [("parsed_problem", JDict [("problem_text", JInt 7)])]]))
    JNull 3 = Ok [].
Proof.
  split.
  - apply (empty_query_matches_nothing sample_store _ (JStr EmptyString) 3 eq_refl).
    + repeat constructor.
    + reflexivity.
  - apply (empty_query_matches_nothing
             (mkStore "memory/storage.json"
                (JList [JDict [("parsed_problem", JDict [("problem_text", JInt 7)])]]))
             _ JNull 3 eq_refl).
    + repeat constructor.
    + reflexivity.
Defined.

(** X8.  With a smaller limit the call returns the beginning of what it
    returns with a larger one: for [0 <= k <= k'], the result for [k] is the
    first [k] records of the result for [k']. *)
Theorem smaller_limit_is_prefix (self : MemoryStore) (q : json) (k k' : Z)
    (res : list json) :
  (0 <= k <= k')%Z ->
  get_similar_problems self q k' = Ok res ->
  get_similar_problems self q k = Ok (firstn (Z.to_nat k) res).
Proof.
  intros Hk. unfold get_similar_problems.
  destruct (truthy (memories self)); simpl.
  2:{ intros [= <-]. by rewrite firstn_nil. }
  destruct (py_iter (memories self)) as [items|e]; simpl; [|discriminate].
  destruct (scan q [] items) as [similar|e]; simpl; [|discriminate].
  intros [= <-]. f_equal. unfold slice_to.
  replace (0 <=? k)%Z with true by lia. replace (0 <=? k')%Z with true by lia.
  rewrite <- firstn_map, <- (firstn_map _ (Z.to_nat k')), firstn_firstn.
  f_equal. lia.
Qed.

Lemma smaller_limit_is_prefix_witness :
  get_similar_problems sample_store (JStr quadratic) 1
  = Ok (firstn (Z.to_nat 1)
          [case_record "r1" quadratic; case_record "r4" quadratic;
           case_record "r2" "Solve  x squared"]).
Proof.
  apply (smaller_limit_is_prefix sample_store (JStr quadratic) 1 3).
  - lia.
  - vm_compute. reflexivity.
Defined.

Lemma visit_shift (q : json) (acc : list (json * Q)) (m : json) :
  visit q acc m = (x ← visit q [] m; Ok (acc ++ x)).
Proof.
  unfold visit. destruct (py_get m "parsed_problem" JNull) as [parsed|e]; simpl; [|done].
  destruct (truthy parsed && is_dict parsed); simpl; [|by rewrite app_nil_r].
  destruct (py_get parsed "problem_text" (JStr EmptyString)) as [stored|e]; simpl; [|done].
  destruct (truthy stored); simpl; [|by rewrite app_nil_r].
  destruct (_simple_similarity q stored) as [s|e]; simpl; [|done].
  destruct (Qgt_bool s (3 # 10)); simpl; [done|by rewrite app_nil_r].
Qed.

Lemma scan_keeps (q : json) (items : list json) (acc res : list (json * Q))
    (m : json) (x : list (json * Q)) (y : json * Q) :
  scan q acc items = Ok res -> m ∈ items -> visit q [] m = Ok x -> y ∈ x -> y ∈ res.
Proof.
  revert acc. induction items as [|m' items IH]; intros acc Hscan Hm Hx Hy.
  - by apply not_elem_of_nil in Hm.
  - simpl in Hscan.
    destruct (visit q acc m') as [acc'|e] eqn:Ev; simpl in Hscan; [|discriminate].
    apply elem_of_cons in Hm as [->|Hm]; [|by apply (IH acc')].
    rewrite visit_shift, Hx in Ev. simpl in Ev. injection Ev as <-.
    apply scan_inv in Hscan as (extra & -> & _).
    apply elem_of_app. left. apply elem_of_app. by right.
Qed.

Lemma visit_match (q t : string) (r : json) :
  problem_text_of r = Some t -> (3 # 10 < jaccard q t)%Q ->
  exists s, visit (JStr q) [] r = Ok [(r, s)].
Proof.
  intros Ht Hj. unfold problem_text_of in Ht.
  destruct r as [| | | | | |d]; try discriminate.
  destruct (dict_lookup "parsed_problem" d) as [[| | | | | |p]|] eqn:Ep; try discriminate.
  destruct (dict_lookup "problem_text" p) as [[| | | |t'| |]|] eqn:Et; try discriminate.
  injection Ht as ->.
  assert (t <> EmptyString) as Hne.
  { intros ->. unfold jaccard in Hj. rewrite decide_True in Hj by (right; reflexivity).
    by apply Qlt_irrefl in Hj || (revert Hj; apply Qle_not_lt; unfold Qle; simpl; lia). }
  unfold visit, py_get, dict_get. cbn -[dict_lookup _simple_similarity]. rewrite Ep.
  destruct p as [|kv p']; [discriminate|].
  cbn -[dict_lookup _simple_similarity]. rewrite Et.
  cbn -[dict_lookup _simple_similarity].
  assert (String.eqb t EmptyString = false) as -> by (by apply String.eqb_neq).
  cbn -[dict_lookup _simple_similarity].
  destruct (simple_similarity_jaccard q t) as (s & -> & Hs).
  cbn -[dict_lookup]. exists s.
  assert (Qgt_bool s (3 # 10) = true) as ->; [|done].
  apply Qgt_bool_lt. by rewrite Hs.
Qed.

(** X9.  Nothing that matches is left out when the limit allows it: on a
    store that holds a list of readable records, with a limit at least the
    number of stored records, every stored record whose text has a Jaccard
    index with the query above 3/10 is returned. *)
Theorem matching_records_are_returned (self : MemoryStore) (l : list json) (q t : string)
    (limit : Z) (r : json) :
  memories self = JList l ->
  Forall readable l ->
  (Z.of_nat (List.length l) <= limit)%Z ->
  r ∈ l -> problem_text_of r = Some t -> (3 # 10 < jaccard q t)%Q ->
  exists res, get_similar_problems self (JStr q) limit = Ok res /\ r ∈ res.
Proof.
  intros Hl Hread Hlimit Hr Ht Hj.
  destruct (scan_readable q l [] Hread) as [similar Hscan].
  destruct (visit_match q t r Ht Hj) as [s Hv].
  assert ((r, s) ∈ similar) as Hin.
  { apply (scan_keeps _ _ _ _ r [(r, s)] (r, s) Hscan Hr Hv). by left. }
  unfold get_similar_problems. rewrite Hl.
  destruct l as [|r0 l0]; [by apply not_elem_of_nil in Hr|].
  simpl truthy. simpl negb. cbv iota. simpl py_iter.
  change (mbind ?f (Ok ?x)) with (f x). cbv beta. rewrite Hscan.
  change (mbind ?f (Ok ?x)) with (f x). cbv beta.
  eexists. split; [reflexivity|].
  unfold slice_to. replace (0 <=? limit)%Z with true by lia.
  rewrite firstn_all2.
  - apply (list_elem_of_fmap_2' fst _ (r, s)); [|done].
    by apply elem_of_sort_desc.
  - rewrite (Permutation_length (sort_desc_permutation snd similar)).
    pose proof (sublist_length _ _ (scan_inv_list _ _ _ Hscan)) as Hlen.
    rewrite length_map in Hlen. lia.
Qed.

Lemma matching_records_are_returned_witness :
  exists res, get_similar_problems sample_store (JStr "x squared") 4 = Ok res /\
              case_record "r2" "Solve  x squared" ∈ res.
Proof.
  apply (matching_records_are_returned sample_store _ "x squared" "Solve  x squared" 4
           (case_record "r2" "Solve  x squared") eq_refl).
  - repeat constructor; eexists; (split; [reflexivity|]);
      intros p [= <-] _; eexists; reflexivity.
  - simpl. lia.
  - set_solver.
  - reflexivity.
  - vm_compute. reflexivity.
Defined.

(** * Further properties of persistence *)

Section PersistenceExtras.
Context `{lib : JsonLib} `{clock : Clock}.

Lemma load_memories_world (self : MemoryStore) (w : World) :
  disk (snd (load_memories self w)) = disk w /\
  tick (snd (load_memories self w)) = tick w /\
  exists m, console (snd (load_memories self w)) = console w ++ [m].
Proof.
  unfold load_memories.
  destruct (path_exists (disk w)); [|simpl; eauto].
  destruct (_ ≫= _) as [[data n]|e]; [simpl; eauto|].
  destruct (exc_type e); simpl; eauto.
Qed.

Lemma load_memories_has_len (self : MemoryStore) (w : World) :
  has_len (fst (load_memories self w)) = true.
Proof.
  unfold load_memories.
  destruct (path_exists (disk w)); [|done].
  destruct (read_file (disk w)) as [text|e]; simpl; [|by destruct (exc_type e)].
  destruct (json_load text) as [v|e]; simpl; [|by destruct (exc_type e)].
  destruct v; simpl; done.
Qed.

Lemma init_run (path : string) (w : World) :
  dir_ok (disk w) = true ->
  MemoryStore_init path w
  = Ok (mkStore path (fst (load_memories (mkStore path JNull) w)),
        snd (load_memories (mkStore path JNull) w)).
Proof.
  intros Hd. unfold MemoryStore_init, makedirs. rewrite Hd. simpl.
  by destruct (load_memories _ w).
Qed.

Lemma load_memories_path (self self' : MemoryStore) (w : World) :
  fst (load_memories self w) = fst (load_memories self' w).
Proof.
  unfold load_memories.
  destruct (path_exists (disk w)); [|done].
  destruct (_ ≫= _) as [[data n]|e]; [done|]. by destruct (exc_type e).
Qed.

(** X10.  A backing file that holds a JSON object or a JSON string (a value
    with a length that is not a list) is accepted by the constructor and then
    disables the store: every [store_interaction] raises [AttributeError]
    and leaves the sequence and the file as they are, and, unless the value
    is empty, every [get_similar_problems] raises [AttributeError]. *)
Theorem wrong_shape_file_disables_store (path text : string) (w : World) (v : json) :
  dir_ok (disk w) = true ->
  node (disk w) = File text ->
  json_load text = Ok v ->
  has_len v = true -> is_list v = false ->
  exists self w',
    MemoryStore_init path w = Ok (self, w') /\
    memories self = v /\
    (forall data w2, exists e,
       store_interaction self data w2 = (Raise e, self, advance w2) /\
       exc_type e = AttributeError) /\
    (forall q limit, truthy v = true -> exists e,
       get_similar_problems self q limit = Raise e /\ exc_type e = AttributeError).
Proof.
  intros Hd Hn Hv Hlen Hlist. rewrite (init_run path w Hd).
  eexists _, _. split; [reflexivity|].
  assert (fst (load_memories (mkStore path JNull) w) = v) as Hload.
  { rewrite (load_memories_file _ w text Hn), Hv. by rewrite Hlen. }
  split; [exact Hload|]. rewrite Hload. split.
  - intros data w2. unfold store_interaction. simpl memories.
    destruct (make_memory _ _ data) as [memory|e] eqn:Em; simpl.
    + destruct v; try discriminate; simpl; eexists; split; reflexivity.
    + exists e. split; [done|].
      unfold make_memory in Em. destruct data; simpl in Em; try by injection Em as <-.
      discriminate.
  - intros q limit Ht. unfold get_similar_problems. simpl memories. rewrite Ht. simpl.
    destruct v as [| | | |s| |d]; try discriminate.
    + destruct s as [|c s]; [discriminate|]. simpl. eexists. split; reflexivity.
    + destruct d as [|[k x] d]; [discriminate|]. simpl. eexists. split; reflexivity.
Qed.

(** X11.  A record appended while the storage can be written survives a
    restart: a store constructed afterwards on the same path holds the
    sequence the first store has in memory, provided the JSON library reads
    back what it wrote for that sequence. *)
Theorem append_survives_restart (self : MemoryStore) (l : list json)
    (d : list (string * json)) (w : World) :
  memories self = JList l ->
  can_persist (disk w) = true ->
  json_load (json_dump
               (JList (l ++ [record_from (uuid4 (tick w)) (now_isoformat (tick w)) d])))
  = Ok (JList (l ++ [record_from (uuid4 (tick w)) (now_isoformat (tick w)) d])) ->
  exists id self' w' restarted w'',
    store_interaction self (JDict d) w = (Ok id, self', w') /\
    MemoryStore_init (storage_path self) w' = Ok (restarted, w'') /\
    memories restarted = memories self' /\
    memories restarted = JList (l ++ [record_from id (now_isoformat (tick w)) d]).
Proof.
  intros Hl Hp Hrt. rewrite (store_interaction_list self l d w Hl). cbv zeta.
  set (memory := record_from _ _ d) in *.
  set (self' := mkStore (storage_path self) (JList (l ++ [memory]))).
  rewrite <- can_persist_advance in Hp.
  rewrite (save_memories_persist self' (l ++ [memory]) (advance w) eq_refl Hp). simpl.
  set (w' := say (MsgStored (uuid4 (tick w))) _).
  assert (dir_ok (disk w') = true) as Hd by reflexivity.
  assert (fst (load_memories (mkStore (storage_path self) JNull) w') = JList (l ++ [memory]))
    as Hload.
  { rewrite (load_memories_file _ w' (json_dump (JList (l ++ [memory]))) eq_refl).
    by rewrite Hrt. }
  exists (uuid4 (tick w)), self', w'. rewrite (init_run _ w' Hd).
  eexists _, _. split; [reflexivity|]. split; [reflexivity|].
  simpl memories. by rewrite Hload.
Qed.

Lemma load_memories_same_disk (self : MemoryStore) (w w' : World) :
  disk w' = disk w -> fst (load_memories self w') = fst (load_memories self w).
Proof.
  intros Hd. unfold load_memories. rewrite Hd.
  destruct (path_exists (disk w)); [|done].
  destruct (_ ≫= _) as [[data n]|e']; [done|]. by destruct (exc_type e').
Qed.

(** X12.  A record appended while the save fails is not kept for a restart:
    the call returns its identifier and the in-memory sequence has the
    record.  When the file could not be opened it is as it was, and a store
    constructed afterwards holds what a store constructed before the call
    would have held.  When the write failed once the file was open (the
    device does not take the text), the file holds only the beginning of the
    new text, and a store constructed afterwards is empty if that beginning
    does not parse: the records of before are lost as well. *)
Theorem failed_append_is_lost_at_restart (self : MemoryStore) (l : list json)
    (d : list (string * json)) (w : World) :
  memories self = JList l ->
  exists id memory self' w',
    memory = record_from id (now_isoformat (tick w)) d /\
    store_interaction self (JDict d) w = (Ok id, self', w') /\
    memories self' = JList (l ++ [memory]) /\
    (can_open (disk w) = false ->
       disk w' = disk w /\
       forall path restarted w1,
         MemoryStore_init path w' = Ok (restarted, w1) ->
         exists earlier w0,
           MemoryStore_init path w = Ok (earlier, w0) /\
           memories restarted = memories earlier) /\
    (can_open (disk w) = true ->
     takes (json_dump (JList (l ++ [memory]))) (disk w) = false ->
       exists k,
         capacity (disk w) = Some k /\
         node (disk w') = File (substring 0 k (json_dump (JList (l ++ [memory])))) /\
         forall path restarted w1 e,
           MemoryStore_init path w' = Ok (restarted, w1) ->
           json_load (substring 0 k (json_dump (JList (l ++ [memory])))) = Raise e ->
           memories restarted = JList []).
Proof.
  intros Hl. rewrite (store_interaction_list self l d w Hl). cbv zeta.
  set (memory := record_from _ _ d) in *.
  set (self' := mkStore (storage_path self) (JList (l ++ [memory]))).
  eexists _, memory, _, _. split; [reflexivity|]. split; [reflexivity|].
  split; [reflexivity|]. split.
  - intros Ho. change (disk w) with (disk (advance w)) in Ho.
    destruct (save_memories_closed self' (advance w) Ho) as [e ->]. simpl.
    split; [reflexivity|].
    intros path restarted w1. unfold MemoryStore_init, makedirs. simpl.
    destruct (dir_ok (disk w)); [|discriminate]. simpl.
    set (w' := say MsgStoreFailed (say (MsgSaveError e) (advance w))).
    pose proof (load_memories_same_disk (mkStore path JNull) w w' eq_refl) as Hsame.
    destruct (load_memories (mkStore path JNull) w') as [d1 w1'].
    destruct (load_memories (mkStore path JNull) w) as [d2 w2].
    simpl in Hsame. subst d2. intros [= <- <-]. by eexists _, _.
  - intros Ho Ht. change (disk w) with (disk (advance w)) in Ho, Ht.
    destruct (save_memories_full self' (advance w) Ho Ht) as (e & k & Hk & ->). simpl.
    exists k. split; [exact Hk|]. split; [reflexivity|].
    intros path restarted w1 e' Hinit Hbad.
    unfold MemoryStore_init, makedirs in Hinit. simpl in Hinit.
    set (w' := say MsgStoreFailed _) in Hinit.
    pose proof (load_memories_file (mkStore path JNull) w' _ eq_refl) as Hf.
    simpl memories in Hf. rewrite Hbad in Hf.
    destruct (load_memories (mkStore path JNull) w') as [d1 w1']. simpl in Hf.
    injection Hinit as <- _. exact Hf.
Qed.

(** X13.  A backing file that cannot be parsed stays on disk when the store
    is constructed (the store starts empty), and the first append on
    writable storage replaces it: the file then holds the one new record and
    the earlier content is gone. *)
Theorem corrupt_file_is_replaced_by_first_append (path text : string) (w : World)
    (e : exn) (d : list (string * json)) :
  can_persist (disk w) = true ->
  node (disk w) = File text ->
  json_load text = Raise e ->
  exists self w1 id self' w2,
    MemoryStore_init path w = Ok (self, w1) /\
    memories self = JList [] /\
    disk w1 = disk w /\
    store_interaction self (JDict d) w1 = (Ok id, self', w2) /\
    node (disk w2) = File (json_dump (JList [record_from id (now_isoformat (tick w)) d])).
Proof.
  intros Hp Hn He.
  assert (dir_ok (disk w) = true) as Hd.
  { unfold can_persist, can_open in Hp. by destruct (dir_ok (disk w)). }
  rewrite (init_run path w Hd).
  destruct (load_memories_world (mkStore path JNull) w) as (Hdisk & Htick & _).
  assert (fst (load_memories (mkStore path JNull) w) = JList []) as Hload.
  { by rewrite (load_memories_file _ w text Hn), He. }
  eexists _, _. rewrite Hload.
  set (w1 := snd (load_memories (mkStore path JNull) w)) in *.
  rewrite (store_interaction_list (mkStore path (JList [])) [] d w1 eq_refl). cbv zeta.
  assert (can_persist (disk (advance w1)) = true) as Hp1.
  { rewrite can_persist_advance. by rewrite Hdisk. }
  rewrite (save_memories_persist
             (mkStore path (JList ([] ++ [record_from (uuid4 (tick w1))
                                                     (now_isoformat (tick w1)) d])))
             _ (advance w1) eq_refl Hp1). simpl.
  eexists _, _, _. split; [reflexivity|]. split; [reflexivity|]. split; [exact Hdisk|].
  split; [reflexivity|]. simpl. by rewrite Htick.
Qed.

(** X14.  The sidebar never fails to count: what [load_memories] returns
    always has a length, so the [except] branch of the "System Stats" block
    is not taken.  The number shown is the length of what the backing file
    holds (0 when it is missing, unreadable, unparsable or a number), and
    the block leaves the file as it is. *)
Theorem sidebar_count_is_of_the_file (self : MemoryStore) (w : World) :
  exists n,
    fst (sidebar_stats self w)
    = [Sb_header "System Stats"; Sb_metric "Total Problems Solved" n] /\
    py_len (fst (load_memories self w)) = Ok n /\
    disk (snd (sidebar_stats self w)) = disk w /\
    (forall text v, node (disk w) = File text -> json_load text = Ok (JList v) ->
       n = List.length v) /\
    (node (disk w) = NoFile -> n = 0%nat).
Proof.
  unfold sidebar_stats.
  pose proof (load_memories_has_len self w) as Hlen.
  pose proof (load_memories_world self w) as (Hdisk & _).
  destruct (load_memories self w) as [data w'] eqn:El. simpl in *.
  destruct (py_len data) as [n|e] eqn:En; [|by destruct data].
  exists n. split; [done|]. split; [done|]. split; [done|]. split.
  - intros text v Hn Hv.
    pose proof (load_memories_file self w text Hn) as Hf.
    rewrite El, Hv in Hf. simpl in Hf. subst data. simpl in En. by injection En.
  - intros Hn. unfold load_memories, path_exists in El. rewrite Hn in El.
    injection El as <- _. simpl in En. by injection En.
Qed.

(** X15.  The count of the sidebar follows the file, not the in-memory
    sequence.  After an append whose save failed because the file could not
    be opened, the store holds one more record than the sidebar shows: the
    sidebar still counts the records of the file.  After an append whose
    write failed once the file was open, the file holds the beginning of
    the new text, and the sidebar shows 0 when that does not parse, whatever
    the store holds. *)
Theorem sidebar_misses_unsaved_record (self : MemoryStore) (l : list json)
    (d : list (string * json)) (w : World) :
  memories self = JList l ->
  exists id memory self' w',
    memory = record_from id (now_isoformat (tick w)) d /\
    store_interaction self (JDict d) w = (Ok id, self', w') /\
    py_len (get_all_memories self') = Ok (S (List.length l)) /\
    (forall text old,
       can_open (disk w) = false ->
       node (disk w) = File text -> json_load text = Ok (JList old) ->
       fst (sidebar_stats self' w')
       = [Sb_header "System Stats";
          Sb_metric "Total Problems Solved" (List.length old)]) /\
    (forall k e,
       can_open (disk w) = true -> capacity (disk w) = Some k ->
       (k < String.length (json_dump (JList (l ++ [memory]))))%nat ->
       json_load (substring 0 k (json_dump (JList (l ++ [memory])))) = Raise e ->
       fst (sidebar_stats self' w')
       = [Sb_header "System Stats"; Sb_metric "Total Problems Solved" 0]).
Proof.
  intros Hl. rewrite (store_interaction_list self l d w Hl). cbv zeta.
  set (memory := record_from _ _ d) in *.
  set (self' := mkStore (storage_path self) (JList (l ++ [memory]))).
  eexists _, memory, _, _. split; [reflexivity|]. split; [reflexivity|]. split.
  { unfold get_all_memories. simpl. rewrite length_app. simpl. f_equal. lia. }
  split.
  - intros text old Ho Hn Hv. change (disk w) with (disk (advance w)) in Ho.
    destruct (save_memories_closed self' (advance w) Ho) as [e ->]. simpl.
    unfold sidebar_stats.
    set (w' := say MsgStoreFailed (say (MsgSaveError e) (advance w))).
    pose proof (load_memories_file self' w' text Hn) as Hf. rewrite Hv in Hf. simpl in Hf.
    destruct (load_memories self' w') as [data w'']. simpl in Hf. subst data. done.
  - intros k e Ho Hc Hk Hbad. change (disk w) with (disk (advance w)) in Ho.
    assert (Ht : takes (json_dump (memories self')) (disk (advance w)) = false).
    { unfold takes. simpl. rewrite Hc. by apply Nat.leb_gt. }
    destruct (save_memories_full self' (advance w) Ho Ht) as (e' & k' & Hk' & ->).
    simpl in Hk'. rewrite Hc in Hk'. injection Hk' as <-. simpl.
    unfold sidebar_stats.
    set (w' := say MsgStoreFailed _).
    pose proof (load_memories_file self' w' _ eq_refl) as Hf.
    simpl memories in Hf. rewrite Hbad in Hf.
    destruct (load_memories self' w') as [data w'']. simpl in Hf. subst data. done.
Qed.

(** X16.  The "Reset Memory" button reports success whatever happened to
    the file: it always displays the success message and asks for a rerun
    with the in-memory sequence emptied.  When the file cannot be opened it
    is left as it was, so the count shown by the next run is the one of the
    records still in the file; when the write fails once the file is open,
    the file holds only the beginning of the text of the empty list. *)
Theorem reset_button_always_reports_success (self : MemoryStore) (w : World) :
  exists self' w',
    sidebar_reset true self w
    = ([Sb_button "Reset Memory" "reset_memory_btn";
        Sb_success "Memory cleared successfully!"], self', w', true) /\
    memories self' = JList [] /\
    (can_open (disk w) = false ->
     disk w' = disk w /\
     fst (sidebar_stats self' w') = fst (sidebar_stats self w)) /\
    (can_open (disk w) = true -> takes (json_dump (JList [])) (disk w) = false ->
     exists k, capacity (disk w) = Some k /\
               node (disk w') = File (substring 0 k (json_dump (JList [])))).
Proof.
  unfold sidebar_reset, clear_memories.
  set (empty := mkStore (storage_path self) (JList [])).
  destruct (save_memories empty w) as [success w1] eqn:Hsave.
  eexists _, _. split; [reflexivity|]. split; [reflexivity|]. split.
  - intros Hp. destruct (save_memories_closed empty w Hp) as [e He].
    rewrite He in Hsave. injection Hsave as <- <-. simpl. split; [done|].
    unfold sidebar_stats.
    pose proof (load_memories_same_disk empty w (say (MsgSaveError e) w) eq_refl) as Hsame.
    rewrite (load_memories_reader self empty w) in Hsame.
    destruct (load_memories empty (say (MsgSaveError e) w)) as [d1 w1].
    destruct (load_memories self w) as [d2 w2]. simpl in Hsame. subst d2.
    by destruct (py_len d1).
  - intros Ho Ht. destruct (save_memories_full empty w Ho Ht) as (e & k & Hk & He).
    rewrite He in Hsave. injection Hsave as <- <-. simpl. by exists k.
Qed.

End PersistenceExtras.

Lemma wrong_shape_file_disables_store_witness :
  exists self w',
    MemoryStore_init "memory/storage.json"
      (mkWorld (mkDisk (File (MiniJson.dumps (JDict [("version", JInt 2)]))) true true None)
         [] 0)
    = Ok (self, w') /\
    memories self = JDict [("version", JInt 2)] /\
    (forall data w2, exists e,
       store_interaction self data w2 = (Raise e, self, advance w2) /\
       exc_type e = AttributeError) /\
    (forall q limit, truthy (JDict [("version", JInt 2)]) = true -> exists e,
       get_similar_problems self q limit = Raise e /\ exc_type e = AttributeError).
Proof.
  apply (wrong_shape_file_disables_store (lib := mini_json) (clock := sample_clock)
           "memory/storage.json" (MiniJson.dumps (JDict [("version", JInt 2)]))).
  - reflexivity.
  - reflexivity.
  - vm_compute. reflexivity.
  - reflexivity.
  - reflexivity.
Defined.

Lemma append_survives_restart_witness :
  exists id self' w' restarted w'',
    store_interaction sample_store (sample_data "correct") fresh_world = (Ok id, self', w') /\
    MemoryStore_init (storage_path sample_store) w' = Ok (restarted, w'') /\
    memories restarted = memories self' /\
    memories restarted
    = JList ([case_record "r1" quadratic; case_record "r2" "Solve  x squared";
              case_record "r3" "integrate cosine"; case_record "r4" quadratic]
             ++ [record_from id (now_isoformat (tick fresh_world))
                   [("original_input", JStr quadratic);
                    ("input_type", JStr "text");
                    ("parsed_problem",
                     JDict [("problem_text", JStr quadratic); ("topic", JStr "algebra")]);
                    ("solution", JStr "x = 2");
                    ("verification",
                     JDict [("is_correct", JBool true); ("issues", JList [])]);
                    ("feedback", JStr "correct")]]).
Proof.
  apply (append_survives_restart (lib := mini_json) (clock := sample_clock)
           sample_store _ _ fresh_world eq_refl).
  - reflexivity.
  - vm_compute. reflexivity.
Defined.

Lemma failed_append_is_lost_at_restart_witness :
  let w := small_world "[]" 5 in
  exists id memory self' w',
    store_interaction (mkStore "memory/storage.json" (JList [])) (sample_data "correct") w
    = (Ok id, self', w') /\
    memories self' = JList [memory] /\
    node (disk w') = File (substring 0 5 (json_dump (JList [memory]))) /\
    forall path restarted w1,
      MemoryStore_init path w' = Ok (restarted, w1) -> memories restarted = JList [].
Proof.
  intros w.
  destruct (failed_append_is_lost_at_restart (lib := mini_json) (clock := sample_clock)
              (mkStore "memory/storage.json" (JList []))
              []
              [("original_input", JStr quadratic);
               ("input_type", JStr "text");
               ("parsed_problem",
                JDict [("problem_text", JStr quadratic); ("topic", JStr "algebra")]);
               ("solution", JStr "x = 2");
               ("verification", JDict [("is_correct", JBool true); ("issues", JList [])]);
               ("feedback", JStr "correct")]
              w eq_refl)
    as (id & memory & self' & w' & Hm & Hrun & Hmem & _ & Hfull).
  destruct (Hfull eq_refl) as (k & Hk & Hn & Hrestart).
  { rewrite Hm. vm_compute. reflexivity. }
  injection Hk as <-.
  exists id, memory, self', w'. split; [exact Hrun|]. split; [exact Hmem|].
  split; [exact Hn|].
  intros path restarted w1 Hinit.
  apply (Hrestart path restarted w1 MiniJson.decode_error Hinit).
  rewrite Hm.
  assert (id = "uuid-0") as ->.
  { vm_compute in Hrun. by injection Hrun. }
  vm_compute. reflexivity.
Defined.

Lemma corrupt_file_is_replaced_by_first_append_witness :
  exists self w1 id self' w2,
    MemoryStore_init "memory/storage.json"
      (mkWorld (mkDisk (File "[{ not json") true true None) [] 0) = Ok (self, w1) /\
    memories self = JList [] /\
    disk w1 = mkDisk (File "[{ not json") true true None /\
    store_interaction self (JDict [("feedback", JStr "correct")]) w1 = (Ok id, self', w2) /\
    node (disk w2)
    = File (json_dump (JList [record_from id (now_isoformat 0)
                                [("feedback", JStr "correct")]])).
Proof.
  apply (corrupt_file_is_replaced_by_first_append (lib := mini_json) (clock := sample_clock)
           "memory/storage.json" "[{ not json"
           (mkWorld (mkDisk (File "[{ not json") true true None) [] 0)
           MiniJson.decode_error [("feedback", JStr "correct")]).
  - reflexivity.
  - reflexivity.
  - vm_compute. reflexivity.
Defined.

Lemma sidebar_misses_unsaved_record_witness :
  exists id self' w',
    store_interaction (mkStore "memory/storage.json" (JList [])) (sample_data "correct")
      (readonly_world "[]") = (Ok id, self', w') /\
    py_len (get_all_memories self') = Ok 1%nat /\
    fst (sidebar_stats self' w')
    = [Sb_header "System Stats"; Sb_metric "Total Problems Solved" 0].
Proof.
  destruct (sidebar_misses_unsaved_record (lib := mini_json) (clock := sample_clock)
           (mkStore "memory/storage.json" (JList [])) []
           [("original_input", JStr quadratic);
            ("input_type", JStr "text");
            ("parsed_problem",
             JDict [("problem_text", JStr quadratic); ("topic", JStr "algebra")]);
            ("solution", JStr "x = 2");
            ("verification", JDict [("is_correct", JBool true); ("issues", JList [])]);
            ("feedback", JStr "correct")]
           (readonly_world "[]") eq_refl)
    as (id & memory & self' & w' & _ & Hrun & Hlen & Hclosed & _).
  exists id, self', w'. split; [exact Hrun|]. split; [exact Hlen|].
  apply (Hclosed "[]" []); [reflexivity | reflexivity | vm_compute; reflexivity].
Defined.

(** * Further properties of the solve pipeline *)

Section PipelineExtras.
Context `{lib : JsonLib} `{clock : Clock} `{agents : Agents}.

Lemma step_script {A B : Type} (r : result A) (k : A -> M B) (a1 a' : App) (o : outcome B) :
  (script r ≫= k) a1 = (o, a') ->
  a' = a1 \/ exists x, k x a1 = (o, a').
Proof.
  rewrite bind_run. unfold script. destruct r as [x|e]; [eauto|].
  intros [= <- <-]. by left.
Qed.

Lemma step_quiet {A B : Type} (m : M A) (k : A -> M B) (a a1 a' : App)
    (st : list stage) (evs : list ui_event) (o : outcome B) :
  quiet m ->
  (m ≫= k) a1 = (o, a') -> advanced a a1 st evs ->
  (exists evs', advanced a a' st evs') \/
  (exists x a2 evs', advanced a a2 st evs' /\ k x a2 = (o, a')).
Proof.
  intros Hq. rewrite bind_run. destruct (m a1) as [[x|f e'] a2] eqn:E;
    intros Hrun Hadv; destruct (Hq _ _ _ E) as [[evs' H2] _];
    pose proof (advanced_trans a a1 a2 st [] evs evs' Hadv H2) as H3;
    rewrite app_nil_r in H3.
  - right. by exists x, a2, (evs ++ evs').
  - left. injection Hrun as <- <-. by exists (evs ++ evs').
Qed.

Lemma step_call {B : Type} (s' : stage) (r : result json) (k : json -> M B) (a a1 a' : App)
    (st : list stage) (evs : list ui_event) (o : outcome B) :
  (call s' r ≫= k) a1 = (o, a') -> advanced a a1 st evs ->
  advanced a a' (st ++ [s']) evs \/
  (exists x a2, advanced a a2 (st ++ [s']) evs /\ k x a2 = (o, a')).
Proof.
  rewrite bind_run. unfold call. intros Hrun (Hm & Hw & Hi & Hs).
  destruct r as [x|e'].
  - right. eexists x, _. split; [|exact Hrun]. unfold advanced. simpl.
    by rewrite Hm, Hw, Hi, Hs, app_assoc.
  - left. injection Hrun as <- <-. unfold advanced. simpl.
    by rewrite Hm, Hw, Hi, Hs, app_assoc.
Qed.

(** X17.  In every run of the pipeline the agents are called in the order
    parse, solve, verify, explain, each at most once, the run stopping after
    some of them; and the store or the backing file can only have changed in
    a run in which all four agents were called.  A record is never written
    for a trace that is not complete. *)
Theorem records_only_after_all_stages (raw_input input_type : string) (wd : Widgets)
    (a a' : App) (o : outcome unit) :
  pipeline raw_input input_type wd a = (o, a') ->
  (exists k, invoked a' = invoked a ++ firstn k all_stages) /\
  ((memory a' = memory a /\ world a' = world a) \/ invoked a' = invoked a ++ all_stages).
Proof.
  intros Hrun.
  assert ((exists k evs, advanced a a' (firstn k all_stages) evs) \/
          invoked a' = invoked a ++ all_stages) as [(k & evs & Hm & Hw & Hi & _)|Hall].
  { unfold pipeline in Hrun.
    destruct (peel_emit _ _ a a [] [] _ Hrun (advanced_refl a)) as (a1 & Ha1 & Hrun1).
    clear Hrun.
    destruct (step_call _ _ _ _ _ _ _ _ _ Hrun1 Ha1) as [Hadv|(parsed & a2 & Ha2 & Hrun2)].
    { left. by exists 1%nat, ([] ++ [header Parse]). }
    destruct (step_quiet _ _ _ _ _ _ _ _ (quiet_show_parsed parsed) Hrun2 Ha2)
      as [[ev Hadv]|(_ & a3 & ev3 & Ha3 & Hrun3)].
    { left. by exists 1%nat, ev. }
    destruct (step_quiet _ _ _ _ _ _ _ _ (quiet_show_similar raw_input parsed) Hrun3 Ha3)
      as [[ev Hadv]|(_ & a4 & ev4 & Ha4 & Hrun4)].
    { left. by exists 1%nat, ev. }
    destruct (peel_emit _ _ _ _ _ _ _ Hrun4 Ha4) as (a5 & Ha5 & Hrun5).
    destruct (step_call _ _ _ _ _ _ _ _ _ Hrun5 Ha5) as [Hadv|(solution & a6 & Ha6 & Hrun6)].
    { left. by exists 2%nat, (ev4 ++ [header Solve]). }
    destruct (step_quiet _ _ _ _ _ _ _ _ (quiet_show_context solution) Hrun6 Ha6)
      as [[ev Hadv]|(_ & a7 & ev7 & Ha7 & Hrun7)].
    { left. by exists 2%nat, ev. }
    destruct (peel_emit _ _ _ _ _ _ _ Hrun7 Ha7) as (a8 & Ha8 & Hrun8).
    apply step_script in Hrun8 as [->|(problem_text & Hrun8)].
    { left. by exists 2%nat, (ev7 ++ [header Verify]). }
    apply step_script in Hrun8 as [->|(llm_solution & Hrun8)].
    { left. by exists 2%nat, (ev7 ++ [header Verify]). }
    destruct (step_call _ _ _ _ _ _ _ _ _ Hrun8 Ha8)
      as [Hadv|(verification & a9 & Ha9 & Hrun9)].
    { left. by exists 3%nat, (ev7 ++ [header Verify]). }
    destruct (step_quiet _ _ _ _ _ _ _ _ (quiet_show_verification verification) Hrun9 Ha9)
      as [[ev Hadv]|(_ & a10 & ev10 & Ha10 & Hrun10)].
    { left. by exists 3%nat, ev. }
    destruct (peel_emit _ _ _ _ _ _ _ Hrun10 Ha10) as (a11 & Ha11 & Hrun11).
    apply step_script in Hrun11 as [->|(problem_text' & Hrun11)].
    { left. by exists 3%nat, (ev10 ++ [header Explain]). }
    apply step_script in Hrun11 as [->|(llm_solution' & Hrun11)].
    { left. by exists 3%nat, (ev10 ++ [header Explain]). }
    destruct (step_call _ _ _ _ _ _ _ _ _ Hrun11 Ha11)
      as [Hadv|(explanation & a12 & Ha12 & Hrun12)].
    { left. by exists 4%nat, (ev10 ++ [header Explain]). }
    destruct (step_quiet _ _ _ _ _ _ _ _
                (quiet_show_explanation solution explanation) Hrun12 Ha12)
      as [[ev Hadv]|(_ & a13 & ev13 & Ha13 & Hrun13)].
    { left. by exists 4%nat, ev. }
    right. apply offstage_feedback_section in Hrun13 as [Hinv _].
    destruct Ha13 as (_ & _ & Hi & _). by rewrite Hinv, Hi. }
  - split; [by exists k|]. by left.
  - split; [by exists 4%nat|]. by right.
Qed.

Lemma readonly_quiet {A : Type} (m : M A) : quiet m -> readonly m.
Proof.
  intros Hq a o a' Hrun. by destruct (Hq _ _ _ Hrun) as [[evs (Hm & Hw & _)] _].
Qed.

Lemma readonly_bind {A B : Type} (m : M A) (k : A -> M B) :
  readonly m -> (forall x, readonly (k x)) -> readonly (m ≫= k).
Proof.
  intros Hm Hk a o a'. rewrite bind_run.
  destruct (m a) as [[x|f e] a1] eqn:E.
  - intros Hrun. destruct (Hm _ _ _ E) as [H1 H2].
    destruct (Hk x _ _ _ Hrun) as [H3 H4]. split; congruence.
  - intros [= <- <-]. by apply (Hm _ _ _ E).
Qed.

Lemma readonly_call (s : stage) (r : result json) : readonly (call s r).
Proof. intros a o a' [= <- <-]. done. Qed.

Lemma readonly_set_form (b : bool) : readonly (set_form b).
Proof. intros a o a' [= <- <-]. done. Qed.

Lemma readonly_get_form : readonly get_form.
Proof. intros a o a' [= <- <-]. done. Qed.

Lemma readonly_when (b : bool) (m : M unit) : readonly m -> readonly (when b m).
Proof. destruct b; [done|]. intros _. apply readonly_quiet, quiet_ret. Qed.

Ltac display_steps :=
  repeat first
    [ apply quiet_emit | apply quiet_script | apply quiet_recall | apply quiet_ret
    | apply quiet_when | apply quiet_if | apply quiet_for_each; intros
    | apply quiet_bind; [|intros] ].

Ltac readonly_steps :=
  repeat first
    [ apply readonly_call | apply readonly_set_form | apply readonly_get_form
    | apply readonly_quiet;
        first [ apply quiet_show_parsed | apply quiet_show_similar
              | apply quiet_show_context | apply quiet_show_verification
              | apply quiet_show_explanation | display_steps; fail ]
    | apply readonly_when
    | apply readonly_bind; [|intros] ].

Lemma readonly_feedback_section (raw_input input_type : string) (wd : Widgets)
    (parsed solution verification : json) :
  correct_clicked wd = false -> submit_clicked wd = false ->
  readonly (feedback_section raw_input input_type wd parsed solution verification).
Proof.
  intros Hc Hs. unfold feedback_section. rewrite Hc, Hs. simpl when. readonly_steps.
Qed.

(** X18.  A run in which neither "Correct" nor "Submit Feedback" is pressed
    writes nothing: whatever the agents return or raise, whatever is typed
    and whether the comment form is open, the store and the backing file
    after the solve section are the ones before it. *)
Theorem no_feedback_no_write (raw_input input_type : string) (wd : Widgets) (a : App) :
  correct_clicked wd = false -> submit_clicked wd = false ->
  memory (solve_section raw_input input_type wd a) = memory a /\
  world (solve_section raw_input input_type wd a) = world a.
Proof.
  intros Hc Hs. unfold solve_section.
  destruct (truthy (JStr raw_input)); [|done].
  destruct (solve_clicked wd); [|done].
  set (a1 := snd _).
  assert (memory a1 = memory a /\ world a1 = world a) as [Hm1 Hw1] by done.
  unfold solve_pressed.
  assert (readonly (pipeline raw_input input_type wd)) as Hro.
  { unfold pipeline.
    repeat first
      [ by apply readonly_feedback_section
      | apply readonly_call
      | apply readonly_quiet;
          first [ apply quiet_show_parsed | apply quiet_show_similar
                | apply quiet_show_context | apply quiet_show_verification
                | apply quiet_show_explanation | display_steps; fail ]
      | apply readonly_bind; [|intros] ]. }
  destruct (pipeline raw_input input_type wd a1) as [[[]|f e] a2] eqn:E;
    destruct (Hro _ _ _ E) as [Hm2 Hw2]; simpl; split; congruence.
Qed.

Lemma run_emit {B : Type} (ev : ui_event) (k : unit -> M B) (a : App) :
  (emit ev ≫= k) a
  = k tt (mkApp (memory a) (world a) (screen a ++ [ev]) (show_feedback_form a) (invoked a)).
Proof. reflexivity. Qed.

Lemma run_script {A B : Type} (r : result A) (x : A) (k : A -> M B) (a : App) :
  r = Ok x -> (script r ≫= k) a = k x a.
Proof. intros ->. reflexivity. Qed.

Lemma show_parsed_returns (d : list (string * json)) (a : App) :
  displayable_topic d ->
  exists a', show_parsed (JDict d) a = (Return tt, a').
Proof.
  intros Ht. unfold show_parsed. rewrite run_emit.
  rewrite (run_script _ (dict_get d "topic" (JStr "algebra"))) by reflexivity.
  assert (exists p, (if truthy (dict_get d "topic" (JStr "algebra"))
                     then title_of (dict_get d "topic" (JStr "algebra"))
                     else Ok (Lit "Unknown")) = Ok p) as [p Hp].
  { destruct Ht as [->|[s Hs]]; [eauto|]. rewrite Hs. simpl.
    destruct (negb _); eauto. }
  rewrite (run_script _ p _ _ Hp). rewrite run_emit.
  rewrite (run_script _ (dict_get d "needs_clarification" JNull)) by reflexivity.
  destruct (truthy (dict_get d "needs_clarification" JNull)); simpl when; [|eauto].
  rewrite (run_script _ (dict_get d "clarification_reason" (JStr "Clarification needed")))
    by reflexivity.
  unfold emit. eauto.
Qed.

(** X19.  A failure of the lookup in the case memory stops the pipeline:
    when the parser has answered and [get_similar_problems] raises, the
    solver, the verifier and the explainer are not called, the exception is
    displayed as an error, and nothing is written. *)
Theorem retrieval_failure_halts (raw_input input_type : string) (wd : Widgets) (a : App)
    (d : list (string * json)) (e : exn) :
  parse raw_input = Ok (JDict d) ->
  displayable_topic d ->
  get_similar_problems (memory a) (dict_get d "problem_text" (JStr raw_input)) 3 = Raise e ->
  exists shown,
    advanced a (solve_pressed raw_input input_type wd a) [Parse]
      (shown ++ [St_error [Lit "An error occurred: "; ExnText e];
                 St_exception InMemory e]).
Proof.
  intros Hparse Htopic Hget.
  assert (exists shown a', pipeline raw_input input_type wd a = (Throw InMemory e, a') /\
                           advanced a a' [Parse] shown) as (shown & a' & Hrun & Hadv).
  { unfold pipeline.
    rewrite run_emit.
    rewrite bind_run. unfold call at 1. rewrite Hparse. cbv iota beta.
    set (a1 := mkApp _ _ _ _ (invoked _ ++ [Parse])).
    assert (advanced a a1 [Parse] [header Parse]) as Ha1 by done.
    destruct (show_parsed_returns d a1 Htopic) as [a2 Hshow].
    destruct (quiet_show_parsed (JDict d) _ _ _ Hshow) as [[ev2 Ha2] _].
    rewrite bind_run, Hshow.
    pose proof (advanced_trans a a1 a2 [Parse] [] _ ev2 Ha1 Ha2) as Ha12.
    rewrite bind_run.
    assert (show_similar raw_input (JDict d) a2 = (Throw InMemory e, a2)) as ->.
    { unfold show_similar.
      rewrite (run_script _ (dict_get d "problem_text" (JStr raw_input))) by reflexivity.
      rewrite bind_run. unfold recall.
      destruct Ha2 as (Hm & _). rewrite Hm. change (memory a1) with (memory a).
      by rewrite Hget. }
    by exists ([header Parse] ++ ev2), a2. }
  exists shown. unfold solve_pressed. rewrite Hrun. simpl.
  destruct Hadv as (Hm & Hw & Hi & Hs). unfold advanced. simpl.
  by rewrite Hm, Hw, Hi, Hs, <- !app_assoc.
Qed.

Lemma run_set_form {B : Type} (b : bool) (k : unit -> M B) (a : App) :
  (set_form b ≫= k) a = k tt (mkApp (memory a) (world a) (screen a) b (invoked a)).
Proof. reflexivity. Qed.

Lemma run_get_form {B : Type} (k : bool -> M B) (a : App) :
  (get_form ≫= k) a = k (show_feedback_form a) a.
Proof. reflexivity. Qed.

Lemma run_remember {B : Type} (d : list (string * json)) (k : string -> M B) (a : App)
    (l : list json) :
  memories (memory a) = JList l ->
  exists w',
    (remember (JDict d) ≫= k) a
    = k (uuid4 (tick (world a)))
        (mkApp (mkStore (storage_path (memory a))
                  (JList (l ++ [record_from (uuid4 (tick (world a)))
                                  (now_isoformat (tick (world a))) d])))
               w' (screen a) (show_feedback_form a) (invoked a)).
Proof.
  intros Hl. rewrite bind_run. unfold remember.
  rewrite (store_interaction_list (memory a) l d (world a) Hl). cbv zeta. eauto.
Qed.

(** The fields of a record that come from the trace *)
Lemma record_from_trace (id ts raw_input input_type feedback : string)
    (parsed llm_solution verification : json) (comment : option string) (d : list (string * json)) :
  JDict d = feedback_data raw_input input_type parsed llm_solution verification
              feedback comment ->
  py_item (record_from id ts d) "original_input" = Ok (JStr raw_input) /\
  py_item (record_from id ts d) "input_type" = Ok (JStr input_type) /\
  py_item (record_from id ts d) "parsed_problem" = Ok parsed /\
  py_item (record_from id ts d) "solution" = Ok llm_solution /\
  py_item (record_from id ts d) "verification" = Ok verification /\
  py_item (record_from id ts d) "feedback" = Ok (JStr feedback) /\
  py_item (record_from id ts d) "user_comment"
  = Ok (JStr (match comment with Some c => c | None => EmptyString end)).
Proof. intros [= ->]. by destruct comment. Qed.

(** X20.  What one run of the feedback section writes, on a store that
    holds a list and a solution that is a dict: one record with feedback
    [correct] and an empty comment if "Correct" is pressed, then one record
    with feedback [incorrect] and the typed comment if "Submit Feedback" is
    pressed while the comment form is open (it is open if it was left open
    by an earlier run or "Incorrect" is pressed in this one); nothing else.
    Each record carries the input, the input type, the parsed problem, the
    [llm_solution] of the solution and the verification of the trace.  The
    form is open afterwards exactly if it was open and "Submit Feedback" was
    not pressed. *)
Theorem feedback_section_writes (raw_input input_type : string) (wd : Widgets)
    (parsed verification : json) (sd : list (string * json)) (a : App) (l : list json) :
  memories (memory a) = JList l ->
  exists a' recs,
    feedback_section raw_input input_type wd parsed (JDict sd) verification a
    = (Return tt, a') /\
    memories (memory a') = JList (l ++ recs) /\
    map (fun r => (py_item r "feedback", py_item r "user_comment")) recs
    = (if correct_clicked wd then [(Ok (JStr "correct"), Ok (JStr EmptyString))] else [])
      ++ (if (show_feedback_form a || incorrect_clicked wd) && submit_clicked wd
          then [(Ok (JStr "incorrect"), Ok (JStr (comment_text wd)))] else []) /\
    Forall (fun r =>
              py_item r "original_input" = Ok (JStr raw_input) /\
              py_item r "input_type" = Ok (JStr input_type) /\
              py_item r "parsed_problem" = Ok parsed /\
              py_item r "solution" = Ok (dict_get sd "llm_solution" JNull) /\
              py_item r "verification" = Ok verification) recs /\
    show_feedback_form a'
    = (show_feedback_form a || incorrect_clicked wd) && negb (submit_clicked wd).
Proof.
  intros Hl. unfold feedback_section. rewrite !run_emit.
  set (llm := dict_get sd "llm_solution" JNull).
  assert (forall id ts fb c d,
            JDict d = feedback_data raw_input input_type parsed llm verification fb c ->
            py_item (record_from id ts d) "original_input" = Ok (JStr raw_input) /\
            py_item (record_from id ts d) "input_type" = Ok (JStr input_type) /\
            py_item (record_from id ts d) "parsed_problem" = Ok parsed /\
            py_item (record_from id ts d) "solution" = Ok llm /\
            py_item (record_from id ts d) "verification" = Ok verification) as Htrace.
  { intros id ts fb c d Hd.
    destruct (record_from_trace id ts _ _ _ _ _ _ _ d Hd) as (?&?&?&?&?&_). done. }
  (* the "Correct" button *)
  set (a0 := mkApp _ _ _ _ _).
  assert (exists a1 recs1,
            memories (memory a1) = JList (l ++ recs1) /\
            show_feedback_form a1 = show_feedback_form a /\
            map (fun r => (py_item r "feedback", py_item r "user_comment")) recs1
            = (if correct_clicked wd
               then [(Ok (JStr "correct"), Ok (JStr EmptyString))] else []) /\
            Forall (fun r =>
                      py_item r "original_input" = Ok (JStr raw_input) /\
                      py_item r "input_type" = Ok (JStr input_type) /\
                      py_item r "parsed_problem" = Ok parsed /\
                      py_item r "solution" = Ok llm /\
                      py_item r "verification" = Ok verification) recs1 /\
            forall B (k : unit -> M B),
              (when (correct_clicked wd)
                 (llm_solution ← script (py_get (JDict sd) "llm_solution" JNull);
                  memory_id ← remember (feedback_data raw_input input_type parsed
                                          llm_solution verification "correct" None);
                  emit (St_success [Lit "Feedback saved! (ID: "; Prefix 8 memory_id;
                                    Lit ")"])) ≫= k) a0
              = k tt a1) as (a1 & recs1 & Hl1 & Hf1 & Hfb1 & Htr1 & Hrun1).
  { destruct (correct_clicked wd).
    - destruct (run_remember
                  [("original_input", JStr raw_input); ("input_type", JStr input_type);
                   ("parsed_problem", parsed); ("solution", llm);
                   ("verification", verification); ("feedback", JStr "correct")]
                  (fun memory_id =>
                     emit (St_success [Lit "Feedback saved! (ID: "; Prefix 8 memory_id;
                                       Lit ")"])) a0 l Hl) as [w' Hrem].
      eexists _, [_]. split; [|split; [|split; [|split]]]; cycle 4.
      + intros B k. simpl when. rewrite bind_run.
        rewrite (run_script _ llm) by reflexivity.
        change (feedback_data _ _ _ _ _ _ _) with
          (JDict [("original_input", JStr raw_input); ("input_type", JStr input_type);
                  ("parsed_problem", parsed); ("solution", llm);
                  ("verification", verification); ("feedback", JStr "correct")]).
        rewrite Hrem. unfold emit. cbv beta iota. reflexivity.
      + reflexivity.
      + reflexivity.
      + reflexivity.
      + constructor; [|constructor].
        by apply (Htrace _ _ "correct" None).
    - exists a0, []. rewrite app_nil_r. repeat split; try done. }
  rewrite Hrun1, run_emit.
  (* the "Incorrect" button and the form *)
  set (form := show_feedback_form a || incorrect_clicked wd).
  set (a2 := mkApp (memory a1) (world a1)
                   (screen a1 ++ [St_button "Incorrect" "incorrect_btn"])
                   form (invoked a1)).
  assert (forall B (k : unit -> M B),
            (when (incorrect_clicked wd) (set_form true) ≫= k)
              (mkApp (memory a1) (world a1)
                     (screen a1 ++ [St_button "Incorrect" "incorrect_btn"])
                     (show_feedback_form a1) (invoked a1))
            = k tt a2) as ->.
  { intros B k. unfold a2, form. rewrite Hf1.
    destruct (incorrect_clicked wd); simpl when.
    - rewrite run_set_form. simpl. by rewrite orb_true_r.
    - rewrite bind_run. simpl. by rewrite orb_false_r. }
  rewrite run_get_form. change (show_feedback_form a2) with form.
  destruct form eqn:Eform; simpl when.
  2:{ exists a2, recs1. split; [reflexivity|]. split; [exact Hl1|].
      split; [by rewrite Hfb1, app_nil_r|]. split; [exact Htr1|]. reflexivity. }
  rewrite !run_emit.
  destruct (submit_clicked wd) eqn:Esub; simpl when.
  2:{ eexists _, recs1. split; [reflexivity|]. split; [exact Hl1|].
      split; [by rewrite Hfb1, app_nil_r|]. split; [exact Htr1|]. reflexivity. }
  rewrite (run_script _ llm) by reflexivity.
  change (feedback_data raw_input input_type parsed llm verification "incorrect"
            (Some (comment_text wd))) with
    (JDict [("original_input", JStr raw_input); ("input_type", JStr input_type);
            ("parsed_problem", parsed); ("solution", llm);
            ("verification", verification); ("feedback", JStr "incorrect");
            ("user_comment", JStr (comment_text wd))]).
  match goal with
  | |- context [(remember (JDict ?d) ≫= ?k) ?st] =>
      destruct (run_remember d k st (l ++ recs1) Hl1) as [w' ->]
  end.
  rewrite run_emit. unfold set_form.
  eexists _, (recs1 ++ [_]). split; [reflexivity|]. simpl memories.
  split; [by rewrite app_assoc|]. split; [by rewrite map_app, Hfb1|]. split; [|done].
  apply Forall_app. split; [done|]. constructor; [|constructor].
  by apply (Htrace _ _ "incorrect" (Some (comment_text wd))).
Qed.

End PipelineExtras.

Lemma records_only_after_all_stages_witness :
  (exists k, invoked (snd (pipeline (lib := mini_json) (clock := sample_clock)
                             (agents := failing_verifier) quadratic "text" all_clicked
                             sample_app))
             = invoked sample_app ++ firstn k all_stages) /\
  ((memory (snd (pipeline (lib := mini_json) (clock := sample_clock)
                   (agents := failing_verifier) quadratic "text" all_clicked sample_app))
    = memory sample_app /\
    world (snd (pipeline (lib := mini_json) (clock := sample_clock)
                  (agents := failing_verifier) quadratic "text" all_clicked sample_app))
    = world sample_app) \/
   invoked (snd (pipeline (lib := mini_json) (clock := sample_clock)
                   (agents := failing_verifier) quadratic "text" all_clicked sample_app))
   = invoked sample_app ++ all_stages).
Proof.
  apply (records_only_after_all_stages (lib := mini_json) (clock := sample_clock)
           (agents := failing_verifier) quadratic "text" all_clicked sample_app _
           (fst (pipeline (lib := mini_json) (clock := sample_clock)
                   (agents := failing_verifier) quadratic "text" all_clicked sample_app))).
  vm_compute. reflexivity.
Defined.

Lemma no_feedback_no_write_witness :
  memory (solve_section (lib := mini_json) (clock := sample_clock)
            (agents := answering_agents) quadratic "text" solve_only sample_app)
  = memory sample_app /\
  world (solve_section (lib := mini_json) (clock := sample_clock)
           (agents := answering_agents) quadratic "text" solve_only sample_app)
  = world sample_app.
Proof.
  apply (no_feedback_no_write (lib := mini_json) (clock := sample_clock)
           (agents := answering_agents) quadratic "text" solve_only sample_app).
  - reflexivity.
  - reflexivity.
Defined.

Lemma retrieval_failure_halts_witness :
  exists shown,
    advanced odd_app
      (solve_pressed (lib := mini_json) (clock := sample_clock)
         (agents := answering_agents) quadratic "text" solve_only odd_app)
      [Parse]
      (shown ++ [St_error [Lit "An error occurred: ";
                           ExnText (mkExn AttributeError "lower")];
                 St_exception InMemory (mkExn AttributeError "lower")]).
Proof.
  apply (retrieval_failure_halts (lib := mini_json) (clock := sample_clock)
           (agents := answering_agents) quadratic "text" solve_only odd_app
           [("problem_text", JStr quadratic); ("topic", JStr "algebra")]
           (mkExn AttributeError "lower")).
  - reflexivity.
  - right. exists "algebra". reflexivity.
  - vm_compute. reflexivity.
Defined.

Lemma feedback_section_writes_witness :
  exists a' recs,
    feedback_section (lib := mini_json) (clock := sample_clock)
      quadratic "text" all_clicked (JStr "parsed")
      (JDict [("llm_solution", JStr "x = 2")]) (JStr "verified") sample_app
    = (Return tt, a') /\
    memories (memory a')
    = JList ([case_record "r1" quadratic; case_record "r2" "Solve  x squared";
              case_record "r3" "integrate cosine"; case_record "r4" quadratic] ++ recs) /\
    map (fun r => (py_item r "feedback", py_item r "user_comment")) recs
    = [(Ok (JStr "correct"), Ok (JStr EmptyString));
       (Ok (JStr "incorrect"), Ok (JStr "wrong sign"))].
Proof.
  destruct (feedback_section_writes (lib := mini_json) (clock := sample_clock)
              quadratic "text" all_clicked (JStr "parsed") (JStr "verified")
              [("llm_solution", JStr "x = 2")] sample_app _ eq_refl)
    as (a' & recs & Hrun & Hmem & Hfb & _).
  exists a', recs. split; [exact Hrun|]. split; [exact Hmem|exact Hfb].
Defined.

(** * The input section of app.py *)

Section InputExtras.
Context `{media : Media}.

Lemma nonempty_some (t : string) : nonempty (Some t) = true <-> t <> EmptyString.
Proof.
  simpl. destruct (String.eqb_spec t EmptyString); simpl; split; congruence.
Qed.

(** The runs of the other modes leave the session alone. *)
Lemma other_modes_keep_session (wi : Inputs) (s : Session) :
  input_mode_chosen wi <> AudioMode -> session (input_section wi s) = s.
Proof.
  intros Hm. unfold input_section.
  destruct (input_mode_chosen wi); [reflexivity | | congruence].
  simpl. unfold image_input.
  destruct (uploaded_file wi); [|reflexivity].
  destruct (image_open s0); [|reflexivity].
  destruct (process_image a) as [[? ?]|]; reflexivity.
Qed.

Lemma other_runs_keep_session (runs : list Inputs) (s : Session) :
  Forall (fun wi => input_mode_chosen wi <> AudioMode) runs -> input_runs runs s = s.
Proof.
  unfold input_runs. intros H. revert s.
  induction H as [|wi runs Hwi _ IH]; intros s; [reflexivity|].
  cbn [fold_left]. rewrite (other_modes_keep_session wi s Hwi). apply IH.
Qed.

Lemma enter_audio_again (s : Session) :
  last_input_mode s = Some AudioMode -> enter_audio s = s.
Proof.
  intros H. unfold enter_audio. rewrite H. destruct s; simpl in *. congruence.
Qed.

Lemma transcribe_known (data name : string) (s : Session) :
  current_audio_file s = Some name -> audio_processed s = true ->
  transcribe (Some (data, name)) s = (s, [], []).
Proof.
  intros Hc Hp. unfold transcribe. rewrite Hp.
  rewrite (bool_decide_eq_true_2 _ Hc). simpl.
  destruct (negb (String.eqb name EmptyString)); reflexivity.
Qed.



(** The parts of a run in Audio mode *)
Lemma audio_run (wi : Inputs) (s : Session) :
  input_mode_chosen wi = AudioMode ->
  let t := transcribe (audio_source wi).2 (enter_audio s) in
  let e := edit_transcription wi t.1.1 in
  input_section wi s =
    mkInputRun e.1.1 e.1.2 (heading ++ (audio_source wi).1 ++ t.1.2 ++ e.2) t.2.
Proof.
  intros Hm. unfold input_section, audio_input. rewrite Hm.
  destruct (audio_source wi) as [widgets audio]. simpl.
  destruct (transcribe audio (enter_audio s)) as [[s2 messages] calls]. simpl.
  destruct (edit_transcription wi s2) as [[end_ s3] editor]. reflexivity.
Qed.


Lemma audio_type_only_in_audio_mode (wi : Inputs) (s : Session) (raw : option string) :
  ended (input_section wi s) = Continues raw (Some "audio") ->
  input_mode_chosen wi = AudioMode.
Proof.
  destruct (input_mode_chosen wi) eqn:Hm; [| |reflexivity];
    unfold input_section; rewrite Hm; simpl; [discriminate|].
  unfold image_input.
  destruct (uploaded_file wi); [|discriminate].
  destruct (image_open s0); [|discriminate].
  destruct (process_image a) as [[? ?]|]; discriminate.
Qed.

(** X21.  When the script goes on after the input section, [raw_input] and
    [input_type] are set together: both are [None], or [raw_input] is the
    content of the text area that the run shows and [input_type] is the
    name of the chosen mode.  So the solve block, which needs a non-empty
    [raw_input], never sees [input_type = None]. *)
Theorem input_type_goes_with_mode (wi : Inputs) (s : Session) (raw it : option string) :
  ended (input_section wi s) = Continues raw it ->
  (raw = None /\ it = None) \/
  (raw = Some (text_typed wi) /\ it = Some (type_of_mode (input_mode_chosen wi))).
Proof.
  destruct (input_mode_chosen wi) eqn:Hm.
  - unfold input_section. rewrite Hm. simpl. intros [= <- <-]. right. done.
  - unfold input_section. rewrite Hm. simpl. unfold image_input.
    destruct (uploaded_file wi); [|simpl; intros [= <- <-]; left; done].
    destruct (image_open s0); [|simpl; discriminate].
    destruct (process_image a) as [[? ?]|]; [|simpl; discriminate].
    simpl. intros [= <- <-]. right. done.
  - rewrite (audio_run wi s Hm). cbn [ended session shown transcribed]. unfold edit_transcription.
    destruct (nonempty _); [|simpl; intros [= <- <-]; left; done].
    destruct (clear_clicked wi); simpl; [discriminate|].
    intros [= <- <-]. right. done.
Qed.


(** X23.  The state of the Audio mode is reset only the first time the mode
    is entered, not every time the user switches to it: once a run has been
    made in Audio mode, a transcription survives any number of runs in the
    other modes, and is shown again on return. *)
Theorem transcription_survives_mode_switch (runs : list Inputs) (wi : Inputs)
    (s : Session) (text : string) :
  last_input_mode s = Some AudioMode ->
  transcribed_text s = Some text -> text <> EmptyString ->
  Forall (fun wi => input_mode_chosen wi <> AudioMode) runs ->
  input_mode_chosen wi = AudioMode ->
  (audio_source wi).2 = None ->
  In (In_text_area "Transcribed Text (editable):" (Some text))
     (shown (input_section wi (input_runs runs s))).
Proof.
  intros Hl Ht Hne Hruns Hm Hsrc.
  rewrite (other_runs_keep_session runs s Hruns).
  rewrite (audio_run wi s Hm). cbn [ended session shown transcribed]. rewrite Hsrc. simpl.
  rewrite (enter_audio_again s Hl).
  unfold edit_transcription. rewrite Ht.
  rewrite (proj2 (nonempty_some text) Hne).
  rewrite !in_app_iff. right. right.
  destruct (clear_clicked wi); simpl; auto.
Qed.

(** X24.  A transcription that fails is reported, and the script goes on
    without input.  Whether the same audio is tried again in the next run
    depends on the flag left by an earlier file: it is tried again when no
    audio has been processed yet, and never when one has. *)
Theorem failed_transcription_retry (wi : Inputs) (s : Session) (data name : string)
    (e : exn) :
  input_mode_chosen wi = AudioMode ->
  (audio_source wi).2 = Some (data, name) -> name <> EmptyString ->
  last_input_mode s = Some AudioMode ->
  current_audio_file s <> Some name ->
  process_audio data = Raise e ->
  let r1 := input_section wi s in
  let r2 := input_section wi (session r1) in
  ended r1 = Continues None None /\
  In (In_exception e) (shown r1) /\
  transcribed r1 = [data] /\
  transcribed_text (session r1) = None /\
  transcribed r2 = (if audio_processed s then [] else [data]).
Proof.
  intros Hm Hsrc Hne Hl Hnew He r1 r2.
  assert (Hn : negb (String.eqb name EmptyString) = true).
  { destruct (String.eqb_spec name EmptyString); [congruence | reflexivity]. }
  assert (H1 : r1 = mkInputRun (Continues None None)
                      (mkSession None (audio_processed s) (Some name) (Some AudioMode))
                      (heading ++ (audio_source wi).1 ++
                       [In_error [Lit "Transcription failed: "; ExnText e]; In_exception e] ++ [])
                      [data]).
  { unfold r1. rewrite (audio_run wi s Hm). cbn [ended session shown transcribed]. rewrite Hsrc.
    rewrite (enter_audio_again s Hl). unfold transcribe. rewrite Hn, He.
    rewrite (bool_decide_eq_false_2 _ Hnew). simpl. rewrite Hl. reflexivity. }
  unfold r2. rewrite H1. cbn [ended session shown transcribed transcribed_text].
  split; [reflexivity|]. split.
  { rewrite !in_app_iff. right. right. simpl. auto. }
  split; [reflexivity|]. split; [reflexivity|].
  rewrite (audio_run wi _ Hm). cbn [ended session shown transcribed]. rewrite Hsrc.
  rewrite enter_audio_again by reflexivity.
  unfold transcribe. rewrite Hn, He. simpl.
  rewrite bool_decide_eq_true_2 by reflexivity. simpl.
  destruct (audio_processed s); reflexivity.
Qed.

Lemma settled_step (wi : Inputs) (s : Session) :
  settled s -> settled (session (input_section wi s)).
Proof.
  intros Hs.
  assert (Hcases : input_mode_chosen wi = AudioMode \/ input_mode_chosen wi <> AudioMode)
    by (destruct (input_mode_chosen wi); auto).
  destruct Hcases as [Hm|Hm]; [|by rewrite other_modes_keep_session].
  rewrite (audio_run wi s Hm). cbn [ended session shown transcribed].
  assert (He : settled (enter_audio s)).
  { unfold enter_audio, settled. destruct (last_input_mode s) as [[]|]; simpl; auto;
      congruence. }
  assert (Ht : settled (transcribe (audio_source wi).2 (enter_audio s)).1.1).
  { unfold transcribe. destruct (audio_source wi).2 as [[data name]|]; [|exact He].
    destruct (negb (String.eqb name EmptyString)); [|exact He].
    destruct (_ || _); [|exact He].
    destruct (process_audio data); unfold settled; simpl; [split|]; congruence. }
  revert Ht. generalize (transcribe (audio_source wi).2 (enter_audio s)).1.1.
  intros s2 Ht. unfold edit_transcription.
  destruct (nonempty (transcribed_text s2)) eqn:Hn; [|exact Ht].
  assert (transcribed_text s2 <> None) by (destruct (transcribed_text s2); done).
  destruct (clear_clicked wi); unfold settled; simpl; [congruence|].
  intros _. by apply Ht.
Qed.

Lemma settled_runs (runs : list Inputs) : settled (input_runs runs new_session).
Proof.
  assert (H0 : settled new_session) by (unfold settled; simpl; congruence).
  revert H0. generalize new_session. unfold input_runs.
  induction runs as [|wi runs IH]; intros s Hs; [exact Hs|].
  cbn [fold_left]. apply IH. by apply settled_step.
Qed.

(** X25.  In every session that runs of the section lead to, a transcription
    is there only together with the flag [audio_processed] and the name of
    the file it came from. *)
Theorem transcription_has_a_processed_file (s : Session) :
  reachable s ->
  transcribed_text s <> None ->
  audio_processed s = true /\ current_audio_file s <> None.
Proof.
  intros [runs ->]. exact (settled_runs runs).
Qed.

(** X26.  A user who empties the text area of the transcription cannot get
    it back: the empty text is stored, so in the following runs, as long as
    the same file (or none) is offered, nothing is transcribed, there is no
    input, and neither the text area nor the "Clear & Upload New" button is
    shown.  Only a file with another name starts a transcription again. *)
Theorem emptied_transcription_is_stuck (runs : list Inputs) (wi1 wi2 : Inputs) :
  let s1 := session (input_section wi1 (input_runs runs new_session)) in
  ended (input_section wi1 (input_runs runs new_session))
    = Continues (Some EmptyString) (Some "audio") ->
  input_mode_chosen wi2 = AudioMode ->
  (forall data name, (audio_source wi2).2 = Some (data, name) ->
                     current_audio_file s1 = Some name) ->
  let r2 := input_section wi2 s1 in
  ended r2 = Continues None None /\ transcribed r2 = [] /\ session r2 = s1 /\
  shown r2 = heading ++ (audio_source wi2).1.
Proof.
  intros s1 Hend Hm2 Hsame r2.
  set (s := input_runs runs new_session) in *.
  assert (Hm1 : input_mode_chosen wi1 = AudioMode).
  { exact (audio_type_only_in_audio_mode wi1 s _ Hend). }
  assert (Hset : settled s1).
  { apply settled_step.
    exact (settled_runs runs). }
  assert (Hs1 : transcribed_text s1 = Some EmptyString /\ last_input_mode s1 = Some AudioMode).
  { unfold s1. revert Hend. rewrite (audio_run wi1 s Hm1). cbn [ended session shown transcribed].
    set (t := (transcribe _ _).1.1).
    assert (Hlt : last_input_mode t = Some AudioMode).
    { unfold t, transcribe. destruct (audio_source wi1).2 as [[d n]|]; [|reflexivity].
      destruct (negb (String.eqb n EmptyString)); [|reflexivity].
      destruct (_ || _); [|reflexivity].
      destruct (process_audio d); reflexivity. }
    unfold edit_transcription. destruct (nonempty (transcribed_text t)); [|discriminate].
    destruct (clear_clicked wi1); [discriminate|]. simpl.
    intros [= <-]. auto. }
  destruct Hs1 as [Htext Hlast].
  destruct Hset as [Hproc Hfile]; [congruence|].
  unfold r2. rewrite (audio_run wi2 s1 Hm2). cbn [ended session shown transcribed].
  rewrite (enter_audio_again s1 Hlast).
  assert (Ht : transcribe (audio_source wi2).2 s1 = (s1, [], [])).
  { destruct (audio_source wi2).2 as [[data name]|] eqn:Hsrc; [|reflexivity].
    apply transcribe_known; [by apply (Hsame data)|exact Hproc]. }
  rewrite Ht. simpl. unfold edit_transcription. rewrite Htext. simpl.
  rewrite app_nil_r. done.
Qed.

End InputExtras.

Lemma input_type_goes_with_mode_witness :
  ended (input_section (media := sample_media) (record_run "two plus two" "2 + 2") new_session)
    = Continues (Some "2 + 2") (Some "audio") /\
  ((Some "2 + 2" = None /\ Some "audio" = None) \/
   (Some "2 + 2" = Some (text_typed (record_run "two plus two" "2 + 2")) /\
    Some "audio" = Some (type_of_mode (input_mode_chosen (record_run "two plus two" "2 + 2"))))).
Proof.
  split; [reflexivity|].
  apply (input_type_goes_with_mode (media := sample_media)
           (record_run "two plus two" "2 + 2") new_session).
  reflexivity.
Defined.


Lemma transcription_survives_mode_switch_witness :
  let s := mkSession (Some "x + 1") true (Some "a.wav") (Some AudioMode) in
  let wi := mkInputs AudioMode "x + 1" None UploadAudioFile None None false in
  Forall (fun wi => input_mode_chosen wi <> AudioMode) [text_run "hello"] /\
  In (In_text_area "Transcribed Text (editable):" (Some "x + 1"))
     (shown (input_section (media := sample_media) wi
               (input_runs (media := sample_media) [text_run "hello"] s))).
Proof.
  intros s wi.
  assert (H : Forall (fun wi => input_mode_chosen wi <> AudioMode) [text_run "hello"])
    by (repeat constructor; discriminate).
  split; [exact H|].
  apply (transcription_survives_mode_switch (media := sample_media)
           [text_run "hello"] wi s "x + 1"); try reflexivity; [discriminate | exact H].
Defined.

Lemma failed_transcription_retry_witness :
  let s := mkSession (Some "x") true (Some "a.wav") (Some AudioMode) in
  let wi := upload_run "b.wav" "noise" EmptyString in
  process_audio (Media := sample_media) "noise" = Raise (mkExn ValueError "no speech") /\
  transcribed (input_section (media := sample_media) wi s) = ["noise"] /\
  transcribed (input_section (media := sample_media) wi
                 (session (input_section (media := sample_media) wi s))) = [].
Proof.
  intros s wi. split; [reflexivity|].
  destruct (failed_transcription_retry (media := sample_media) wi s "noise" "b.wav"
              (mkExn ValueError "no speech"))
    as (_ & _ & H1 & _ & H2); try reflexivity; try discriminate.
  split; [exact H1 | exact H2].
Defined.

Lemma transcription_has_a_processed_file_witness :
  let s := input_runs (media := sample_media) [record_run "one" "one"] new_session in
  transcribed_text s <> None /\
  audio_processed s = true /\ current_audio_file s <> None.
Proof.
  intros s.
  assert (H : transcribed_text s <> None) by discriminate.
  split; [exact H|].
  apply (transcription_has_a_processed_file (media := sample_media) s);
    [by exists [record_run "one" "one"] | exact H].
Defined.

Lemma emptied_transcription_is_stuck_witness :
  let s1 := session (input_section (media := sample_media) (record_run "one" EmptyString)
                       (input_runs (media := sample_media) [record_run "one" "one"]
                          new_session)) in
  let r2 := input_section (media := sample_media) (record_run "two" "anything") s1 in
  transcribed_text s1 = Some EmptyString /\
  ended r2 = Continues None None /\ transcribed r2 = [] /\ session r2 = s1 /\
  shown r2 = heading ++ (audio_source (media := sample_media)
                           (record_run "two" "anything")).1.
Proof.
  intros s1 r2. split; [reflexivity|].
  apply (emptied_transcription_is_stuck (media := sample_media)
           [record_run "one" "one"] (record_run "one" EmptyString)
           (record_run "two" "anything")); [reflexivity | reflexivity |].
  intros data name [= <- <-]. reflexivity.
Defined.

(** * The setup: [auto_setup] of app.py and setup_and_run.py *)

Lemma make_each_other (ps : list string) (fs : Files) (q : string) :
  ~ In q ps -> tree (make_each ps fs).2 !! q = tree fs !! q.
Proof.
  revert fs. induction ps as [|p ps IH]; intros fs Hq; [reflexivity|].
  simpl in Hq. simpl.
  destruct (tree fs !! p) as [[|content]|] eqn:Hp; [by apply IH; tauto | reflexivity |].
  destruct (can_write fs); [|reflexivity].
  rewrite IH by tauto. simpl. apply lookup_insert_ne. intros ->. tauto.
Qed.

(** What is there stays as it is. *)
Lemma make_each_keeps (ps : list string) (fs : Files) (q : string) (x : entry) :
  tree fs !! q = Some x -> tree (make_each ps fs).2 !! q = Some x.
Proof.
  revert fs. induction ps as [|p ps IH]; intros fs Hq; [exact Hq|].
  simpl. destruct (tree fs !! p) as [[|content]|] eqn:Hp; [by apply IH | exact Hq |].
  destruct (can_write fs); [|exact Hq].
  apply IH. simpl. rewrite lookup_insert_ne; [exact Hq|]. intros ->. congruence.
Qed.

Lemma make_each_made (ps : list string) (fs : Files) (p : string) :
  (make_each ps fs).1 = None -> In p ps -> tree (make_each ps fs).2 !! p = Some Dir.
Proof.
  revert fs. induction ps as [|p0 ps IH]; intros fs Hok Hin; [destruct Hin|].
  simpl in Hok |- *.
  destruct (tree fs !! p0) as [[|content]|] eqn:Hp; [| discriminate |].
  - destruct Hin as [->|Hin]; [by apply make_each_keeps | by apply IH].
  - destruct (can_write fs); [|discriminate].
    destruct Hin as [->|Hin]; [|by apply IH].
    apply make_each_keeps. simpl. apply lookup_insert_eq.
Qed.

Section SetupExtras.
Context `{platform : Platform}.

(** X27.  [auto_setup] lets the script go on only when the index of the
    vector store was there from the start; nothing is shown then, and the
    three directories exist afterwards.  Without the index the run ends
    inside [auto_setup], whatever the setup does. *)
Theorem auto_setup_proceeds_only_with_index (fs : Files) :
  (auto_setup fs).1.1 = Proceeds ->
  os_path_exists fs index_path = true /\
  (auto_setup fs).1.2 = [] /\
  Forall (fun d => tree (auto_setup fs).2 !! d = Some Dir)
         ["memory"; "rag/knowledge_base"; "rag/vectorstore"].
Proof.
  unfold auto_setup.
  pose proof (make_each_made (ancestors_from EmptyString "memory") fs "memory") as M1.
  pose proof (make_each_other (ancestors_from EmptyString "memory") fs index_path) as O1.
  fold (os_makedirs "memory" fs) in M1, O1.
  destruct (os_makedirs "memory" fs) as [[e|] fs1]; [discriminate|].
  pose proof (make_each_made (ancestors_from EmptyString "rag/knowledge_base") fs1
                "rag/knowledge_base") as M2.
  pose proof (make_each_other (ancestors_from EmptyString "rag/knowledge_base") fs1
                index_path) as O2.
  pose proof (make_each_keeps (ancestors_from EmptyString "rag/knowledge_base") fs1
                "memory" Dir) as K2.
  fold (os_makedirs "rag/knowledge_base" fs1) in M2, O2, K2.
  destruct (os_makedirs "rag/knowledge_base" fs1) as [[e|] fs2]; [discriminate|].
  pose proof (make_each_made (ancestors_from EmptyString "rag/vectorstore") fs2
                "rag/vectorstore") as M3.
  pose proof (make_each_other (ancestors_from EmptyString "rag/vectorstore") fs2
                index_path) as O3.
  pose proof (fun d => make_each_keeps (ancestors_from EmptyString "rag/vectorstore") fs2
                d Dir) as K3.
  fold (os_makedirs "rag/vectorstore" fs2) in M3, O3, K3.
  destruct (os_makedirs "rag/vectorstore" fs2) as [[e|] fs3]; [discriminate|].
  simpl in M1, M2, M3, O1, O2, O3, K2, K3.
  fold index_path.
  destruct (os_path_exists fs3 index_path) eqn:Hidx; simpl.
  - intros _. split; [|split; [reflexivity|]].
    + unfold os_path_exists in *. rewrite <- O1, <- O2, <- O3; [exact Hidx | | |];
        unfold index_path; intuition discriminate.
    + repeat constructor.
      * apply K3, K2, M1; auto.
      * apply K3, M2; auto.
      * apply M3; auto.
  - destruct (first_time_setup fs3) as [[shown fs4] [e|]]; discriminate.
Qed.

(** ** Running the pieces of setup_and_run.py *)

Lemma script_bind_inv {A B : Type} (m : Script A) (k : A -> Script B)
    (h h' : Host) (o : ending B) :
  (m ≫= k) h = (o, h') ->
  (exists x h1, m h = (Done x, h1) /\ k x h1 = (o, h')) \/
  (exists status, m h = (Exit status, h') /\ o = Exit status) \/
  (exists e, m h = (Crash e, h') /\ o = Crash e).
Proof.
  unfold mbind, Script_bind. destruct (m h) as [[x|status|e] h1]; intros H.
  - left. eauto.
  - right. left. injection H as <- <-. eauto.
  - right. right. injection H as <- <-. eauto.
Qed.

Lemma calm_bind {A B : Type} (m : Script A) (k : A -> Script B) :
  calm m -> (forall x, calm (k x)) -> calm (m ≫= k).
Proof.
  intros Hm Hk h o h' H.
  apply script_bind_inv in H as [(x & h1 & H1 & H2) | [(s & H1 & ->) | (e & H1 & ->)]].
  - destruct (Hm _ _ _ H1) as [L1 _]. destruct (Hk x _ _ _ H2) as [L2 E2].
    split; [congruence | exact E2].
  - destruct (Hm _ _ _ H1) as [_ E1]. exact (False_ind _ (E1 s eq_refl)).
  - destruct (Hm _ _ _ H1) as [L1 _]. split; [exact L1 | discriminate].
Qed.

Lemma calm_ret {A : Type} (x : A) : calm (mret x : Script A).
Proof. intros h o h' [= <- <-]. split; [reflexivity | discriminate]. Qed.

Lemma calm_print (l : line) : calm (print l).
Proof. intros h o h' [= <- <-]. split; [reflexivity | discriminate]. Qed.

Lemma calm_input (prompt : string) : calm (input prompt).
Proof.
  intros h o h'. unfold input.
  destruct (stdin h); intros [= <- <-]; (split; [reflexivity | discriminate]).
Qed.

Lemma calm_exists (p : string) : calm (exists_ p).
Proof. intros h o h' [= <- <-]. split; [reflexivity | discriminate]. Qed.

Lemma calm_uncaught {A : Type} (e : exn) : calm (uncaught e : Script A).
Proof. intros h o h' [= <- <-]. split; [reflexivity | discriminate]. Qed.

Lemma calm_subprocess_run (command : string) : calm (subprocess_run command).
Proof.
  intros h o h'. unfold subprocess_run.
  destruct (run_process command (files h)) as [[[[code out] err] fs]|e];
    intros [= <- <-]; (split; [reflexivity | discriminate]).
Qed.

Lemma calm_make_directory (d : string) : calm (make_directory d).
Proof.
  intros h o h'. unfold make_directory.
  destruct (os_makedirs d (files h)) as [[e|] fs];
    intros [= <- <-]; (split; [reflexivity | discriminate]).
Qed.

Lemma calm_write_env (text : string) : calm (write_env text).
Proof.
  intros h o h'. unfold write_env.
  destruct (tree (files h) !! ".env") as [[|content]|]; [| |destruct (can_write (files h))];
    intros [= <- <-]; (split; [reflexivity | discriminate]).
Qed.

Ltac calm_steps :=
  repeat first
    [ apply calm_bind; [|intros ?]
    | apply calm_ret
    | apply calm_print
    | apply calm_input
    | apply calm_exists
    | apply calm_uncaught
    | apply calm_subprocess_run
    | apply calm_make_directory
    | apply calm_write_env
    | assumption
    | match goal with
      | |- calm (if ?b then _ else _) => destruct b
      | |- calm (match ?x with _ => _ end) => destruct x
      | |- calm (let '(_, _) := ?x in _) => destruct x
      end ].

Lemma calm_print_step (message : string) : calm (print_step message).
Proof. unfold print_step. calm_steps. Qed.

Lemma calm_run_command (command description : string) :
  calm (run_command command description).
Proof. unfold run_command. calm_steps. Qed.

Lemma calm_check_each (packages missing : list string) : calm (check_each packages missing).
Proof.
  revert missing. induction packages as [|package rest IH]; intros missing; simpl;
    [apply calm_ret|].
  destruct (import_module _); [|destruct (is_import_error e)]; calm_steps; apply IH.
Qed.

Lemma calm_check_dependencies : calm check_dependencies.
Proof.
  unfold check_dependencies.
  apply calm_bind; [apply calm_print_step|intros _].
  apply calm_bind; [apply calm_check_each|intros missing].
  destruct missing; calm_steps.
Qed.

Lemma calm_create_each (ds : list string) : calm (create_each ds).
Proof. induction ds as [|d ds IH]; simpl; calm_steps. Qed.

Lemma calm_create_directories : calm create_directories.
Proof.
  unfold create_directories.
  apply calm_bind; [apply calm_print_step|intros _].
  apply calm_bind; [apply calm_create_each|intros _]. apply calm_ret.
Qed.

Lemma calm_setup_knowledge_base : calm setup_knowledge_base.
Proof.
  unfold setup_knowledge_base.
  apply calm_bind; [apply calm_print_step|intros _].
  apply calm_bind; [apply calm_exists|intros found].
  destruct found; [apply calm_run_command | calm_steps].
Qed.

Lemma calm_run_vectorstore_script : calm run_vectorstore_script.
Proof.
  unfold run_vectorstore_script.
  apply calm_bind; [apply calm_exists|intros found].
  destruct found; [apply calm_run_command | calm_steps].
Qed.

Lemma calm_build_vectorstore : calm build_vectorstore.
Proof.
  unfold build_vectorstore.
  apply calm_bind; [apply calm_print_step|intros _].
  apply calm_bind; [apply calm_exists|intros found].
  destruct found; [|apply calm_run_vectorstore_script].
  apply calm_bind; [apply calm_print|intros _].
  apply calm_bind; [apply calm_input|intros answer].
  destruct (negb _); [calm_steps | apply calm_run_vectorstore_script].
Qed.

Lemma calm_check_env_file : calm check_env_file.
Proof.
  unfold check_env_file.
  apply calm_bind; [apply calm_print_step|intros _].
  apply calm_bind; [apply calm_exists|intros found].
  destruct found; simpl; calm_steps.
Qed.

Lemma never_exits_bind {A B : Type} (m : Script A) (k : A -> Script B) :
  never_exits m -> (forall x, never_exits (k x)) -> never_exits (m ≫= k).
Proof.
  intros Hm Hk h status h' H.
  apply script_bind_inv in H as [(x & h1 & H1 & H2) | [(s & H1 & _) | (e & _ & ?)]].
  - exact (Hk x _ _ _ H2).
  - exact (Hm _ _ _ H1).
  - discriminate.
Qed.

Lemma calm_never_exits {A : Type} (m : Script A) : calm m -> never_exits m.
Proof. intros Hm h status h' H. destruct (Hm _ _ _ H) as [_ E]. exact (E status eq_refl). Qed.

Lemma never_exits_start_streamlit : never_exits start_streamlit.
Proof.
  unfold start_streamlit.
  apply never_exits_bind; [apply calm_never_exits, calm_print_step|intros _].
  do 3 (apply never_exits_bind; [apply calm_never_exits, calm_print|intros _]).
  apply never_exits_bind; [intros h status h'; discriminate|intros ended].
  destruct ended; apply calm_never_exits; calm_steps.
Qed.

Lemma never_exits_finish_setup : never_exits finish_setup.
Proof.
  unfold finish_setup.
  apply never_exits_bind; [apply calm_never_exits, calm_setup_knowledge_base|intros _].
  apply never_exits_bind; [apply calm_never_exits, calm_build_vectorstore|intros _].
  apply never_exits_bind; [apply calm_never_exits, calm_print_step|intros _].
  apply never_exits_bind; [apply calm_never_exits, calm_print|intros _].
  apply never_exits_bind; [apply calm_never_exits, calm_input|intros start].
  destruct (negb _); [apply never_exits_start_streamlit | apply calm_never_exits, calm_print].
Qed.

(** [create_directories] has one [return], of [True]. *)
Lemma create_directories_true (h h' : Host) (b : bool) :
  create_directories h = (Done b, h') -> b = true.
Proof.
  unfold create_directories. intros H.
  apply script_bind_inv in H as [(x & h1 & _ & H) | [(? & _ & ?) | (? & _ & ?)]];
    [|discriminate..].
  apply script_bind_inv in H as [(y & h2 & _ & H) | [(? & _ & ?) | (? & _ & ?)]];
    [|discriminate..].
  by injection H as <- _.
Qed.

(** X28.  The setup script exits only with status 1, and only for two
    reasons: a package is missing, or there is no [.env] file and the user
    does not have one made.  The server is not started then.  So a failure
    of the knowledge-base or of the vector-store command never stops the
    script, and "Failed to create directories" is never printed before an
    exit. *)
Theorem setup_exits_only_for_dependencies_or_env (h : Host) (status : Z) :
  (main h).1 = Exit status ->
  status = 1%Z /\
  launched (main h).2 = launched h /\
  (last (stdout (main h).2)
     = Some (Line Warn "Please install dependencies first: pip install -r requirements.txt") \/
   last (stdout (main h).2)
     = Some (Line Warn "Please set up your .env file before continuing")).
Proof.
  destruct (main h) as [o h'] eqn:H. simpl. intros ->.
  unfold main in H.
  apply script_bind_inv in H as [(x & h1 & H1 & H) | [(? & H1 & _) | (? & _ & ?)]];
    [|discriminate..].
  injection H1 as _ <-.
  apply script_bind_inv in H as [(x2 & h2 & H2 & H) | [(? & H2 & _) | (? & _ & ?)]];
    [|discriminate..].
  injection H2 as _ <-.
  apply script_bind_inv in H as [(x3 & h3 & H3 & H) | [(? & H3 & _) | (? & _ & ?)]];
    [|discriminate..].
  injection H3 as _ <-.
  apply script_bind_inv in H as [(deps & h4 & H4 & H) | [(? & H4 & _) | (? & _ & ?)]];
    [|exact (False_ind _ (proj2 (calm_check_dependencies _ _ _ H4) _ eq_refl))|discriminate].
  pose proof (proj1 (calm_check_dependencies _ _ _ H4)) as L4. simpl in L4.
  destruct deps; simpl in H.
  2:{ injection H as <- <-. simpl. rewrite last_snoc. auto. }
  apply script_bind_inv in H as [(dirs & h5 & H5 & H) | [(? & H5 & _) | (? & _ & ?)]];
    [|exact (False_ind _ (proj2 (calm_create_directories _ _ _ H5) _ eq_refl))|discriminate].
  pose proof (proj1 (calm_create_directories _ _ _ H5)) as L5.
  rewrite (create_directories_true _ _ _ H5) in H. simpl in H.
  apply script_bind_inv in H as [(env & h6 & H6 & H) | [(? & H6 & _) | (? & _ & ?)]];
    [|exact (False_ind _ (proj2 (calm_check_env_file _ _ _ H6) _ eq_refl))|discriminate].
  pose proof (proj1 (calm_check_env_file _ _ _ H6)) as L6.
  destruct env; simpl in H.
  - by destruct (never_exits_finish_setup _ _ _ H).
  - injection H as <- <-. simpl. rewrite last_snoc. split; [reflexivity|].
    split; [congruence | auto].
Qed.

(** The dependency check only prints. *)
Lemma check_each_surroundings (packages missing : list string) :
  preserves surroundings (check_each packages missing).
Proof.
  revert missing. induction packages as [|package rest IH]; intros missing h o h'; simpl.
  - by intros [= <- <-].
  - destruct (import_module _); [|destruct (is_import_error e)].
    + intros H. by rewrite (IH _ _ _ _ H).
    + intros H. by rewrite (IH _ _ _ _ H).
    + by intros [= <- <-].
Qed.

(** What the loop returns holds what it was given and every package whose
    import raised. *)
Lemma check_each_missing (packages missing found : list string) (h h' : Host) :
  check_each packages missing h = (Done found, h') ->
  forall p, In p missing \/
            (In p packages /\ exists e, import_module (replace_char "-" "_" p) = Raise e) ->
            In p found.
Proof.
  revert missing h. induction packages as [|package rest IH]; intros missing h; simpl.
  - intros [= <- <-] p [Hp|[[] _]]. exact Hp.
  - destruct (import_module (replace_char "-" "_" package)) as [u|e] eqn:Hi;
      [|destruct (is_import_error e)].
    + intros H p Hp. apply (IH _ _ H). destruct Hp as [Hp|[[->|Hp] [e He]]]; auto.
      * congruence.
      * right. eauto.
    + intros H p Hp. apply (IH _ _ H). rewrite in_app_iff. simpl.
      destruct Hp as [Hp|[[->|Hp] He]]; auto.
    + discriminate.
Qed.

Lemma preserves_bind {A B X : Type} (f : Host -> X) (m : Script A) (k : A -> Script B) :
  preserves f m -> (forall x, preserves f (k x)) -> preserves f (m ≫= k).
Proof.
  intros Hm Hk h o h' H.
  apply script_bind_inv in H as [(x & h1 & H1 & H2) | [(s & H1 & _) | (e & H1 & _)]].
  - rewrite (Hk x _ _ _ H2). exact (Hm _ _ _ H1).
  - exact (Hm _ _ _ H1).
  - exact (Hm _ _ _ H1).
Qed.

Lemma print_surroundings (l : line) : preserves surroundings (print l).
Proof. by intros h o h' [= <- <-]. Qed.

Lemma ret_surroundings {A : Type} (x : A) : preserves surroundings (mret x : Script A).
Proof. by intros h o h' [= <- <-]. Qed.

Lemma print_step_surroundings (message : string) :
  preserves surroundings (print_step message).
Proof.
  unfold print_step.
  apply preserves_bind; [apply print_surroundings|intros _].
  apply preserves_bind; [apply print_surroundings|intros _].
  apply print_surroundings.
Qed.

Lemma check_dependencies_surroundings : preserves surroundings check_dependencies.
Proof.
  unfold check_dependencies.
  apply preserves_bind; [apply print_step_surroundings|intros _].
  apply preserves_bind; [apply check_each_surroundings|intros missing].
  destruct missing; [apply ret_surroundings|].
  apply preserves_bind; [apply print_surroundings|intros _].
  apply preserves_bind; [apply print_surroundings|intros _].
  apply ret_surroundings.
Qed.

Lemma check_dependencies_false (p : string) (e : exn) (h h' : Host) (b : bool) :
  In p required_packages -> import_module (replace_char "-" "_" p) = Raise e ->
  check_dependencies h = (Done b, h') -> b = false.
Proof.
  intros Hp Hi H. unfold check_dependencies in H.
  apply script_bind_inv in H as [(x & h1 & _ & H) | [(? & _ & ?) | (? & _ & ?)]];
    [|discriminate..].
  apply script_bind_inv in H as [(found & h2 & Hc & H) | [(? & _ & ?) | (? & _ & ?)]];
    [|discriminate..].
  assert (Hf : In p found) by (apply (check_each_missing _ _ _ _ _ Hc); eauto).
  destruct found as [|p0 found]; [destruct Hf|].
  by injection H as <- _.
Qed.

(** X29.  The packages are looked up under their names with "-" replaced by
    "_", so "faiss-cpu" is looked up as [faiss_cpu].  If one of the seven
    modules cannot be imported, the script ends at once, with exit status 1
    (or with the exception of an import that fails otherwise): no
    directory and no file is made, no question is asked and the server is
    not started. *)
Theorem missing_module_stops_setup (h : Host) (name : string) (e : exn) :
  In name required_modules ->
  import_module name = Raise e ->
  ((main h).1 = Exit 1 \/ exists e', (main h).1 = Crash e') /\
  files (main h).2 = files h /\ stdin (main h).2 = stdin h /\
  launched (main h).2 = launched h.
Proof.
  intros Hname Himp.
  assert (Hpkg : exists p, In p required_packages /\ replace_char "-" "_" p = name).
  { change required_modules with (List.map (replace_char "-" "_") required_packages)
      in Hname.
    apply in_map_iff in Hname as (p & Hmod & Hp). eauto. }
  destruct Hpkg as (p & Hp & <-).
  assert (Hs : surroundings (main h).2 = surroundings h ->
               files (main h).2 = files h /\ stdin (main h).2 = stdin h /\
               launched (main h).2 = launched h).
  { unfold surroundings. intros [= -> -> ->]. auto. }
  destruct (main h) as [o h'] eqn:H. simpl in *.
  unfold main in H.
  apply script_bind_inv in H as [(x1 & h1 & H1 & H) | [(? & H1 & _) | (? & H1 & _)]];
    [|discriminate..].
  injection H1 as _ <-.
  apply script_bind_inv in H as [(x2 & h2 & H2 & H) | [(? & H2 & _) | (? & H2 & _)]];
    [|discriminate..].
  injection H2 as _ <-.
  apply script_bind_inv in H as [(x3 & h3 & H3 & H) | [(? & H3 & _) | (? & H3 & _)]];
    [|discriminate..].
  injection H3 as _ <-.
  apply script_bind_inv in H as [(deps & h4 & H4 & H) | [(? & H4 & _) | (e' & H4 & ->)]].
  - rewrite (check_dependencies_false p e _ _ _ Hp Himp H4) in H.
    pose proof (check_dependencies_surroundings _ _ _ H4) as S4.
    injection H as <- <-. split; [auto|]. apply Hs. exact S4.
  - exact (False_ind _ (proj2 (calm_check_dependencies _ _ _ H4) _ eq_refl)).
  - pose proof (check_dependencies_surroundings _ _ _ H4) as S4.
    split; [eauto|]. apply Hs. exact S4.
Qed.

(** X30.  [check_env_file] never touches a [.env] that exists.  It changes
    the files only when there is none and the answer to its question is
    "y" or "Y": then [.env] holds one line, the key that was typed without
    the white space around it. *)
Theorem env_file_only_on_consent (h : Host) :
  tree (files (check_env_file h).2) = tree (files h) \/
  (os_path_exists (files h) ".env" = false /\
   exists answer key rest,
     stdin h = answer :: key :: rest /\ lower answer = "y" /\
     tree (files (check_env_file h).2)
       = <[".env" := Reg ("OPENAI_API_KEY=" ++ strip key ++ line_feed)%string]>
           (tree (files h))).
Proof.
  destruct (check_env_file h) as [o h'] eqn:H. simpl.
  unfold check_env_file in H.
  apply script_bind_inv in H as [(x1 & h1 & H1 & H) | [(? & H1 & _) | (? & H1 & _)]];
    [|discriminate..].
  injection H1 as _ <-.
  apply script_bind_inv in H as [(found & h2 & H2 & H) | [(? & H2 & _) | (? & H2 & _)]];
    [|discriminate..].
  injection H2 as <- <-. simpl in H.
  destruct (os_path_exists (files h) ".env") eqn:Hex; simpl in H.
  { injection H as _ <-. by left. }
  do 3 (apply script_bind_inv in H as [(? & ? & Hp & H) | [(? & Hp & _) | (? & Hp & _)]];
          [injection Hp as _ <-|discriminate..]).
  apply script_bind_inv in H as [(create_env & h5 & Hi & H) | [(? & Hi & _) | (? & Hi & _)]];
    unfold input in Hi; cbn [files stdin stdout launched] in Hi;
    destruct (stdin h) as [|answer rest] eqn:Hin; try discriminate.
  2:{ injection Hi as _ <-. by left. }
  injection Hi as <- <-.
  destruct (String.eqb_spec (lower answer) "y") as [Hy|Hy].
  2:{ injection H as _ <-. by left. }
  apply script_bind_inv in H as [(api_key & h6 & Hi & H) | [(? & Hi & _) | (? & Hi & _)]];
    unfold input in Hi; cbn [files stdin stdout launched] in Hi;
    destruct rest as [|key rest]; try discriminate.
  2:{ injection Hi as _ <-. by left. }
  injection Hi as <- <-.
  unfold os_path_exists in Hex.
  apply script_bind_inv in H as [(xw & h7 & Hw & H) | [(? & Hw & _) | (? & Hw & _)]];
    unfold write_env in Hw; cbn [files stdin stdout launched] in Hw;
    destruct (tree (files h) !! ".env") as [y|] eqn:Hl; try discriminate;
    destruct (can_write (files h)); try discriminate.
  2:{ injection Hw as _ <-. by left. }
  injection Hw as _ <-.
  apply script_bind_inv in H as [(? & ? & Hp & H) | [(? & Hp & _) | (? & Hp & _)]];
    [injection Hp as _ <-|discriminate..].
  injection H as _ <-. right. split; [reflexivity|].
  exists answer, key, rest. auto.
Qed.

End SetupExtras.

Lemma auto_setup_proceeds_only_with_index_witness :
  let fs := mkFiles (<[index_path := Reg "index"]> ∅) true in
  (auto_setup (platform := sample_platform) fs).1.1 = Proceeds /\
  os_path_exists fs index_path = true /\
  (auto_setup (platform := sample_platform) fs).1.2 = [] /\
  Forall (fun d => tree (auto_setup (platform := sample_platform) fs).2 !! d = Some Dir)
         ["memory"; "rag/knowledge_base"; "rag/vectorstore"].
Proof.
  intros fs.
  assert (H : (auto_setup (platform := sample_platform) fs).1.1 = Proceeds)
    by (vm_compute; reflexivity).
  split; [exact H|].
  exact (auto_setup_proceeds_only_with_index (platform := sample_platform) fs H).
Defined.

Lemma setup_exits_only_for_dependencies_or_env_witness :
  let h := fresh_host empty_files [] in
  (main (platform := sample_platform) h).1 = Exit 1 /\
  launched (main (platform := sample_platform) h).2 = false /\
  last (stdout (main (platform := sample_platform) h).2)
    = Some (Line Warn "Please install dependencies first: pip install -r requirements.txt").
Proof.
  intros h.
  assert (H : (main (platform := sample_platform) h).1 = Exit 1) by (vm_compute; reflexivity).
  destruct (setup_exits_only_for_dependencies_or_env (platform := sample_platform) h 1 H)
    as (_ & Hl & _).
  split; [exact H|]. split; [exact Hl|]. vm_compute. reflexivity.
Defined.

Lemma missing_module_stops_setup_witness :
  let h := fresh_host project_files ["y"] in
  In "faiss_cpu" required_modules /\
  ((main (platform := sample_platform) h).1 = Exit 1 \/
   exists e', (main (platform := sample_platform) h).1 = Crash e') /\
  files (main (platform := sample_platform) h).2 = files h /\
  stdin (main (platform := sample_platform) h).2 = stdin h /\
  launched (main (platform := sample_platform) h).2 = launched h.
Proof.
  intros h.
  assert (Hin : In "faiss_cpu" required_modules) by (simpl; tauto).
  split; [exact Hin|].
  apply (missing_module_stops_setup (platform := sample_platform) h "faiss_cpu"
           (mkExn (OtherError "ModuleNotFoundError") "No module named 'faiss_cpu'"));
    [exact Hin | reflexivity].
Defined.
